(** * Sort_Images_Create_PDF: a shallow embedding of [create_pdf_from_sorted_img.py]

    The script reads the pages of a PDF as images, finds a timestamp in the
    OCR text of each image, crops and rescales the image, sorts the images by
    timestamp and lays them out on the pages of a new PDF, one page per week.

    The embedding follows the script function by function.  Python integers
    are [Z], Python strings are [string], lists are [list], exceptions are the
    [Raise] side of [result], and the working directory and the output file
    are the [world] that the functions of the script thread through.  The
    libraries the script calls (re, datetime, numpy, cv2, PIL, reportlab) are
    modelled on the inputs the script gives them; pdf2image and pytesseract
    are oracles. *)

From Stdlib Require Import ZArith List String Ascii Bool Lia Arith.
From Stdlib Require Import Permutation Sorted DecimalString DecimalZ.
Import ListNotations.

Local Open Scope string_scope.
Local Open Scope Z_scope.

(* ================================================================== *)
(** ** Exceptions *)

Inductive exn : Set :=
| ValueError        (* strptime, list.index *)
| AttributeError    (* None.start(0) *)
| IndexError        (* [][0] *)
| CvError           (* cv2.error *)
| FileNotFoundError.

Inductive result (A : Type) : Type :=
| Ok (a : A)
| Raise (e : exn).
Arguments Ok {A} a.
Arguments Raise {A} e.

(* ================================================================== *)
(** ** datetime *)

Module Calendar.

(** A naive [datetime.datetime]; the formats of the script never set
    microseconds. *)
Record datetime : Set := mkdt
  { year : Z; month : Z; day : Z; hour : Z; minute : Z; second : Z }.

(** [datetime._is_leap] *)
Definition is_leap (y : Z) : bool :=
  (y mod 4 =? 0) && (negb (y mod 100 =? 0) || (y mod 400 =? 0)).

(** [datetime._DAYS_IN_MONTH], index 0 unused *)
Definition DAYS_IN_MONTH : list Z :=
  [-1; 31; 28; 31; 30; 31; 30; 31; 31; 30; 31; 30; 31].

(** [datetime._days_in_month] *)
Definition days_in_month (y m : Z) : Z :=
  if (m =? 2) && is_leap y then 29 else nth (Z.to_nat m) DAYS_IN_MONTH 0.

(** [datetime._DAYS_BEFORE_MONTH] *)
Definition DAYS_BEFORE_MONTH : list Z :=
  [-1; 0; 31; 59; 90; 120; 151; 181; 212; 243; 273; 304; 334].

(** [datetime._days_before_month] *)
Definition days_before_month (y m : Z) : Z :=
  nth (Z.to_nat m) DAYS_BEFORE_MONTH 0
  + (if (2 <? m) && is_leap y then 1 else 0).

(** [datetime._days_before_year] *)
Definition days_before_year (y : Z) : Z :=
  let y := y - 1 in y * 365 + y / 4 - y / 100 + y / 400.

(** [datetime._ymd2ord] *)
Definition ymd2ord (y m d : Z) : Z :=
  days_before_year y + days_before_month y m + d.

Definition toordinal (dt : datetime) : Z :=
  ymd2ord (year dt) (month dt) (day dt).

(** [date.weekday()]: Monday is 0 *)
Definition weekday (dt : datetime) : Z := (toordinal dt + 6) mod 7.

(** The fields of the C [struct tm] that [time.strftime] receives from
    [datetime.timetuple()]: [tm_wday] counts from Sunday, [tm_yday] from 0. *)
Definition tm_wday (dt : datetime) : Z := (weekday dt + 1) mod 7.
Definition tm_yday (dt : datetime) : Z :=
  days_before_month (year dt) (month dt) + day dt - 1.

(** The number that ["%U"] prints: week of the year, weeks starting on
    Sunday, the days before the first Sunday in week 0. *)
Definition week_of_year (dt : datetime) : Z :=
  (tm_yday dt + 7 - tm_wday dt) / 7.

Definition digit (d : Z) : ascii := ascii_of_nat (48 + Z.to_nat d).

(** ["%02d"] on a number below 100 *)
Definition two_digits (n : Z) : string :=
  String (digit (n / 10)) (String (digit (n mod 10)) EmptyString).

(** [str(n)] on an integer *)
Definition str (n : Z) : string := NilZero.string_of_int (Z.to_int n).

(** [dt.strftime("%U")] *)
Definition strftime_U (dt : datetime) : string := two_digits (week_of_year dt).

Definition MONTH_NAMES : list string :=
  [""; "January"; "February"; "March"; "April"; "May"; "June"; "July";
   "August"; "September"; "October"; "November"; "December"].

(** [dt.strftime("%B %d, %Y")] *)
Definition strftime_B_d_Y (dt : datetime) : string :=
  nth (Z.to_nat (month dt)) MONTH_NAMES "" ++ " " ++ two_digits (day dt)
  ++ ", " ++ str (year dt).

(** Comparison of two datetimes is the comparison of their field tuples. *)
Definition fields (dt : datetime) : list Z :=
  [year dt; month dt; day dt; hour dt; minute dt; second dt].

Fixpoint lex_compare (a b : list Z) : comparison :=
  match a, b with
  | [], [] => Eq
  | [], _ :: _ => Lt
  | _ :: _, [] => Gt
  | x :: a', y :: b' =>
      match x ?= y with
      | Eq => lex_compare a' b'
      | c => c
      end
  end.

Definition dt_compare (a b : datetime) : comparison :=
  lex_compare (fields a) (fields b).

(** [a < b] on datetimes *)
Definition dt_ltb (a b : datetime) : bool :=
  match dt_compare a b with Lt => true | _ => false end.

(** [a == b] on datetimes *)
Definition dt_eqb (a b : datetime) : bool :=
  match dt_compare a b with Eq => true | _ => false end.

End Calendar.
Export Calendar.

(* ================================================================== *)
(** ** Regular expressions

    The fragment of Python's [re] that the script and [_strptime] use, with
    the engine's backtracking order: alternatives left to right, optional
    parts and repetitions greedy.  Texts are ASCII, and so are the classes
    [\d], [\s] and [\w]. *)

Module Re.

Inductive cclass : Set :=
| CChar (c : ascii)          (* a literal character *)
| CRange (lo hi : ascii)     (* [lo-hi] *)
| CDigit                     (* \d *)
| CSpace.                    (* \s *)

Inductive regex : Set :=
| REps
| RCls (c : cclass)
| RSeq (a b : regex)
| RAlt (a b : regex)
| ROpt (a : regex)                  (* a? *)
| RPlus (c : cclass)                (* c+ *)
| RGroup (name : string) (a : regex)  (* (?P<name>a) *)
| RWordB.                           (* \b *)

Definition in_range (lo hi : nat) (x : ascii) : bool :=
  (lo <=? nat_of_ascii x)%nat && (nat_of_ascii x <=? hi)%nat.

Definition is_digit (x : ascii) : bool := in_range 48 57 x.
Definition is_upper (x : ascii) : bool := in_range 65 90 x.
Definition is_lower (x : ascii) : bool := in_range 97 122 x.

(** [\s] on ASCII: space, \t, \n, \v, \f, \r *)
Definition is_space (x : ascii) : bool :=
  (nat_of_ascii x =? 32)%nat || in_range 9 13 x.

(** [\w] on ASCII *)
Definition is_word (x : ascii) : bool :=
  is_digit x || is_upper x || is_lower x || (nat_of_ascii x =? 95)%nat.

Definition lower (x : ascii) : ascii :=
  if is_upper x then ascii_of_nat (nat_of_ascii x + 32) else x.

(** [icase] is the flag re.IGNORECASE *)
Definition cls_match (icase : bool) (c : cclass) (x : ascii) : bool :=
  match c with
  | CChar a => if icase then Ascii.eqb (lower a) (lower x) else Ascii.eqb a x
  | CRange lo hi => in_range (nat_of_ascii lo) (nat_of_ascii hi) x
  | CDigit => is_digit x
  | CSpace => is_space x
  end.

Definition captures : Set := list (string * string).

(** What was read between the position of [s] and the later position [s']. *)
Definition consumed (s s' : string) : string :=
  substring 0 (String.length s - String.length s') s.

Definition first_char (s : string) : option ascii :=
  match s with EmptyString => None | String x _ => Some x end.

Definition word_at (o : option ascii) : bool :=
  match o with Some x => is_word x | None => false end.

Section Matcher.
Context {A : Type} (icase : bool).

(** [c+], the longest run first *)
Fixpoint greedy (c : cclass) (s : string)
    (k : option ascii -> string -> option A) : option A :=
  match s with
  | EmptyString => None
  | String x s' =>
      if cls_match icase c x then
        match greedy c s' k with
        | Some r => Some r
        | None => k (Some x) s'
        end
      else None
  end.

(** The matcher at one position: [prev] is the character before the
    position, [s] the text from it, [k] what remains to be matched. *)
Fixpoint rmatch (r : regex) (prev : option ascii) (s : string)
    (env : captures)
    (k : option ascii -> string -> captures -> option A) : option A :=
  match r with
  | REps => k prev s env
  | RCls c =>
      match s with
      | String x s' => if cls_match icase c x then k (Some x) s' env else None
      | EmptyString => None
      end
  | RSeq a b => rmatch a prev s env (fun p' s' e' => rmatch b p' s' e' k)
  | RAlt a b =>
      match rmatch a prev s env k with
      | Some r => Some r
      | None => rmatch b prev s env k
      end
  | ROpt a =>
      match rmatch a prev s env k with
      | Some r => Some r
      | None => k prev s env
      end
  | RPlus c => greedy c s (fun p' s' => k p' s' env)
  | RGroup n a =>
      rmatch a prev s env (fun p' s' e' => k p' s' ((n, consumed s s') :: e'))
  | RWordB =>
      if xorb (word_at prev) (word_at (first_char s)) then k prev s env
      else None
  end.
End Matcher.

(** A match of [r] that starts at the position of [s]: the text after the
    match, the character before that text and the named groups. *)
Definition match_here (icase : bool) (r : regex) (prev : option ascii)
    (s : string) : option (option ascii * string * captures) :=
  rmatch icase r prev s [] (fun p' s' e' => Some (p', s', e')).

(** [re.search(r, s)]: the leftmost match, as its start offset and text. *)
Fixpoint search_from (r : regex) (prev : option ascii) (s : string)
    (pos : nat) : option (nat * string) :=
  match match_here false r prev s with
  | Some (_, rest, _) => Some (pos, consumed s rest)
  | None =>
      match s with
      | EmptyString => None
      | String x s' => search_from r (Some x) s' (S pos)
      end
  end.

Definition search (r : regex) (s : string) : option (nat * string) :=
  search_from r None s 0.

(** [re.findall(r, s)] for a pattern without capturing groups: the texts of
    the successive matches, each search resuming where the last match
    ended.  The two patterns of the script match no empty text; after an
    empty match the search resumes one character further. *)
Fixpoint findall_from (fuel : nat) (r : regex) (prev : option ascii)
    (s : string) : list string :=
  match fuel with
  | O => []
  | S fuel' =>
      match match_here false r prev s with
      | Some (p', rest, _) =>
          let m := consumed s rest in
          match m, s with
          | EmptyString, String x s' => m :: findall_from fuel' r (Some x) s'
          | EmptyString, EmptyString => [m]
          | _, _ => m :: findall_from fuel' r p' rest
          end
      | None =>
          match s with
          | EmptyString => []
          | String x s' => findall_from fuel' r (Some x) s'
          end
      end
  end.

Definition findall (r : regex) (s : string) : list string :=
  findall_from (S (String.length s)) r None s.

(** Builders for patterns *)
Fixpoint lit (s : string) : regex :=
  match s with
  | EmptyString => REps
  | String x EmptyString => RCls (CChar x)
  | String x s' => RSeq (RCls (CChar x)) (lit s')
  end.

Fixpoint seq (rs : list regex) : regex :=
  match rs with
  | [] => REps
  | [r] => r
  | r :: rs' => RSeq r (seq rs')
  end.

Fixpoint alt (rs : list regex) : regex :=
  match rs with
  | [] => REps
  | [r] => r
  | r :: rs' => RAlt r (alt rs')
  end.

Definition d : regex := RCls CDigit.
(** [\d{1,2}] *)
Definition d12 : regex := RSeq d (ROpt d).
(** [\d{2}] *)
Definition d2 : regex := RSeq d d.
Definition rng (lo hi : string) : regex :=
  match lo, hi with
  | String a _, String b _ => RCls (CRange a b)
  | _, _ => REps
  end.

End Re.

(* ================================================================== *)
(** ** The two patterns of [main_caller] *)

(** [r"\b\d{1,2}/\d{1,2}/\d{2}(?:\d{2})?, \d{1,2}:\d{2}(?::\d{2})?(?: AM| PM)?\b"] *)
Definition date_time_regex : Re.regex :=
  Re.seq [Re.RWordB; Re.d12; Re.lit "/"; Re.d12; Re.lit "/"; Re.d2;
          Re.ROpt Re.d2; Re.lit ", "; Re.d12; Re.lit ":"; Re.d2;
          Re.ROpt (Re.RSeq (Re.lit ":") Re.d2);
          Re.ROpt (Re.RAlt (Re.lit " AM") (Re.lit " PM")); Re.RWordB].

(** [r"(Your ride|You rated|Yourated)"] *)
Definition img_crop_end_regex : Re.regex :=
  Re.alt [Re.lit "Your ride"; Re.lit "You rated"; Re.lit "Yourated"].

(* ================================================================== *)
(** ** [datetime.strptime]

    [_strptime] turns the format into a pattern (a run of white space becomes
    [\s+], a directive becomes a named group, compiled with re.IGNORECASE),
    matches it at the start of the text, refuses unconverted text after the
    match, and builds the date from the groups.  The directives are those of
    [_strptime.TimeRE] in the C locale. *)

Module Strptime.
Import Re.

Definition directive (c : ascii) : option regex :=
  match c with
  | "d"%char =>
      Some (RGroup "d" (alt [RSeq (lit "3") (rng "0" "1");
                             RSeq (rng "1" "2") d;
                             RSeq (lit "0") (rng "1" "9");
                             rng "1" "9";
                             RSeq (lit " ") (rng "1" "9")]))
  | "H"%char =>
      Some (RGroup "H" (alt [RSeq (lit "2") (rng "0" "3");
                             RSeq (rng "0" "1") d;
                             d]))
  | "I"%char =>
      Some (RGroup "I" (alt [RSeq (lit "1") (rng "0" "2");
                             RSeq (lit "0") (rng "1" "9");
                             rng "1" "9"]))
  | "m"%char =>
      Some (RGroup "m" (alt [RSeq (lit "1") (rng "0" "2");
                             RSeq (lit "0") (rng "1" "9");
                             rng "1" "9"]))
  | "M"%char => Some (RGroup "M" (alt [RSeq (rng "0" "5") d; d]))
  | "y"%char => Some (RGroup "y" (RSeq d d))
  | "p"%char => Some (RGroup "p" (alt [lit "am"; lit "pm"]))
  | _ => None
  end.

(** [TimeRE.pattern]; [in_ws] says that the previous character of the
    format was white space, already turned into [\s+]. *)
Fixpoint pattern (in_ws : bool) (fmt : string) : option regex :=
  match fmt with
  | EmptyString => Some REps
  | String "%"%char EmptyString => None
  | String "%"%char (String c rest) =>
      match directive c, pattern false rest with
      | Some r, Some r' => Some (RSeq r r')
      | _, _ => None
      end
  | String x rest =>
      if is_space x then
        if in_ws then pattern true rest
        else option_map (RSeq (RPlus CSpace)) (pattern true rest)
      else option_map (RSeq (RCls (CChar x))) (pattern false rest)
  end.

(** [int(s)] on the text of a group: digits, after an optional space *)
Fixpoint int_of (acc : Z) (s : string) : Z :=
  match s with
  | EmptyString => acc
  | String x s' =>
      if is_digit x then int_of (10 * acc + (Z.of_nat (nat_of_ascii x) - 48)) s'
      else int_of acc s'
  end.

Fixpoint group (n : string) (env : captures) : option string :=
  match env with
  | [] => None
  | (k, v) :: env' => if String.eqb k n then Some v else group n env'
  end.

Definition group_int (n : string) (default : Z) (env : captures) : Z :=
  match group n env with Some v => int_of 0 v | None => default end.

Fixpoint lower_string (s : string) : string :=
  match s with
  | EmptyString => EmptyString
  | String x s' => String (lower x) (lower_string s')
  end.

(** The hour, from [%H] or from [%I] and [%p] *)
Definition hour_of (env : captures) : Z :=
  match group "I" env with
  | Some v =>
      let h := int_of 0 v in
      let ampm := match group "p" env with
                  | Some p => lower_string p
                  | None => EmptyString
                  end in
      if String.eqb ampm "pm" then (if h =? 12 then h else h + 12)
      else (if h =? 12 then 0 else h)
  | None => group_int "H" 0 env
  end.

(** The year of [%y]: 69..99 are 1969..1999, 0..68 are 2000..2068 *)
Definition year_of (env : captures) : Z :=
  match group "y" env with
  | Some v => let y := int_of 0 v in if y <=? 68 then y + 2000 else y + 1900
  | None => 1900
  end.

Definition strptime (data fmt : string) : result datetime :=
  match pattern false fmt with
  | None => Raise ValueError
  | Some r =>
      match match_here true r None data with
      | Some (_, EmptyString, env) =>
          let y := year_of env in
          let m := group_int "m" 1 env in
          let dd := group_int "d" 1 env in
          if dd <=? days_in_month y m then
            Ok (mkdt y m dd (hour_of env) (group_int "M" 0 env) 0)
          else Raise ValueError
      | _ => Raise ValueError
      end
  end.

End Strptime.
Export Strptime.

(* ================================================================== *)
(** ** Images

    An image is known by where it comes from: a page of the input PDF, a
    slice of rows of an image, or an image rescaled by cv2.  Its shape
    follows; what it shows is what the OCR oracle reads from it. *)

Module Imaging.

Inductive raster : Set :=
| Scan (id : N) (rows cols : Z)              (* a rendered page *)
| RowSlice (src : raster) (lo hi : Z)        (* src[lo:hi, :] *)
| Resized (src : raster) (width height : Z). (* cv2.resize(src, (width, height)) *)

(** A bound of a slice on an axis of length [n], as [slice.indices] gives
    it: a negative bound counts from the end, and both ends are clamped. *)
Definition clamp_index (n i : Z) : Z :=
  if i <? 0 then Z.max (i + n) 0 else Z.min i n.

Definition slice_len (n lo hi : Z) : Z :=
  Z.max (clamp_index n hi - clamp_index n lo) 0.

(** (rows, columns) *)
Fixpoint shape (r : raster) : Z * Z :=
  match r with
  | Scan _ rows cols => (rows, cols)
  | RowSlice src lo hi => (slice_len (fst (shape src)) lo hi, snd (shape src))
  | Resized _ width height => (height, width)
  end.

Definition is_empty (r : raster) : bool :=
  (fst (shape r) <=? 0) || (snd (shape r) <=? 0).

(** [cv2.resize(src, dsize)]: an empty source fails the assertion
    [!ssize.empty()], anything else gives an image of the size asked. *)
Definition cv2_resize (src : raster) (dsize : Z * Z) : result raster :=
  if is_empty src then Raise CvError
  else Ok (Resized src (fst dsize) (snd dsize)).

(** A [PIL.Image]: the file it was opened from and its size. *)
Record pil_image : Set := mkpil { filename : string; width : Z; height : Z }.

Definition ceil_div (a b : Z) : Z := - ((- a) / b).

(** [Image.thumbnail(size)]: nothing when the image fits in [size],
    otherwise the size is reduced on one side to keep the aspect ratio,
    rounded down or up, whichever is nearer in aspect (down on a tie),
    and never below 1.  Pillow computes with floats; here the same
    comparisons are made on the cross products. *)
Definition thumbnail (size : Z * Z) (img : pil_image) : pil_image :=
  let (x, y) := size in
  let w := width img in
  let h := height img in
  if (w <=? x) && (h <=? y) then img
  else if w * y <=? x * h then
    let f := (y * w) / h in
    let c := ceil_div (y * w) h in
    let n := if Z.abs (w * y - f * h) <=? Z.abs (w * y - c * h) then f else c in
    mkpil (filename img) (Z.max n 1) y
  else
    let f := (x * h) / w in
    let c := ceil_div (x * h) w in
    let n := if (f =? 0) || (Z.abs (w * f - x * h) * c <=? Z.abs (w * c - x * h) * f)
             then f else c in
    mkpil (filename img) x (Z.max n 1).

End Imaging.
Export Imaging.

(* ================================================================== *)
(** ** The PDF canvas of reportlab *)

Inductive op : Set :=
| SetFont (name : string) (size : Z)
| DrawString (x y : Z) (text : string)
| DrawImage (file : string) (x y w h : Z).

(** The pages closed so far and the operations of the page being drawn. *)
Record canvas : Set := mkcanvas { pages : list (list op); code : list op }.

Definition Canvas : canvas := mkcanvas [] [].

Definition emit (o : op) (c : canvas) : canvas :=
  mkcanvas (pages c) (code c ++ [o])%list.

Definition showPage (c : canvas) : canvas :=
  mkcanvas (pages c ++ [code c])%list [].

(** [Canvas.save] closes the page being drawn if anything is on it; the
    document is the list of its pages. *)
Definition saved (c : canvas) : list (list op) :=
  match code c with
  | [] => pages c
  | _ :: _ => pages (showPage c)
  end.

(* ================================================================== *)
(** ** The world: the images directory and the output file *)

Record world : Set := mkworld
  { files : list (string * raster);      (* the files of the images directory, by path *)
    output : option (list (list op)) }.  (* the PDF at the output path, once saved *)

Definition M (A : Type) : Type := world -> result A * world.

Definition ret {A} (a : A) : M A := fun w => (Ok a, w).
Definition bind {A B} (m : M A) (f : A -> M B) : M B :=
  fun w => match m w with
           | (Ok a, w') => f a w'
           | (Raise e, w') => (Raise e, w')
           end.
Definition lift {A} (r : result A) : M A := fun w => (r, w).

Notation "x <- c1 ;; c2" := (bind c1 (fun x => c2))
  (at level 61, c1 at next level, right associativity).
Notation "c1 ;; c2" := (bind c1 (fun _ => c2))
  (at level 61, right associativity).

(** [for x in l: s = body x s] *)
Fixpoint for_each {A S : Type} (l : list A) (body : A -> S -> M S) (s : S) : M S :=
  match l with
  | [] => ret s
  | x :: l' => s' <- body x s ;; for_each l' body s'
  end.

Fixpoint lookup {V : Type} (k : string) (l : list (string * V)) : option V :=
  match l with
  | [] => None
  | (k', v) :: l' => if String.eqb k' k then Some v else lookup k l'
  end.

(** Writing a file replaces it where it is, or adds it to the directory. *)
Fixpoint store {V : Type} (k : string) (v : V) (l : list (string * V)) : list (string * V) :=
  match l with
  | [] => [(k, v)]
  | (k', v') :: l' => if String.eqb k' k then (k, v) :: l' else (k', v') :: store k v l'
  end.

(** The paths of the directory: [os.path.join(images_directory, img)] for
    [img] in [os.listdir("images")].  The order of [files] stands for the
    order in which the system lists them. *)
Definition listdir : M (list string) := fun w => (Ok (map fst (files w)), w).

(** [cv2.imread] gives None for a file it cannot read, and the conversion to
    grey that follows raises on None. *)
Definition cv2_imread (path : string) : M raster :=
  fun w => match lookup path (files w) with
           | Some r => (Ok r, w)
           | None => (Raise CvError, w)
           end.

Definition cv2_imwrite (path : string) (r : raster) : M unit :=
  fun w => (Ok tt, mkworld (store path r (files w)) (output w)).

(** [image.save(path)] of PIL, for a save that succeeds: the errors of the
    library are not part of the model. *)
Definition image_save (path : string) (r : raster) : M unit :=
  fun w => (Ok tt, mkworld (store path r (files w)) (output w)).

(** [os.path.join(directory, name)] *)
Definition path_join (directory name : string) : string :=
  directory ++ "/" ++ name.

Definition Image_open (path : string) : M pil_image :=
  fun w => match lookup path (files w) with
           | Some r => (Ok (mkpil path (snd (shape r)) (fst (shape r))), w)
           | None => (Raise FileNotFoundError, w)
           end.

Definition canvas_save (c : canvas) : M unit :=
  fun w => (Ok tt, mkworld (files w) (Some (saved c))).

Definition rmtree : M unit :=
  fun w => (Ok tt, mkworld [] (output w)).

(* ================================================================== *)
(** ** Python lists *)

(** [l[0]] *)
Definition first {A} (l : list A) : result A :=
  match l with x :: _ => Ok x | [] => Raise IndexError end.

(** [l[-1]] *)
Fixpoint final {A} (l : list A) : result A :=
  match l with
  | [] => Raise IndexError
  | [x] => Ok x
  | _ :: l' => final l'
  end.

(** [l[i]] for [i >= 0] *)
Definition item {A} (l : list A) (i : nat) : result A :=
  match nth_error l i with Some x => Ok x | None => Raise IndexError end.

(** [l.index(x)] *)
Fixpoint index (l : list string) (x : string) : result nat :=
  match l with
  | [] => Raise ValueError
  | y :: l' =>
      if String.eqb y x then Ok O
      else match index l' x with Ok n => Ok (S n) | Raise e => Raise e end
  end.

(** [l[a:b]] for [0 <= a] and [0 <= b] *)
Definition slice {A} (l : list A) (a b : nat) : list A :=
  firstn (b - a) (skipn a l).

(** The members of a list with their positions: [enumerate(l)] from [a]. *)
Fixpoint enumerate {A} (a : nat) (l : list A) : list (nat * A) :=
  match l with
  | [] => []
  | x :: l' => (a, x) :: enumerate (S a) l'
  end.

(** [len(set(l))] *)
Definition count_distinct (l : list string) : nat :=
  List.length (nodup string_dec l).

(** [l.sort(key=key)]: the sort of Python is stable, and a stable sort has
    one result, the one that insertion gives: an element goes before the
    first element that is not smaller than it. *)
Section Sort.
Context {A K : Type} (key : A -> K) (ltb : K -> K -> bool).

Fixpoint insert (x : A) (l : list A) : list A :=
  match l with
  | [] => [x]
  | y :: l' => if ltb (key y) (key x) then y :: insert x l' else x :: y :: l'
  end.

Definition sort (l : list A) : list A := fold_right insert [] l.
End Sort.

(* ================================================================== *)
(** ** The script *)

Definition entry : Set := (string * datetime)%type.

(** [(date.day - 1) // 7 + 1] *)
Definition week_index (date : datetime) : Z := (day date - 1) / 7 + 1.

(** Lines 114-120: the three formats, each tried when the one before it
    raised. *)
Definition parse_datetime (datetime_str : string) : result datetime :=
  match strptime datetime_str "%m/%d/%y, %I:%M %p" with
  | Ok datetime_obj => Ok datetime_obj
  | Raise _ =>
      match strptime datetime_str "%d/%m/%y, %I:%M %p" with
      | Ok datetime_obj => Ok datetime_obj
      | Raise _ => strptime datetime_str "%d/%m/%y, %H:%M"
      end
  end.

(** [re.search(pattern, text).start(0)]: without a match [re.search] gives
    None, which has no [start]. *)
Definition search_start (pattern : Re.regex) (text : string) : result Z :=
  match Re.search pattern text with
  | Some (pos, _) => Ok (Z.of_nat pos)
  | None => Raise AttributeError
  end.

(** Lines 130-148 *)
Definition crop (img : raster) (start end_ : Z) : raster :=
  if start <? 5 then RowSlice img start (end_ + 900)
  else if (10 <? start) && (start <? 45) then RowSlice img (start + 600) (end_ + 1250)
  else if 50 <=? start then RowSlice img (start + 700) (end_ + 1200)
  else RowSlice img start (end_ + 700).

Section Script.

(** [pdf2image.convert_from_path]: the pages of a PDF file as images, for a
    call that returns. *)
Variable convert_from_path : string -> list raster.

(** [pytesseract.image_to_string] on the grey version of an image, for a
    call that returns. *)
Variable image_to_string : raster -> string.

Definition get_img_from_pdf (images_directory input_pdf_path : string) : M unit :=
  let images := convert_from_path input_pdf_path in
  for_each (enumerate 0 images)
    (fun (ii : nat * raster) (_ : unit) =>
       let (idx, image) := ii in
       let filename :=
         path_join images_directory
                   ("trip_image_" ++ str (Z.of_nat idx + 1) ++ ".jpg") in
       image_save filename image)
    tt.

(** The body of the loop of [crop_img_n_get_date] (lines 92-154). *)
Definition crop_one (date_time_regex img_crop_end_regex : Re.regex)
    (filename : string) (image_data_list : list entry) : M (list entry) :=
  img <- cv2_imread filename ;;
  let text := image_to_string img in
  let matches := Re.findall date_time_regex text in
  let datetime_str := match matches with m :: _ => m | [] => "" end in
  image_data_list <-
    (match datetime_str with
     | EmptyString => ret image_data_list
     | String _ _ =>
         datetime_obj <- lift (parse_datetime datetime_str) ;;
         ret (image_data_list ++ [(filename, datetime_obj)])%list
     end) ;;
  start <- lift (search_start date_time_regex text) ;;
  end_ <- lift (search_start img_crop_end_regex text) ;;
  let cropped_img := crop img start end_ in
  resized_img <- lift (cv2_resize cropped_img (700, 300)) ;;
  cv2_imwrite filename resized_img ;;
  ret image_data_list.

Definition crop_img_n_get_date (date_time_regex img_crop_end_regex : Re.regex)
    : M (list entry * list string * list datetime) :=
  listing <- listdir ;;
  image_data_list <-
    for_each listing (crop_one date_time_regex img_crop_end_regex) [] ;;
  let image_data_list := sort snd dt_ltb image_data_list in
  let image_list := map fst image_data_list in
  let date_list := map snd image_data_list in
  ret (image_data_list, image_list, date_list).

Definition x_pos : Z := 50.
Definition y_pos : Z := 780.

(** The body of the inner loop of [create_pdf] (lines 236-264). *)
Definition draw_one (page_images : list entry) (idx : nat) (pdf_canvas : canvas)
    : M canvas :=
  e <- lift (item page_images idx) ;;
  let (image_path, image_date) := e : entry in
  img <- Image_open image_path ;;
  let img := thumbnail (220, 220) img in
  if Z.of_nat idx mod 2 =? 0 then
    let y := 65 * Z.of_nat idx in
    let pdf_canvas :=
      emit (DrawString x_pos (y_pos - y) (strftime_B_d_Y image_date)) pdf_canvas in
    ret (emit (DrawImage (filename img) x_pos (y_pos - (y + 100))
                         (width img) (height img)) pdf_canvas)
  else
    let y := 65 * (Z.of_nat idx - 1) in
    let pdf_canvas :=
      emit (DrawString (x_pos + 300) (y_pos - y) (strftime_B_d_Y image_date))
           pdf_canvas in
    ret (emit (DrawImage (filename img) (x_pos + 300) (y_pos - (y + 100))
                         (width img) (height img)) pdf_canvas).

(** The members of page [i + 1] (lines 214-223). *)
Definition page_members (image_list : list string) (image_data_list : list entry)
    (i : nat) : result (list entry) :=
  let img_week_specific_list :=
    map fst (filter (fun e : entry => week_index (snd e) =? Z.of_nat i + 1)
                    image_data_list) in
  match first img_week_specific_list with
  | Raise e => Raise e
  | Ok head =>
      match index image_list head with
      | Raise e => Raise e
      | Ok start_index =>
          match final img_week_specific_list with
          | Raise e => Raise e
          | Ok tail_ =>
              match index image_list tail_ with
              | Raise e => Raise e
              | Ok end_index => Ok (slice image_data_list start_index (end_index + 1))
              end
          end
      end
  end.

(** The body of the outer loop of [create_pdf] (lines 207-264). *)
Definition page_one (image_list : list string) (image_data_list : list entry)
    (i : nat) (pdf_canvas : canvas) : M canvas :=
  let pdf_canvas := if (0 <? i)%nat then showPage pdf_canvas else pdf_canvas in
  page_images <- lift (page_members image_list image_data_list i) ;;
  let pdf_canvas :=
    emit (DrawString 275 800 ("Week " ++ str (Z.of_nat i + 1))) pdf_canvas in
  for_each (List.seq 0 (List.length page_images)) (draw_one page_images) pdf_canvas.

Definition create_pdf (image_list : list string) (image_data_list : list entry)
    (output_path : string) (date_list : list datetime) : M unit :=
  (* the canvas is made for [output_path]: [save] writes the [output] of the world *)
  let pdf_canvas := Canvas in
  let pdf_canvas := emit (SetFont "Helvetica" 12) pdf_canvas in
  let week_numbers := map strftime_U date_list in
  let num_weeks := count_distinct week_numbers in
  pdf_canvas <-
    for_each (List.seq 0 num_weeks) (page_one image_list image_data_list) pdf_canvas ;;
  canvas_save pdf_canvas.

(** [main_caller]; the logger writes to the console only, and the images
    directory is there from the start, empty or not. *)
Definition main_caller : M unit :=
  let input_pdf_path := "Shuffled_images.pdf" in
  let images_directory := "images" in
  let output_pdf := "Result.pdf" in
  get_img_from_pdf images_directory input_pdf_path ;;
  r <- crop_img_n_get_date date_time_regex img_crop_end_regex ;;
  let '(image_data_list, image_list, date_list) := r in
  create_pdf image_list image_data_list output_pdf date_list ;;
  rmtree.

End Script.

(* ================================================================== *)
(** ** Reading a page

    A layout cell is a date label followed by its image; the cells of a page
    are read off the operations of the page in the order they were drawn. *)

Record cell : Set := mkcell
  { label : string; label_x : Z; label_y : Z;
    image_file : string; image_x : Z; image_y : Z; image_w : Z; image_h : Z }.

Fixpoint cells (page : list op) : list cell :=
  match page with
  | [] => []
  | DrawString x y s :: rest =>
      match rest with
      | DrawImage f x' y' w h :: rest' => mkcell s x y f x' y' w h :: cells rest'
      | _ => cells rest
      end
  | _ :: rest => cells rest
  end.

(** The size [(width, height)] of the file at a path. *)
Definition size_on_disk (fs : list (string * raster)) (path : string) : Z * Z :=
  match lookup path fs with
  | Some r => (snd (shape r), fst (shape r))
  | None => (0, 0)
  end.

(** The cell that [draw_one] draws for member [idx] of a page. *)
Definition cell_at (fs : list (string * raster)) (idx : nat) (e : entry) : cell :=
  let img := thumbnail (220, 220)
               (mkpil (fst e) (fst (size_on_disk fs (fst e)))
                      (snd (size_on_disk fs (fst e)))) in
  let x := if Z.of_nat idx mod 2 =? 0 then 50 else 350 in
  let y := 780 - 65 * (if Z.of_nat idx mod 2 =? 0 then Z.of_nat idx
                       else Z.of_nat idx - 1) in
  mkcell (strftime_B_d_Y (snd e)) x y (fst e) x (y - 100) (width img) (height img).

Definition cell_code (c : cell) : list op :=
  [DrawString (label_x c) (label_y c) (label c);
   DrawImage (image_file c) (image_x c) (image_y c) (image_w c) (image_h c)].

Definition heading (i : nat) : op :=
  DrawString 275 800 ("Week " ++ str (Z.of_nat i + 1)).

(** The operations of page [i + 1], after the font on the first page. *)
Definition page_body (fs : list (string * raster)) (i : nat) (members : list entry)
    : list op :=
  heading i :: flat_map (fun ie => cell_code (cell_at fs (fst ie) (snd ie)))
                        (enumerate 0 members).

(** The number of distinct week indexes of a timeline. *)
Definition count_week_indexes (image_data_list : list entry) : nat :=
  List.length (nodup Z.eq_dec (map (fun e : entry => week_index (snd e)) image_data_list)).

Definition in_week (i : nat) (e : entry) : bool :=
  week_index (snd e) =? Z.of_nat i + 1.

(** The document that [create_pdf] saves when the pages have the members
    [ms]: the font is set on the first page, which is there even when no
    week is. *)
Definition document (fs : list (string * raster)) (ms : list (list entry))
    : list (list op) :=
  match ms with
  | [] => [[SetFont "Helvetica" 12]]
  | m0 :: ms' =>
      (SetFont "Helvetica" 12 :: page_body fs 0 m0)
      :: map (fun im => page_body fs (fst im) (snd im)) (enumerate 1 ms')
  end.

Definition on_disk (fs : list (string * raster)) (e : entry) : Prop :=
  lookup (fst e) fs <> None.

Definition page_of (il : list string) (idl : list entry) (fs : list (string * raster))
    (i : nat) (m : list entry) : Prop :=
  page_members il idl i = Ok m /\ Forall (on_disk fs) m.

(** The file at [path] has the canonical size. *)
Definition normalized (fs : list (string * raster)) (path : string) : Prop :=
  size_on_disk fs path = (700, 300).

(** [a] does not come after [b] in the order of the keys. *)
Definition ascending {A K : Type} (key : A -> K) (ltb : K -> K -> bool) (a b : A)
    : Prop :=
  ltb (key b) (key a) = false.

(** A pattern that can match the empty text *)
Fixpoint nullable (r : Re.regex) : bool :=
  match r with
  | Re.REps | Re.ROpt _ | Re.RWordB => true
  | Re.RCls _ | Re.RPlus _ => false
  | Re.RSeq a b => nullable a && nullable b
  | Re.RAlt a b => nullable a || nullable b
  | Re.RGroup _ a => nullable a
  end.

(** The three ways in which the text of an image stops the run: no
    timestamp, no terminator phrase, or a timestamp that none of the three
    formats reads. *)
Definition offending (drx erx : Re.regex) (text : string) : Prop :=
  Re.search drx text = None
  \/ Re.search erx text = None
  \/ exists pos c m, Re.search drx text = Some (pos, String c m)
       /\ strptime (String c m) "%m/%d/%y, %I:%M %p" = Raise ValueError
       /\ strptime (String c m) "%d/%m/%y, %I:%M %p" = Raise ValueError
       /\ strptime (String c m) "%d/%m/%y, %H:%M" = Raise ValueError.


(* ================================================================== *)
(** ** Sample inputs *)

(** The text on four sample pages: two receipts, a page without a
    timestamp, and a receipt whose timestamp comes late in the text. *)
Definition sample_text (id : N) : string :=
  match id with
  | 1%N => "2/8/23, 9:15 AM Trip Your ride with Sam"
  | 2%N => "2/7/23, 10:00 PM Trip You rated"
  | 3%N => "Receipt"
  | 4%N => "Thanks for riding with us, Alexander! We hope you enjoyed. 2/9/23, 7:45 AM Trip Your ride with Sam"
  | _ => ""
  end.

Definition sample_ocr (r : raster) : string :=
  match r with
  | Scan id _ _ => sample_text id
  | _ => ""
  end.

(** A directory of rendered pages, before the crop step. *)
Definition sample_pages (ids : list (string * N)) : world :=
  mkworld (map (fun f => (fst f, Scan (snd f) 2200 1700)) ids) None.

(** A directory of images of the canonical size, after the crop step. *)
Definition sample_images (paths : list string) : world :=
  mkworld (map (fun p => (p, Resized (Scan 0 2200 1700) 700 300)) paths) None.

(** Two receipts of one calendar week, on either side of the seventh. *)
Definition timeline_feb : list entry :=
  [("images/b.jpg", mkdt 2023 2 7 22 0 0); ("images/a.jpg", mkdt 2023 2 8 9 15 0)].

(** Three receipts of the first seven days of a month. *)
Definition timeline_three : list entry :=
  [("images/a.jpg", mkdt 2023 2 5 8 0 0); ("images/b.jpg", mkdt 2023 2 6 8 0 0);
   ("images/c.jpg", mkdt 2023 2 7 8 0 0)].

(** Receipts of two months: the eighth of January lies between two days
    of a first week. *)
Definition timeline_two_months : list entry :=
  [("images/a.jpg", mkdt 2022 1 7 18 30 0); ("images/b.jpg", mkdt 2022 1 8 9 0 0);
   ("images/c.jpg", mkdt 2022 2 1 12 0 0)].

(* ================================================================== *)
(** ** Names for the further properties *)

(** The path under which [get_img_from_pdf] saves page [k] (from 0). *)
Definition page_path (images_directory : string) (k : nat) : string :=
  path_join images_directory ("trip_image_" ++ str (Z.of_nat k + 1) ++ ".jpg").

(** What the crop step makes of one image: the file it writes back and the
    date it puts on the timeline, both read off the text of the image. *)
Definition cropped_from (ocr : raster -> string) (drx erx : Re.regex)
    (img out : raster) (d : datetime) : Prop :=
  exists pos m end_,
    Re.search drx (ocr img) = Some (pos, m)
    /\ search_start erx (ocr img) = Ok end_
    /\ parse_datetime m = Ok d
    /\ out = Resized (crop img (Z.of_nat pos) end_) 700 300.

(** The text on six receipts, one on each of six Sundays in a row. *)
Definition weekly_text (id : N) : string :=
  match id with
  | 1%N => "1/1/23, 9:15 AM Trip Your ride with Sam"
  | 2%N => "1/8/23, 9:15 AM Trip Your ride with Sam"
  | 3%N => "1/15/23, 9:15 AM Trip Your ride with Sam"
  | 4%N => "1/22/23, 9:15 AM Trip Your ride with Sam"
  | 5%N => "1/29/23, 9:15 AM Trip Your ride with Sam"
  | 6%N => "2/5/23, 9:15 AM Trip Your ride with Sam"
  | _ => ""
  end.

Definition weekly_ocr (r : raster) : string :=
  match r with
  | Scan id _ _ => weekly_text id
  | _ => ""
  end.

Definition weekly_pages : world :=
  sample_pages [("images/1.jpg", 1%N); ("images/2.jpg", 2%N); ("images/3.jpg", 3%N);
                ("images/4.jpg", 4%N); ("images/5.jpg", 5%N); ("images/6.jpg", 6%N)].

Definition timeline_six_weeks : list entry :=
  [("images/1.jpg", mkdt 2023 1 1 9 15 0); ("images/2.jpg", mkdt 2023 1 8 9 15 0);
   ("images/3.jpg", mkdt 2023 1 15 9 15 0); ("images/4.jpg", mkdt 2023 1 22 9 15 0);
   ("images/5.jpg", mkdt 2023 1 29 9 15 0); ("images/6.jpg", mkdt 2023 2 5 9 15 0)].

(** An image that the crop step gets through: its text has a timestamp that
    one of the formats reads and a terminator phrase, and the rows of its
    crop window are not all outside of it. *)
Definition croppable (ocr : raster -> string) (drx erx : Re.regex) (img : raster)
    : Prop :=
  exists pos m end_,
    Re.search drx (ocr img) = Some (pos, m)
    /\ (m = EmptyString \/ exists d, parse_datetime m = Ok d)
    /\ search_start erx (ocr img) = Ok end_
    /\ is_empty (crop img (Z.of_nat pos) end_) = false.

(** Three receipts: two of one timestamp, and one of the minute before. *)
Definition tie_text (id : N) : string :=
  match id with
  | 1%N => "2/7/23, 10:00 PM Trip Your ride with Sam"
  | 2%N => "2/7/23, 10:00 PM Trip You rated"
  | 3%N => "2/7/23, 9:59 PM Trip Your ride with Sam"
  | _ => ""
  end.

Definition tie_ocr (r : raster) : string :=
  match r with
  | Scan id _ _ => tie_text id
  | _ => ""
  end.

(** Thirteen receipts of one day, an hour apart. *)
Definition timeline_thirteen : list entry :=
  map (fun k : nat => ("images/" ++ str (Z.of_nat k) ++ ".jpg",
                       mkdt 2023 2 5 (7 + Z.of_nat k) 0 0))
      (List.seq 1 13).

(* ================================================================== *)
(** * Properties *)

(** ** The monad *)

Lemma bind_ok {A B} (m : M A) (f : A -> M B) w b w' :
  bind m f w = (Ok b, w') ->
  exists a w1, m w = (Ok a, w1) /\ f a w1 = (Ok b, w').
Proof.
  unfold bind. destruct (m w) as [[a | e] w1]; [eauto | discriminate].
Qed.

Lemma bind_raise {A B} (m : M A) (f : A -> M B) w e w' :
  m w = (Raise e, w') -> bind m f w = (Raise e, w').
Proof. unfold bind. intros ->. reflexivity. Qed.

Lemma bind_step {A B} (m : M A) (f : A -> M B) w a w1 :
  m w = (Ok a, w1) -> bind m f w = f a w1.
Proof. unfold bind. intros ->. reflexivity. Qed.

(** ** The inner loop of [create_pdf] *)

Lemma thumbnail_filename size img : filename (thumbnail size img) = filename img.
Proof.
  unfold thumbnail. destruct size as [x y].
  repeat match goal with |- context [if ?b then _ else _] => destruct b end;
    reflexivity.
Qed.

Lemma draw_one_eq l idx c w :
  draw_one l idx c w =
  match nth_error l idx with
  | None => (Raise IndexError, w)
  | Some e =>
      match lookup (fst e) (files w) with
      | None => (Raise FileNotFoundError, w)
      | Some _ =>
          (Ok (mkcanvas (pages c) (code c ++ cell_code (cell_at (files w) idx e))), w)
      end
  end.
Proof.
  unfold draw_one, bind, lift, item.
  destruct (nth_error l idx) as [[p dt] |]; [| reflexivity].
  unfold Image_open, cell_at, size_on_disk. cbn [fst snd].
  destruct (lookup p (files w)) as [r |] eqn:Hr; [| reflexivity].
  cbn [fst snd].
  set (img := thumbnail (220, 220) (mkpil p (snd (shape r)) (fst (shape r)))).
  assert (Hf : filename img = p) by apply thumbnail_filename.
  rewrite Hf. clearbody img.
  unfold cell_code, x_pos, y_pos, ret, emit.
  cbn [label label_x label_y image_file image_x image_y image_w image_h pages code].
  destruct (Z.of_nat idx mod 2 =? 0); rewrite <- app_assoc; cbn [app].
  - replace (780 - (65 * Z.of_nat idx + 100)) with (780 - 65 * Z.of_nat idx - 100)
      by lia.
    reflexivity.
  - replace (780 - (65 * (Z.of_nat idx - 1) + 100))
      with (780 - 65 * (Z.of_nat idx - 1) - 100) by lia.
    reflexivity.
Qed.

Lemma draw_one_ok l idx c w c' w' :
  draw_one l idx c w = (Ok c', w') ->
  exists e, nth_error l idx = Some e /\ on_disk (files w) e /\ w' = w
            /\ pages c' = pages c
            /\ code c' = (code c ++ cell_code (cell_at (files w) idx e))%list.
Proof.
  rewrite draw_one_eq. unfold on_disk.
  destruct (nth_error l idx) as [e |]; [| discriminate].
  destruct (lookup (fst e) (files w)) eqn:Hr; [| discriminate].
  intros H. exists e. rewrite Hr.
  remember (cell_code (cell_at (files w) idx e)) as ops.
  inversion H; subst. repeat split; try reflexivity; discriminate.
Qed.

Lemma draw_loop_ok l2 : forall l1 c w c' w',
  for_each (List.seq (List.length l1) (List.length l2)) (draw_one (l1 ++ l2)) c w
    = (Ok c', w') ->
  w' = w /\ pages c' = pages c /\ Forall (on_disk (files w)) l2
  /\ code c' = (code c ++ flat_map (fun ie => cell_code (cell_at (files w) (fst ie) (snd ie)))
                                   (enumerate (List.length l1) l2))%list.
Proof.
  induction l2 as [| e l2 IH]; intros l1 c w c' w' H.
  - cbn in H. inversion H; subst. cbn. rewrite app_nil_r. auto.
  - cbn [List.length List.seq for_each] in H. apply bind_ok in H.
    destruct H as (c1 & w1 & H1 & H2).
    apply draw_one_ok in H1. destruct H1 as (e' & Hn & Hd & -> & Hp & Hc).
    rewrite nth_error_app2, Nat.sub_diag in Hn by lia. cbn in Hn.
    inversion Hn; subst e'.
    replace (l1 ++ e :: l2)%list with ((l1 ++ [e]) ++ l2)%list in H2
      by (rewrite <- app_assoc; reflexivity).
    replace (S (List.length l1)) with (List.length (l1 ++ [e])) in H2
      by (rewrite length_app; cbn; lia).
    apply IH in H2. destruct H2 as (-> & Hp2 & Hall & Hc2).
    repeat split; try congruence.
    + constructor; assumption.
    + rewrite Hc2, Hc. rewrite length_app. cbn [List.length].
      replace (List.length l1 + 1)%nat with (S (List.length l1)) by lia.
      cbn [enumerate flat_map fst snd]. rewrite <- !app_assoc. reflexivity.
Qed.

Lemma page_one_ok il idl i c w c' w' :
  page_one il idl i c w = (Ok c', w') ->
  exists m, page_members il idl i = Ok m /\ Forall (on_disk (files w)) m /\ w' = w
    /\ (if (0 <? i)%nat
        then pages c' = (pages c ++ [code c])%list /\ code c' = page_body (files w) i m
        else pages c' = pages c
             /\ code c' = (code c ++ page_body (files w) i m)%list).
Proof.
  unfold page_one. intros H. apply bind_ok in H.
  destruct H as (m & w1 & H1 & H2). unfold lift in H1.
  inversion H1; subst w1. exists m. split; [assumption |].
  apply (draw_loop_ok m []) in H2. destruct H2 as (-> & Hp & Hall & Hc).
  repeat split; try assumption.
  unfold page_body, heading. cbn [List.length] in Hc.
  destruct (0 <? i)%nat; unfold emit, showPage in *; cbn [pages code app] in *;
    split; try assumption.
  rewrite Hc. rewrite <- app_assoc. reflexivity.
Qed.
(** ** The outer loop of [create_pdf] *)


Lemma pages_loop_ok il idl k : forall a c w c' w',
  (1 <= a)%nat ->
  for_each (List.seq a k) (page_one il idl) c w = (Ok c', w') ->
  exists ms,
    Forall2 (page_of il idl (files w)) (List.seq a k) ms
    /\ w' = w
    /\ (code c <> [] -> code c' <> [])
    /\ (pages c' ++ [code c']
        = pages c ++ [code c]
          ++ map (fun im => page_body (files w) (fst im) (snd im)) (enumerate a ms))%list.
Proof.
  induction k as [| k IH]; intros a c w c' w' Ha H.
  - cbn in H. inversion H; subst. exists []. repeat split; auto.
  - cbn [List.seq for_each] in H. apply bind_ok in H.
    destruct H as (c1 & w1 & H1 & H2).
    apply page_one_ok in H1. destruct H1 as (m & Hm & Hall & -> & Hshape).
    replace (0 <? a)%nat with true in Hshape
      by (symmetry; apply Nat.ltb_lt; lia).
    destruct Hshape as [Hp Hc].
    apply IH in H2; [| lia]. destruct H2 as (ms & HF & -> & Hne & Hflow).
    exists (m :: ms). repeat split.
    + constructor; [split; assumption | assumption].
    + intros _. apply Hne. rewrite Hc. unfold page_body. discriminate.
    + rewrite Hflow, Hp, Hc. cbn [enumerate map fst snd].
      rewrite <- !app_assoc. reflexivity.
Qed.

Lemma create_pdf_ok il idl path dl w w' :
  create_pdf il idl path dl w = (Ok tt, w') ->
  exists ms,
    Forall2 (page_of il idl (files w))
            (List.seq 0 (count_distinct (map strftime_U dl))) ms
    /\ files w' = files w
    /\ output w' = Some (document (files w) ms).
Proof.
  unfold create_pdf. intros H. apply bind_ok in H.
  destruct H as (c' & w1 & H1 & H2).
  destruct (count_distinct (map strftime_U dl)) as [| k].
  - cbn in H1. inversion H1; subst. exists []. split; [constructor |].
    unfold canvas_save in H2. inversion H2; subst. split; reflexivity.
  - cbn [List.seq for_each] in H1. apply bind_ok in H1.
    destruct H1 as (c1 & w2 & H0 & H1).
    apply page_one_ok in H0. destruct H0 as (m & Hm & Hall & -> & Hp & Hc).
    cbn [emit Canvas pages code app] in Hp, Hc.
    apply pages_loop_ok in H1; [| lia].
    destruct H1 as (ms & HF & -> & Hne & Hflow).
    exists (m :: ms). split; [constructor; [split; assumption | assumption] |].
    unfold canvas_save in H2. inversion H2; subst. cbn [files output].
    split; [reflexivity |]. f_equal. unfold saved.
    destruct (code c') eqn:Hcode.
    + exfalso. apply Hne; [rewrite Hc; discriminate | reflexivity].
    + unfold showPage. cbn [pages]. rewrite Hcode, Hflow, Hp, Hc.
      reflexivity.
Qed.

(** ** The cells of a page *)

Lemma cells_cell_code c rest : cells (cell_code c ++ rest) = c :: cells rest.
Proof. destruct c. reflexivity. Qed.

Lemma cells_flat fs m : forall a,
  cells (flat_map (fun ie => cell_code (cell_at fs (fst ie) (snd ie))) (enumerate a m))
  = map (fun ie => cell_at fs (fst ie) (snd ie)) (enumerate a m).
Proof.
  induction m as [| e m IH]; intros a; [reflexivity |].
  cbn [enumerate flat_map map fst snd]. rewrite cells_cell_code, IH. reflexivity.
Qed.

Lemma cells_page_body fs i m :
  cells (page_body fs i m)
  = map (fun ie => cell_at fs (fst ie) (snd ie)) (enumerate 0 m).
Proof.
  unfold page_body. rewrite <- cells_flat. unfold heading.
  destruct m as [| e m]; reflexivity.
Qed.

Lemma nth_error_enumerate {A} (l : list A) : forall a i,
  nth_error (enumerate a l) i = option_map (fun x => ((a + i)%nat, x)) (nth_error l i).
Proof.
  induction l as [| x l IH]; intros a [| i]; cbn; try reflexivity.
  - rewrite Nat.add_0_r. reflexivity.
  - rewrite IH. replace (S a + i)%nat with (a + S i)%nat by lia. reflexivity.
Qed.

Lemma length_enumerate {A} (l : list A) : forall a,
  List.length (enumerate a l) = List.length l.
Proof. induction l; intros; cbn; auto. Qed.

(** The pages of a saved document, one by one. *)
Lemma document_page fs ms i page :
  ms <> [] ->
  nth_error (document fs ms) i = Some page ->
  exists m, nth_error ms i = Some m
    /\ cells page = map (fun ie => cell_at fs (fst ie) (snd ie)) (enumerate 0 m).
Proof.
  destruct ms as [| m0 ms]; [congruence |]. intros _.
  unfold document. destruct i as [| i]; cbn [nth_error].
  - intros H. inversion H; subst. exists m0. split; [reflexivity |].
    change (cells (SetFont "Helvetica" 12 :: page_body fs 0 m0))
      with (cells (page_body fs 0 m0)).
    apply cells_page_body.
  - rewrite nth_error_map, nth_error_enumerate.
    destruct (nth_error ms i) as [m |]; [| discriminate].
    cbn. intros H. inversion H; subst. exists m. split; [reflexivity |].
    apply cells_page_body.
Qed.

Lemma length_document fs ms : ms <> [] -> List.length (document fs ms) = List.length ms.
Proof.
  destruct ms; [congruence |]. intros _. cbn.
  rewrite length_map, length_enumerate. reflexivity.
Qed.
(** ** The members of a page *)

Section Members.
Variable p : entry -> bool.

Lemma first_filter l h :
  first (map fst (filter p l)) = Ok h ->
  exists pre x rest, l = (pre ++ x :: rest)%list /\ fst x = h /\ p x = true
                     /\ Forall (fun e => p e = false) pre.
Proof.
  induction l as [| e l IH]; cbn; [discriminate |].
  destruct (p e) eqn:He; cbn.
  - intros H. inversion H; subst. exists [], e, l. auto.
  - intros H. destruct (IH H) as (pre & x & rest & -> & Hx & Hp & Hall).
    exists (e :: pre), x, rest. auto.
Qed.

Lemma final_cons {A} (x : A) l : l <> [] -> final (x :: l) = final l.
Proof. destruct l; [congruence | reflexivity]. Qed.

Lemma final_app {A} (l1 l2 : list A) : l2 <> [] -> final (l1 ++ l2) = final l2.
Proof.
  intros H. induction l1 as [| x l1 IH]; [reflexivity |].
  cbn [app]. rewrite final_cons; [assumption |].
  destruct l1; cbn; [assumption | discriminate].
Qed.

Lemma final_filter l t :
  final (map fst (filter p l)) = Ok t ->
  exists pre y post, l = (pre ++ y :: post)%list /\ fst y = t /\ p y = true
                     /\ Forall (fun e => p e = false) post.
Proof.
  induction l as [| e l IH]; cbn [filter map final]; [discriminate |].
  destruct (p e) eqn:He.
  - cbn [map]. destruct (filter p l) as [| e' fl] eqn:Hfl.
    + cbn. intros H. inversion H; subst. exists [], e, l. repeat split; auto.
      clear - Hfl. induction l as [| a l IH]; [constructor |].
      cbn in Hfl. destruct (p a) eqn:Ha; [discriminate |]. auto.
    + rewrite final_cons by (cbn; discriminate).
      intros H. destruct (IH H) as (pre & y & post & -> & Hy & Hp & Hall).
      exists (e :: pre), y, post. auto.
  - intros H. destruct (IH H) as (pre & y & post & -> & Hy & Hp & Hall).
    exists (e :: pre), y, post. auto.
Qed.
End Members.

Lemma index_app_nodup (pre : list entry) x rest :
  NoDup (map fst (pre ++ x :: rest)) ->
  index (map fst (pre ++ x :: rest)) (fst x) = Ok (List.length pre).
Proof.
  induction pre as [| e pre IH]; cbn [app map index List.length]; intros H.
  - rewrite String.eqb_refl. reflexivity.
  - inversion H as [| k ks Hnin Hnd]; subst.
    destruct (String.eqb (fst e) (fst x)) eqn:E.
    + apply String.eqb_eq in E. exfalso. apply Hnin. rewrite E.
      rewrite map_app. apply in_or_app. right. left. reflexivity.
    + rewrite IH by assumption. reflexivity.
Qed.

Lemma slice_middle {A} (pre m post : list A) :
  slice (pre ++ m ++ post) (List.length pre) (List.length pre + List.length m) = m.
Proof.
  unfold slice. rewrite skipn_app, skipn_all, Nat.sub_diag. cbn [app skipn].
  replace (List.length pre + List.length m - List.length pre)%nat
    with (List.length m + 0)%nat by lia.
  rewrite firstn_app_2. cbn. apply app_nil_r.
Qed.

(** The members of a page are the run of the timeline from the first to the
    last entry of the week of the page. *)
Lemma page_members_run idl i m :
  NoDup (map fst idl) ->
  page_members (map fst idl) idl i = Ok m ->
  exists pre post x y,
    idl = (pre ++ m ++ post)%list
    /\ first m = Ok x /\ in_week i x = true
    /\ final m = Ok y /\ in_week i y = true
    /\ Forall (fun e => in_week i e = false) pre
    /\ Forall (fun e => in_week i e = false) post.
Proof.
  intros Hnd. unfold page_members.
  change (fun e : entry => week_index (snd e) =? Z.of_nat i + 1) with (in_week i).
  destruct (first (map fst (filter (in_week i) idl))) as [h |] eqn:Hh; [| discriminate].
  destruct (first_filter _ _ _ Hh) as (pre & x & rest & Hl & Hx & Hpx & Hpre).
  destruct (final (map fst (filter (in_week i) idl))) as [t |] eqn:Ht.
  2:{ destruct (index (map fst idl) h); discriminate. }
  destruct (final_filter _ _ _ Ht) as (pre' & y & post & Hl' & Hy & Hpy & Hpost).
  assert (Hi1 : index (map fst idl) h = Ok (List.length pre)).
  { rewrite <- Hx. rewrite Hl in *. apply index_app_nodup. assumption. }
  assert (Hi2 : index (map fst idl) t = Ok (List.length pre')).
  { rewrite <- Hy. rewrite Hl' in *. apply index_app_nodup. assumption. }
  rewrite Hi1, Hi2. intros H.
  injection H as Hm.
  assert (Heq : (pre ++ x :: rest = (pre' ++ [y]) ++ post)%list).
  { rewrite <- app_assoc. cbn. congruence. }
  apply app_eq_app in Heq. destruct Heq as (l0 & [[E1 E2] | [E1 E2]]).
  - exfalso. rewrite E1 in Hpre. rewrite !Forall_app in Hpre.
    destruct Hpre as [[_ Hy'] _]. inversion Hy'; subst. congruence.
  - destruct l0 as [| z l0].
    + exfalso. rewrite app_nil_r in E1. rewrite <- E1 in Hpre.
      rewrite Forall_app in Hpre. destruct Hpre as [_ Hy'].
      inversion Hy'; subst. congruence.
    + cbn in E2. inversion E2; subst z.
      assert (Hidl : idl = (pre ++ (x :: l0) ++ post)%list).
      { rewrite Hl'. rewrite app_assoc, <- E1.
        change (pre' ++ y :: post)%list with (pre' ++ [y] ++ post)%list.
        rewrite app_assoc. reflexivity. }
      assert (Hlen : (List.length pre' + 1 = List.length pre + List.length (x :: l0))%nat).
      { rewrite <- !length_app, <- E1. rewrite length_app. reflexivity. }
      rewrite Hlen, Hidl, slice_middle in Hm. subst m.
      exists pre, post, x, y. repeat split; auto.
      rewrite <- (final_app pre) by discriminate. rewrite <- E1.
      rewrite final_app by discriminate. reflexivity.
Qed.
(** ** The order on datetimes *)

Lemma lex_compare_refl a : lex_compare a a = Eq.
Proof. induction a as [| x a IH]; cbn; [| rewrite Z.compare_refl]; auto. Qed.

Lemma lex_compare_eq a : forall b, lex_compare a b = Eq -> a = b.
Proof.
  induction a as [| x a IH]; intros [| y b]; cbn; try discriminate; auto.
  destruct (Z.compare_spec x y); try discriminate.
  intros Hc. subst. f_equal. auto.
Qed.

Lemma lex_compare_antisym a : forall b, lex_compare b a = CompOpp (lex_compare a b).
Proof.
  induction a as [| x a IH]; intros [| y b]; cbn; auto.
  rewrite (Z.compare_antisym x y).
  destruct (x ?= y); cbn; auto.
Qed.

Lemma lex_compare_le_trans a : forall b c,
  lex_compare a b <> Gt -> lex_compare b c <> Gt -> lex_compare a c <> Gt.
Proof.
  induction a as [| x a IH]; intros [| y b] [| z c]; cbn; try congruence.
  destruct (Z.compare_spec x y), (Z.compare_spec y z), (Z.compare_spec x z);
    try congruence; try lia; subst; eauto.
Qed.

Lemma dt_ltb_irrefl a : dt_ltb a a = false.
Proof. unfold dt_ltb, dt_compare. rewrite lex_compare_refl. reflexivity. Qed.

Lemma dt_ltb_asym a b : dt_ltb a b = true -> dt_ltb b a = false.
Proof.
  unfold dt_ltb, dt_compare. rewrite (lex_compare_antisym (fields a) (fields b)).
  destruct (lex_compare (fields a) (fields b)); cbn; congruence.
Qed.

Lemma dt_le_trans a b c :
  dt_ltb b a = false -> dt_ltb c b = false -> dt_ltb c a = false.
Proof.
  unfold dt_ltb, dt_compare. intros H1 H2.
  assert (G1 : lex_compare (fields a) (fields b) <> Gt).
  { rewrite (lex_compare_antisym (fields b) (fields a)).
    destruct (lex_compare (fields b) (fields a)); cbn; congruence. }
  assert (G2 : lex_compare (fields b) (fields c) <> Gt).
  { rewrite (lex_compare_antisym (fields c) (fields b)).
    destruct (lex_compare (fields c) (fields b)); cbn; congruence. }
  pose proof (lex_compare_le_trans _ _ _ G1 G2) as G.
  rewrite (lex_compare_antisym (fields a) (fields c)).
  destruct (lex_compare (fields a) (fields c)); cbn; congruence.
Qed.

Lemma dt_eqb_eq a b : dt_eqb a b = true -> a = b.
Proof.
  unfold dt_eqb, dt_compare. intros H.
  assert (E : fields a = fields b).
  { apply lex_compare_eq. destruct (lex_compare (fields a) (fields b)); congruence. }
  destruct a, b. unfold fields in E. cbn in E. congruence.
Qed.

Lemma dt_eqb_refl a : dt_eqb a a = true.
Proof. unfold dt_eqb, dt_compare. rewrite lex_compare_refl. reflexivity. Qed.

(** ** The sort *)

Section SortFacts.
Context {A K : Type} (key : A -> K) (ltb eqb : K -> K -> bool).
Hypothesis ltb_asym : forall a b, ltb a b = true -> ltb b a = false.
Hypothesis le_trans :
  forall a b c, ltb b a = false -> ltb c b = false -> ltb c a = false.
Hypothesis lt_neq :
  forall a b k, ltb a b = true -> eqb a k = true -> eqb b k = false.


Lemma insert_perm x l : Permutation (insert key ltb x l) (x :: l).
Proof.
  induction l as [| y l IH]; cbn; [constructor; constructor |].
  destruct (ltb (key y) (key x)); [| apply Permutation_refl].
  eapply perm_trans; [apply perm_skip, IH | apply perm_swap].
Qed.

Lemma sort_perm l : Permutation (sort key ltb l) l.
Proof.
  induction l as [| x l IH]; cbn; [constructor |].
  eapply perm_trans; [apply insert_perm | apply perm_skip, IH].
Qed.

Lemma insert_sorted x l :
  StronglySorted (ascending key ltb) l -> StronglySorted (ascending key ltb) (insert key ltb x l).
Proof.
  induction l as [| y l IH]; cbn; intros Hs.
  - constructor; constructor.
  - inversion Hs as [| ? ? Hs' Hall]; subst.
    destruct (ltb (key y) (key x)) eqn:E.
    + constructor; [auto |].
      eapply Permutation_Forall; [apply Permutation_sym, insert_perm |].
      constructor; [| assumption]. unfold ascending. auto.
    + constructor; [assumption |]. constructor; [exact E |].
      eapply Forall_impl; [| exact Hall]. unfold ascending.
      intros z Hz. eapply le_trans; eauto.
Qed.

Lemma sort_sorted l : StronglySorted (ascending key ltb) (sort key ltb l).
Proof.
  induction l as [| x l IH]; cbn; [constructor | apply insert_sorted, IH].
Qed.

Lemma insert_stable k x l :
  filter (fun e => eqb (key e) k) (insert key ltb x l)
  = filter (fun e => eqb (key e) k) (x :: l).
Proof.
  induction l as [| y l IH]; [reflexivity |].
  cbn [insert]. destruct (ltb (key y) (key x)) eqn:E; [| reflexivity].
  cbn [filter] in *. rewrite IH.
  destruct (eqb (key y) k) eqn:Ey; [| reflexivity].
  rewrite (lt_neq _ _ _ E Ey). reflexivity.
Qed.

Lemma sort_stable k l :
  filter (fun e => eqb (key e) k) (sort key ltb l)
  = filter (fun e => eqb (key e) k) l.
Proof.
  induction l as [| x l IH]; [reflexivity |].
  cbn [sort fold_right]. rewrite insert_stable. cbn [filter].
  fold (sort key ltb l). rewrite IH. reflexivity.
Qed.
End SortFacts.

Section SortUnique.
Context {A K : Type} (key : A -> K) (ltb eqb : K -> K -> bool).
Hypothesis eqb_eq : forall a b, eqb a b = true <-> a = b.
Hypothesis total : forall a b, ltb a b = false -> ltb b a = false -> a = b.

Lemma same_key e : eqb (key e) (key e) = true.
Proof. apply eqb_eq. reflexivity. Qed.

(** Two ascending lists with the same entries for every key, in the same
    order, are one list: the result of a stable sort is determined. *)
Lemma sorted_stable_unique l1 : forall l2,
  StronglySorted (ascending key ltb) l1 ->
  StronglySorted (ascending key ltb) l2 ->
  (forall k, filter (fun e => eqb (key e) k) l1 = filter (fun e => eqb (key e) k) l2) ->
  l1 = l2.
Proof.
  induction l1 as [| x l1 IH]; intros [| y l2] S1 S2 H.
  - reflexivity.
  - specialize (H (key y)). cbn [filter] in H. rewrite same_key in H. discriminate.
  - specialize (H (key x)). cbn [filter] in H. rewrite same_key in H. discriminate.
  - inversion S1 as [| ? ? S1' A1]; subst. inversion S2 as [| ? ? S2' A2]; subst.
    assert (Hk : key x = key y).
    { pose proof (H (key x)) as Hx. pose proof (H (key y)) as Hy.
      cbn [filter] in Hx, Hy. rewrite same_key in Hx, Hy.
      destruct (eqb (key y) (key x)) eqn:Ey; [apply eqb_eq in Ey; auto |].
      destruct (eqb (key x) (key y)) eqn:Ex; [apply eqb_eq in Ex; auto |].
      assert (Hin_x : In x l2).
      { assert (Hin : In x (filter (fun e => eqb (key e) (key x)) l2))
          by (rewrite <- Hx; left; reflexivity).
        apply filter_In in Hin. tauto. }
      assert (Hin_y : In y l1).
      { assert (Hin : In y (filter (fun e => eqb (key e) (key y)) l1))
          by (rewrite Hy; left; reflexivity).
        apply filter_In in Hin. tauto. }
      rewrite Forall_forall in A1, A2.
      apply total; [apply (A2 x Hin_x) | apply (A1 y Hin_y)]. }
    assert (Hxy : x = y
                  /\ forall k, filter (fun e => eqb (key e) k) l1
                               = filter (fun e => eqb (key e) k) l2).
    { split.
      - specialize (H (key x)). cbn [filter] in H. rewrite same_key in H.
        assert (E : eqb (key y) (key x) = true) by (apply eqb_eq; congruence).
        rewrite E in H. congruence.
      - intros k. specialize (H k). cbn [filter] in H.
        rewrite Hk in H. destruct (eqb (key y) k); congruence. }
    destruct Hxy as (-> & Hrest). f_equal. apply IH; assumption.
Qed.
End SortUnique.

Lemma dt_ltb_total a b : dt_ltb a b = false -> dt_ltb b a = false -> a = b.
Proof.
  intros H1 H2. apply dt_eqb_eq. revert H1 H2. unfold dt_ltb, dt_eqb, dt_compare.
  rewrite (lex_compare_antisym (fields a) (fields b)).
  destruct (lex_compare (fields a) (fields b)); cbn; congruence.
Qed.

Lemma dt_eqb_iff a b : dt_eqb a b = true <-> a = b.
Proof. split; [apply dt_eqb_eq | intros ->; apply dt_eqb_refl]. Qed.

Lemma dt_lt_neq a b k : dt_ltb a b = true -> dt_eqb a k = true -> dt_eqb b k = false.
Proof.
  intros Hlt Ha. apply dt_eqb_eq in Ha. subst k.
  destruct (dt_eqb b a) eqn:E; [| reflexivity].
  apply dt_eqb_eq in E. subst b. rewrite dt_ltb_irrefl in Hlt. discriminate.
Qed.
(** ** The matcher *)


Lemma greedy_progress {A} icase c s : forall (k : option ascii -> string -> option A) res,
  Re.greedy icase c s k = Some res ->
  exists p' s', k p' s' = Some res /\ (String.length s' < String.length s)%nat.
Proof.
  induction s as [| x s IH]; cbn; intros k res H; [discriminate |].
  destruct (Re.cls_match icase c x); [| discriminate].
  destruct (Re.greedy icase c s k) as [r0 |] eqn:G.
  - inversion H; subst. destruct (IH _ _ G) as (p' & s' & Hk & Hlt).
    exists p', s'. split; [assumption | lia].
  - exists (Some x), s. split; [assumption | lia].
Qed.

Lemma rmatch_progress {A} icase r :
  forall prev s env (k : option ascii -> string -> Re.captures -> option A) res,
  Re.rmatch icase r prev s env k = Some res ->
  exists p' s' e', k p' s' e' = Some res
    /\ (String.length s' <= String.length s)%nat
    /\ (nullable r = false -> (String.length s' < String.length s)%nat).
Proof.
  induction r as [| c | a IHa b IHb | a IHa b IHb | a IHa | c | n a IHa |];
    intros prev s env k res H; cbn [Re.rmatch nullable] in *.
  - exists prev, s, env. repeat split; auto. discriminate.
  - destruct s as [| x s]; [discriminate |].
    destruct (Re.cls_match icase c x); [| discriminate].
    exists (Some x), s, env. cbn. repeat split; auto.
  - apply IHa in H. destruct H as (p1 & s1 & e1 & H & Hle1 & Hlt1).
    apply IHb in H. destruct H as (p2 & s2 & e2 & H & Hle2 & Hlt2).
    exists p2, s2, e2. repeat split; [assumption | lia |].
    intros Hn. apply andb_false_iff in Hn. destruct Hn as [Hn | Hn].
    + specialize (Hlt1 Hn). lia.
    + specialize (Hlt2 Hn). lia.
  - destruct (Re.rmatch icase a prev s env k) as [r0 |] eqn:Ea.
    + inversion H; subst. apply IHa in Ea.
      destruct Ea as (p1 & s1 & e1 & Hk & Hle & Hlt).
      exists p1, s1, e1. repeat split; auto.
      intros Hn. apply orb_false_iff in Hn. apply Hlt, Hn.
    + apply IHb in H. destruct H as (p1 & s1 & e1 & Hk & Hle & Hlt).
      exists p1, s1, e1. repeat split; auto.
      intros Hn. apply orb_false_iff in Hn. apply Hlt, Hn.
  - destruct (Re.rmatch icase a prev s env k) as [r0 |] eqn:Ea.
    + inversion H; subst. apply IHa in Ea.
      destruct Ea as (p1 & s1 & e1 & Hk & Hle & _).
      exists p1, s1, e1. repeat split; auto. discriminate.
    + exists prev, s, env. repeat split; auto. discriminate.
  - apply greedy_progress in H. destruct H as (p1 & s1 & Hk & Hlt).
    exists p1, s1, env. repeat split; auto. lia.
  - apply IHa in H. destruct H as (p1 & s1 & e1 & Hk & Hle & Hlt).
    exists p1, s1, ((n, Re.consumed s s1) :: e1). repeat split; auto.
  - destruct (xorb _ _); [| discriminate].
    exists prev, s, env. repeat split; auto. discriminate.
Qed.

Lemma match_here_progress icase r prev s p' rest env :
  Re.match_here icase r prev s = Some (p', rest, env) ->
  nullable r = false ->
  (String.length rest < String.length s)%nat.
Proof.
  unfold Re.match_here. intros H Hn. apply rmatch_progress in H.
  destruct H as (p1 & s1 & e1 & Hk & _ & Hlt). inversion Hk; subst. auto.
Qed.

Lemma consumed_nonempty s rest :
  (String.length rest < String.length s)%nat -> Re.consumed s rest <> EmptyString.
Proof.
  unfold Re.consumed. intros H.
  destruct s as [| x s]; [cbn in H; lia |].
  destruct (String.length (String x s) - String.length rest)%nat eqn:E; [lia |].
  cbn. discriminate.
Qed.

Lemma search_from_nonempty r s : forall prev pos pos' m,
  nullable r = false ->
  Re.search_from r prev s pos = Some (pos', m) -> m <> EmptyString.
Proof.
  induction s as [| x s IH]; intros prev pos pos' m Hn; cbn [Re.search_from].
  - destruct (Re.match_here false r prev "") as [[[p' rest] env] |] eqn:E;
      [| discriminate].
    intros H. inversion H; subst. apply consumed_nonempty.
    eapply match_here_progress; eauto.
  - destruct (Re.match_here false r prev (String x s)) as [[[p' rest] env] |] eqn:E.
    + intros H. inversion H; subst. apply consumed_nonempty.
      eapply match_here_progress; eauto.
    + apply IH. assumption.
Qed.

(** The first text that [findall] gives is the match of [search]. *)
Lemma findall_from_head r s : forall fuel prev pos,
  (String.length s < fuel)%nat ->
  hd_error (Re.findall_from fuel r prev s)
  = option_map snd (Re.search_from r prev s pos).
Proof.
  induction s as [| x s IH]; intros [| fuel] prev pos Hf; cbn in Hf; try lia;
    cbn [Re.findall_from Re.search_from].
  - destruct (Re.match_here false r prev "") as [[[p' rest] env] |]; [| reflexivity].
    destruct (Re.consumed "" rest); reflexivity.
  - destruct (Re.match_here false r prev (String x s)) as [[[p' rest] env] |].
    + destruct (Re.consumed (String x s) rest); reflexivity.
    + apply IH. lia.
Qed.

Lemma findall_head r s :
  hd_error (Re.findall r s) = option_map snd (Re.search r s).
Proof. unfold Re.findall, Re.search. apply findall_from_head. lia. Qed.

Lemma date_time_regex_not_nullable : nullable date_time_regex = false.
Proof. reflexivity. Qed.
(** ** The loop of [crop_img_n_get_date] *)

Lemma lookup_store_same {V} k (v : V) l : lookup k (store k v l) = Some v.
Proof.
  induction l as [| [k' v'] l IH]; cbn.
  - rewrite String.eqb_refl. reflexivity.
  - destruct (String.eqb k' k) eqn:E; cbn; [rewrite String.eqb_refl | rewrite E]; auto.
Qed.

Lemma lookup_store_other {V} k q (v : V) l :
  q <> k -> lookup q (store k v l) = lookup q l.
Proof.
  intros Hne. induction l as [| [k' v'] l IH]; cbn.
  - destruct (String.eqb k q) eqn:E; [apply String.eqb_eq in E; congruence | reflexivity].
  - destruct (String.eqb k' k) eqn:E; cbn.
    + apply String.eqb_eq in E. subst k'.
      destruct (String.eqb k q) eqn:E'; [apply String.eqb_eq in E'; congruence | reflexivity].
    + rewrite IH. reflexivity.
Qed.

Lemma lookup_in_keys {V} k (l : list (string * V)) v :
  lookup k l = Some v -> In k (map fst l).
Proof.
  induction l as [| [k' v'] l IH]; cbn; [discriminate |].
  destruct (String.eqb k' k) eqn:E; [apply String.eqb_eq in E; auto | auto].
Qed.

Section CropFacts.
Variable ocr : raster -> string.
Variables drx erx : Re.regex.

(** What one iteration does when it completes. *)
Lemma crop_one_ok path acc w acc' w' :
  crop_one ocr drx erx path acc w = (Ok acc', w') ->
  exists img pos m end_,
    lookup path (files w) = Some img
    /\ Re.search drx (ocr img) = Some (pos, m)
    /\ search_start erx (ocr img) = Ok end_
    /\ is_empty (crop img (Z.of_nat pos) end_) = false
    /\ w' = mkworld (store path (Resized (crop img (Z.of_nat pos) end_) 700 300)
                           (files w)) (output w)
    /\ match m with
       | EmptyString => acc' = acc
       | String _ _ =>
           exists d, parse_datetime m = Ok d /\ acc' = (acc ++ [(path, d)])%list
       end.
Proof.
  unfold crop_one, bind, cv2_imread, lift, cv2_imwrite, ret, cv2_resize.
  destruct (lookup path (files w)) as [img |]; [| discriminate].
  pose proof (findall_head drx (ocr img)) as Hh.
  unfold search_start at 1.
  destruct (Re.search drx (ocr img)) as [[pos m] |] eqn:Es.
  - destruct (Re.findall drx (ocr img)) as [| m' ms]; [discriminate |].
    cbn in Hh. inversion Hh; subst m'.
    destruct (search_start erx (ocr img)) as [end_ | e] eqn:He.
    + destruct m as [| c m].
      * destruct (is_empty (crop img (Z.of_nat pos) end_)) eqn:Ee; [discriminate |].
        intros H. inversion H; subst.
        exists img, pos, "", end_. repeat split; auto.
      * destruct (parse_datetime (String c m)) as [d | e] eqn:Ep; [| discriminate].
        destruct (is_empty (crop img (Z.of_nat pos) end_)) eqn:Ee; [discriminate |].
        intros H. inversion H; subst.
        exists img, pos, (String c m), end_. repeat split; auto.
        exists d. auto.
    + destruct m as [| c m]; [discriminate |].
      destruct (parse_datetime (String c m)); discriminate.
  - destruct (Re.findall drx (ocr img)) as [| m' ms]; [| discriminate].
    discriminate.
Qed.

(** An iteration that raises leaves the world as it was. *)
Lemma crop_one_raise path acc w e w' :
  crop_one ocr drx erx path acc w = (Raise e, w') -> w' = w.
Proof.
  unfold crop_one, bind, cv2_imread, lift, cv2_imwrite, ret, cv2_resize.
  destruct (lookup path (files w)) as [img |]; [| intros H; inversion H; auto].
  destruct (Re.findall drx (ocr img)) as [| [| c m] ms];
    try destruct (parse_datetime (String c m));
    destruct (search_start drx (ocr img));
    destruct (search_start erx (ocr img));
    try destruct (is_empty _);
    intros H; inversion H; auto.
Qed.


Lemma crop_one_offending path acc w img :
  lookup path (files w) = Some img ->
  offending drx erx (ocr img) ->
  exists e, crop_one ocr drx erx path acc w = (Raise e, w).
Proof.
  intros Hl Hoff.
  destruct (crop_one ocr drx erx path acc w) as [[acc' | e] w'] eqn:E.
  - exfalso. apply crop_one_ok in E.
    destruct E as (img' & pos & m & end_ & Hl' & Hs & He & _ & _ & Hm).
    rewrite Hl in Hl'. inversion Hl'; subst img'.
    destruct Hoff as [Hn | [Hn | (pos' & c & m' & Hs' & H1 & H2 & H3)]].
    + congruence.
    + unfold search_start in He. rewrite Hn in He. discriminate.
    + rewrite Hs in Hs'. inversion Hs'; subst.
      destruct Hm as (d & Hd & _). unfold parse_datetime in Hd.
      rewrite H1, H2, H3 in Hd. discriminate.
  - exists e. apply crop_one_raise in E. subst. reflexivity.
Qed.

(** The run stops at the first offending image at the latest: the loop
    raises, nothing is saved, and the image is as it was. *)
Lemma crop_loop_offending path img listing : forall acc w,
  In path listing ->
  lookup path (files w) = Some img ->
  offending drx erx (ocr img) ->
  exists e w', for_each listing (crop_one ocr drx erx) acc w = (Raise e, w')
               /\ output w' = output w
               /\ lookup path (files w') = Some img.
Proof.
  induction listing as [| x listing IH]; intros acc w Hin Hl Hoff; [destruct Hin |].
  cbn [for_each]. unfold bind.
  destruct (string_dec x path) as [-> | Hne].
  - destruct (crop_one_offending path acc w img Hl Hoff) as (e & ->).
    exists e, w. auto.
  - destruct (crop_one ocr drx erx x acc w) as [[acc' | e] w1] eqn:E.
    + apply crop_one_ok in E.
      destruct E as (img' & pos & m & end_ & _ & _ & _ & _ & -> & _).
      destruct Hin as [-> | Hin]; [congruence |].
      destruct (IH acc'
                  (mkworld (store x (Resized (crop img' (Z.of_nat pos) end_) 700 300)
                                  (files w)) (output w)) Hin)
        as (e & w' & Hr & Ho & Hf); auto.
      * cbn [files]. rewrite lookup_store_other by congruence. assumption.
      * exists e, w'. auto.
    + apply crop_one_raise in E. subst w1. exists e, w. auto.
Qed.
End CropFacts.

Section CropStops.
Variable ocr : raster -> string.
Variables drx erx : Re.regex.

(** When the loop raises it has stopped at an image of the listing: the
    images before it were cropped, and every other file is as it was. *)
Lemma crop_loop_stops listing : forall acc w e w',
  for_each listing (crop_one ocr drx erx) acc w = (Raise e, w') ->
  exists done x todo,
    listing = (done ++ x :: todo)%list
    /\ output w' = output w
    /\ forall p, ~ In p done -> lookup p (files w') = lookup p (files w).
Proof.
  induction listing as [| x listing IH]; intros acc w e w' H.
  - cbn in H. discriminate.
  - cbn [for_each] in H. unfold bind in H.
    destruct (crop_one ocr drx erx x acc w) as [[acc1 | e1] w1] eqn:E.
    + apply crop_one_ok in E.
      destruct E as (img & pos & m & end_ & _ & _ & _ & _ & -> & _).
      apply IH in H. destruct H as (done & x' & todo & -> & Hout & Hfiles).
      exists (x :: done), x', todo. repeat split; auto.
      intros p Hp. rewrite Hfiles by (intros Hin; apply Hp; right; exact Hin).
      cbn [files]. apply lookup_store_other. intros ->. apply Hp. left. reflexivity.
    + apply crop_one_raise in E. inversion H; subst.
      exists [], x, listing. repeat split; auto.
Qed.
End CropStops.

(** Saving the pages of the PDF touches no output file. *)
Lemma get_img_from_pdf_output pdf dir path w w' :
  get_img_from_pdf pdf dir path w = (Ok tt, w') -> output w' = output w.
Proof.
  unfold get_img_from_pdf. generalize (enumerate 0 (pdf path)). intros l.
  generalize tt at 1. revert w.
  induction l as [| [idx image] l IH]; intros w u H.
  - cbn in H. inversion H. reflexivity.
  - cbn [for_each] in H. apply bind_ok in H. destruct H as (u' & w1 & H1 & H2).
    unfold image_save in H1. inversion H1; subst.
    apply IH in H2. exact H2.
Qed.

(** ** What the crop step leaves for the layout *)


Lemma normalized_store_same fs path src :
  normalized (store path (Resized src 700 300) fs) path.
Proof.
  unfold normalized, size_on_disk. rewrite lookup_store_same. reflexivity.
Qed.

Lemma normalized_store fs path q src :
  normalized fs q -> normalized (store path (Resized src 700 300) fs) q.
Proof.
  intros H. destruct (string_dec q path) as [-> | Hne].
  - apply normalized_store_same.
  - unfold normalized, size_on_disk in *. rewrite lookup_store_other; assumption.
Qed.

Section CropResult.
Variable ocr : raster -> string.
Variables drx erx : Re.regex.

Lemma crop_loop_ok listing : forall acc w acc' w',
  for_each listing (crop_one ocr drx erx) acc w = (Ok acc', w') ->
  Forall (fun e => normalized (files w) (fst e)) acc ->
  Forall (fun e => normalized (files w') (fst e)) acc' /\ output w' = output w.
Proof.
  induction listing as [| x listing IH]; intros acc w acc' w' H Hn.
  - cbn in H. inversion H; subst. auto.
  - cbn [for_each] in H. apply bind_ok in H. destruct H as (acc1 & w1 & H1 & H2).
    apply crop_one_ok in H1.
    destruct H1 as (img & pos & m & end_ & _ & _ & _ & _ & -> & Hacc).
    apply IH in H2; [exact H2 |]. cbn [files].
    assert (Hold : Forall (fun e : entry =>
              normalized (store x (Resized (crop img (Z.of_nat pos) end_) 700 300)
                                (files w)) (fst e)) acc).
    { eapply Forall_impl; [| exact Hn]. intros e He. apply normalized_store, He. }
    destruct m as [| c m].
    + subst acc1. assumption.
    + destruct Hacc as (d & _ & ->). apply Forall_app. split; [assumption |].
      constructor; [apply normalized_store_same | constructor].
Qed.

(** A directory lists a file once, so the timeline has a path once. *)
Lemma crop_loop_nodup listing : forall acc w acc' w',
  for_each listing (crop_one ocr drx erx) acc w = (Ok acc', w') ->
  NoDup (map fst acc ++ listing) ->
  NoDup (map fst acc').
Proof.
  induction listing as [| x listing IH]; intros acc w acc' w' H Hnd.
  - cbn in H. inversion H; subst. rewrite app_nil_r in Hnd. auto.
  - cbn [for_each] in H. apply bind_ok in H. destruct H as (acc1 & w1 & H1 & H2).
    apply crop_one_ok in H1.
    destruct H1 as (img & pos & m & end_ & _ & _ & _ & _ & _ & Hacc).
    apply IH in H2; [exact H2 |].
    destruct m as [| c m].
    + subst acc1. apply NoDup_remove_1 in Hnd. assumption.
    + destruct Hacc as (d & _ & ->). rewrite map_app. cbn [map fst].
      rewrite <- app_assoc. exact Hnd.
Qed.

Lemma crop_img_n_get_date_ok w idl il dl w' :
  crop_img_n_get_date ocr drx erx w = (Ok (idl, il, dl), w') ->
  il = map fst idl /\ dl = map snd idl
  /\ Forall (fun e => normalized (files w') (fst e)) idl
  /\ StronglySorted (ascending snd dt_ltb) idl
  /\ (NoDup (map fst (files w)) -> NoDup il)
  /\ output w' = output w.
Proof.
  unfold crop_img_n_get_date. intros H.
  apply bind_ok in H. destruct H as (listing & w0 & Hl & H).
  unfold listdir in Hl. inversion Hl; subst listing w0. clear Hl.
  apply bind_ok in H. destruct H as (acc & w1 & Hloop & H).
  unfold ret in H. inversion H; subst. clear H.
  pose proof (crop_loop_ok _ _ _ _ _ Hloop (Forall_nil _)) as (Hnorm & Hout).
  repeat split; auto.
  - eapply Permutation_Forall; [| exact Hnorm].
    apply Permutation_sym, sort_perm.
  - apply sort_sorted; [apply dt_ltb_asym | apply dt_le_trans].
  - intros Hnd. apply crop_loop_nodup in Hloop; [| exact Hnd].
    eapply Permutation_NoDup; [| exact Hloop].
    apply Permutation_map, Permutation_sym, sort_perm.
Qed.
End CropResult.

(** ** The calendar *)

Lemma count_distinct_nonempty l : l <> [] -> (1 <= count_distinct l)%nat.
Proof.
  destruct l as [| x l]; [congruence |]. intros _. unfold count_distinct.
  assert (Hin : In x (nodup string_dec (x :: l))) by (apply nodup_In; left; reflexivity).
  destruct (nodup string_dec (x :: l)); [destruct Hin | cbn; lia].
Qed.

(** A week after a day of January, in the same year, ["%U"] is one more. *)
Lemma week_of_year_feb1 y h1 mi1 s1 h2 mi2 s2 :
  week_of_year (mkdt y 2 1 h2 mi2 s2) = week_of_year (mkdt y 1 25 h1 mi1 s1) + 1.
Proof.
  unfold week_of_year, tm_wday, weekday, toordinal, tm_yday, ymd2ord, days_before_month.
  cbn [year month day]. change (nth (Z.to_nat 2) DAYS_BEFORE_MONTH 0) with 31.
  change (nth (Z.to_nat 1) DAYS_BEFORE_MONTH 0) with 0.
  change (2 <? 2) with false. change (2 <? 1) with false. cbn [andb].
  replace (days_before_year y + (31 + 0) + 1 + 6)
    with (days_before_year y + (0 + 0) + 25 + 6 + 1 * 7) by lia.
  rewrite Z.mod_add by lia.
  set (W := ((days_before_year y + (0 + 0) + 25 + 6) mod 7 + 1) mod 7).
  replace (31 + 0 + 1 - 1 + 7 - W) with (0 + 0 + 25 - 1 + 7 - W + 1 * 7) by lia.
  rewrite Z.div_add by lia. reflexivity.
Qed.

Lemma week_of_year_jan25 y h mi s :
  3 <= week_of_year (mkdt y 1 25 h mi s) <= 4.
Proof.
  unfold week_of_year, tm_yday, days_before_month. cbn [year month day].
  change (nth (Z.to_nat 1) DAYS_BEFORE_MONTH 0) with 0.
  change (2 <? 1) with false. cbn [andb].
  assert (HW : 0 <= tm_wday (mkdt y 1 25 h mi s) < 7)
    by (unfold tm_wday; apply Z.mod_pos_bound; lia).
  set (W := tm_wday (mkdt y 1 25 h mi s)) in *. clearbody W.
  split.
  - apply Z.div_le_lower_bound; lia.
  - apply Z.lt_succ_r. apply Z.div_lt_upper_bound; lia.
Qed.

Lemma strftime_U_feb1 y h1 mi1 s1 h2 mi2 s2 :
  strftime_U (mkdt y 1 25 h1 mi1 s1) <> strftime_U (mkdt y 2 1 h2 mi2 s2).
Proof.
  unfold strftime_U. rewrite (week_of_year_feb1 y h1 mi1 s1 h2 mi2 s2).
  pose proof (week_of_year_jan25 y h1 mi1 s1) as H.
  assert (E : week_of_year (mkdt y 1 25 h1 mi1 s1) = 3
              \/ week_of_year (mkdt y 1 25 h1 mi1 s1) = 4) by lia.
  destruct E as [-> | ->]; vm_compute; discriminate.
Qed.

(** ** Facts for the claims *)

Lemma pages_length il idl fs n ms :
  Forall2 (page_of il idl fs) (List.seq 0 n) ms -> List.length ms = n.
Proof.
  intros H. apply Forall2_length in H. rewrite length_seq in H. auto.
Qed.

Lemma cell_at_position fs idx e :
  label_x (cell_at fs idx e) = 50 + 300 * (Z.of_nat idx mod 2)
  /\ label_y (cell_at fs idx e) = 780 - 130 * (Z.of_nat idx / 2)
  /\ image_x (cell_at fs idx e) = label_x (cell_at fs idx e)
  /\ image_y (cell_at fs idx e) = label_y (cell_at fs idx e) - 100.
Proof.
  unfold cell_at. cbn [label_x label_y image_x image_y].
  pose proof (Z.div_mod (Z.of_nat idx) 2 ltac:(lia)) as Hdm.
  pose proof (Z.mod_pos_bound (Z.of_nat idx) 2 ltac:(lia)) as Hb.
  destruct (Z.of_nat idx mod 2 =? 0) eqn:E.
  - apply Z.eqb_eq in E. repeat split; lia.
  - apply Z.eqb_neq in E. repeat split; lia.
Qed.

(** The cells of the pages of a saved document are the cells of the members
    of the pages. *)
Lemma document_cells fs ms page idx c :
  In page (document fs ms) ->
  nth_error (cells page) idx = Some c ->
  exists m e, In m ms /\ nth_error m idx = Some e /\ c = cell_at fs idx e.
Proof.
  intros Hin Hc. apply In_nth_error in Hin. destruct Hin as (i & Hi).
  destruct ms as [| m0 ms'] eqn:Hms.
  - cbn in Hi. destruct i as [| [| i]]; cbn in Hi; try discriminate.
    inversion Hi; subst page. cbn in Hc. destruct idx; discriminate.
  - rewrite <- Hms in *. apply document_page in Hi; [| congruence].
    destruct Hi as (m & Hm & Hcells). rewrite Hcells in Hc.
    rewrite nth_error_map, nth_error_enumerate in Hc.
    destruct (nth_error m idx) as [e |] eqn:He; [| discriminate].
    cbn in Hc. inversion Hc; subst c.
    exists m, e. repeat split; auto. eapply nth_error_In; eauto.
Qed.

(** The only error of [strptime] is ValueError. *)
Lemma strptime_raise s fmt e : strptime s fmt = Raise e -> e = ValueError.
Proof.
  unfold strptime.
  repeat match goal with
         | |- context [match ?x with _ => _ end] => destruct x
         end; congruence.
Qed.

Lemma in_week_true i e : in_week i e = true <-> week_index (snd e) = Z.of_nat i + 1.
Proof. unfold in_week. apply Z.eqb_eq. Qed.

Lemma in_week_false i e : in_week i e = false <-> week_index (snd e) <> Z.of_nat i + 1.
Proof. unfold in_week. apply Z.eqb_neq. Qed.

Lemma Forall2_nth_error {A B} (R : A -> B -> Prop) l1 l2 i y :
  Forall2 R l1 l2 -> nth_error l2 i = Some y ->
  exists x, nth_error l1 i = Some x /\ R x y.
Proof.
  intros H. revert i. induction H as [| a b l1 l2 Hab _ IH]; intros [| i] Hi;
    cbn in *; try discriminate.
  - inversion Hi; subst. eauto.
  - auto.
Qed.

Lemma nth_error_seq_0 n i x : nth_error (List.seq 0 n) i = Some x -> x = i.
Proof.
  intros H. assert (Hlt : (i < List.length (List.seq 0 n))%nat)
    by (apply nth_error_Some; congruence).
  rewrite length_seq in Hlt.
  apply nth_error_nth with (d := 0%nat) in H.
  rewrite seq_nth in H by assumption. cbn in H. congruence.
Qed.

Lemma clamp_index_bounds n i : 0 <= n -> 0 <= clamp_index n i <= n.
Proof.
  unfold clamp_index. intros Hn. destruct (i <? 0) eqn:E; [lia |].
  apply Z.ltb_ge in E. lia.
Qed.

Lemma shape_crop img start end_ :
  exists lo hi,
    crop img start end_ = RowSlice img lo hi
    /\ shape (crop img start end_) = (slice_len (fst (shape img)) lo hi, snd (shape img)).
Proof.
  unfold crop.
  destruct (start <? 5); [| destruct ((10 <? start) && (start <? 45));
                             [| destruct (50 <=? start)]];
    eexists; eexists; split; reflexivity.
Qed.

Lemma in_firstn {A} (x : A) n : forall l, In x (firstn n l) -> In x l.
Proof.
  induction n as [| n IH]; intros [| y l]; cbn; try tauto.
  intros [H | H]; auto.
Qed.

Lemma slice_incl {A} (l : list A) a b x : In x (slice l a b) -> In x l.
Proof.
  unfold slice. intros H. apply in_firstn in H.
  rewrite <- (firstn_skipn a l). apply in_or_app. right. exact H.
Qed.

Lemma page_members_incl il idl i m e :
  page_members il idl i = Ok m -> In e m -> In e idl.
Proof.
  unfold page_members.
  destruct (first _); [| discriminate].
  destruct (index il a); [| discriminate].
  destruct (final _); [| discriminate].
  destruct (index il a1); [| discriminate].
  intros H. inversion H; subst. apply slice_incl.
Qed.

(** ** When [create_pdf] completes *)

Lemma for_each_app {A S} (body : A -> S -> M S) l1 : forall l2 s w,
  for_each (l1 ++ l2) body s w
  = (s' <- for_each l1 body s ;; for_each l2 body s') w.
Proof.
  induction l1 as [| x l1 IH]; intros l2 s w.
  - reflexivity.
  - cbn [app for_each]. unfold bind.
    destruct (body x s w) as [[s1 | e] w1]; [| reflexivity].
    rewrite IH. reflexivity.
Qed.


Lemma index_in l x : In x l -> exists n, index l x = Ok n.
Proof.
  induction l as [| y l IH]; [intros [] |]. intros H. cbn.
  destruct (String.eqb y x) eqn:E; [eauto |].
  destruct H as [-> | H]; [rewrite String.eqb_refl in E; discriminate |].
  destruct (IH H) as (n & ->). eauto.
Qed.

Lemma first_in {A} (l : list A) : l <> [] -> exists x, first l = Ok x /\ In x l.
Proof. destruct l as [| x l]; [congruence |]. intros _. exists x. cbn. auto. Qed.

Lemma final_in {A} (l : list A) : l <> [] -> exists x, final l = Ok x /\ In x l.
Proof.
  induction l as [| x l IH]; [congruence |]. intros _.
  destruct l as [| y l]; [exists x; cbn; auto |].
  destruct IH as (z & Hz & Hin); [discriminate |].
  exists z. split; [exact Hz | right; exact Hin].
Qed.

(** A week with an entry has its page members. *)
Lemma page_members_total idl i e :
  In e idl -> in_week i e = true ->
  exists m, page_members (map fst idl) idl i = Ok m.
Proof.
  intros Hin Hw. unfold page_members.
  change (fun e : entry => week_index (snd e) =? Z.of_nat i + 1) with (in_week i).
  assert (Hne : map fst (filter (in_week i) idl) <> []).
  { assert (Hf : In e (filter (in_week i) idl)) by (apply filter_In; auto).
    destruct (filter (in_week i) idl); [destruct Hf | discriminate]. }
  assert (Hsub : forall p, In p (map fst (filter (in_week i) idl)) -> In p (map fst idl)).
  { intros p Hp. apply in_map_iff in Hp. destruct Hp as (x & <- & Hx).
    apply filter_In in Hx. apply in_map. tauto. }
  destruct (first_in _ Hne) as (h & -> & Hh).
  destruct (index_in _ _ (Hsub _ Hh)) as (a & ->).
  destruct (final_in _ Hne) as (t & -> & Ht).
  destruct (index_in _ _ (Hsub _ Ht)) as (b & ->).
  eauto.
Qed.

Lemma draw_loop_total l2 : forall l1 c w,
  Forall (on_disk (files w)) l2 ->
  exists c',
    for_each (List.seq (List.length l1) (List.length l2)) (draw_one (l1 ++ l2)) c w
    = (Ok c', w).
Proof.
  induction l2 as [| e l2 IH]; intros l1 c w Hall.
  - exists c. reflexivity.
  - inversion Hall as [| ? ? He Hall']; subst.
    cbn [List.length List.seq for_each].
    assert (H1 : exists c1, draw_one (l1 ++ e :: l2) (List.length l1) c w = (Ok c1, w)).
    { rewrite draw_one_eq. rewrite nth_error_app2, Nat.sub_diag by lia.
      cbn [nth_error]. unfold on_disk in He.
      destruct (lookup (fst e) (files w)); [eauto | congruence]. }
    destruct H1 as (c1 & H1). rewrite (bind_step _ _ _ _ _ H1).
    replace (l1 ++ e :: l2)%list with ((l1 ++ [e]) ++ l2)%list
      by (rewrite <- app_assoc; reflexivity).
    replace (S (List.length l1)) with (List.length (l1 ++ [e]))
      by (rewrite length_app; cbn; lia).
    apply IH. assumption.
Qed.

Lemma page_one_total il idl i m c w :
  page_members il idl i = Ok m ->
  Forall (on_disk (files w)) m ->
  exists c', page_one il idl i c w = (Ok c', w).
Proof.
  intros Hm Hall. unfold page_one, lift. rewrite Hm. unfold bind at 1.
  apply (draw_loop_total m [] _ w Hall).
Qed.

Lemma pages_loop_total il idl w k : forall a c,
  (forall i, (a <= i < a + k)%nat ->
             exists m, page_members il idl i = Ok m /\ Forall (on_disk (files w)) m) ->
  exists c', for_each (List.seq a k) (page_one il idl) c w = (Ok c', w).
Proof.
  induction k as [| k IH]; intros a c H.
  - exists c. reflexivity.
  - cbn [List.seq for_each].
    destruct (H a ltac:(lia)) as (m & Hm & Hall).
    destruct (page_one_total _ _ _ _ c w Hm Hall) as (c1 & H1).
    rewrite (bind_step _ _ _ _ _ H1). apply IH.
    intros i Hi. apply H. lia.
Qed.

(** [create_pdf] completes when every page up to the number of calendar
    weeks has an entry of its week index and the images are on disk. *)
Lemma create_pdf_total idl path dl w :
  (forall i, (i < count_distinct (map strftime_U dl))%nat ->
             exists e, In e idl /\ week_index (snd e) = Z.of_nat i + 1) ->
  Forall (on_disk (files w)) idl ->
  exists doc,
    create_pdf (map fst idl) idl path dl w = (Ok tt, mkworld (files w) (Some doc)).
Proof.
  intros Hweeks Hdisk. unfold create_pdf.
  destruct (pages_loop_total (map fst idl) idl w (count_distinct (map strftime_U dl)) 0
              (emit (SetFont "Helvetica" 12) Canvas)) as (c' & Hloop).
  { intros i Hi. destruct (Hweeks i ltac:(lia)) as (e & Hin & Hw).
    destruct (page_members_total idl i e Hin (proj2 (in_week_true i e) Hw)) as (m & Hm).
    exists m. split; [exact Hm |].
    rewrite Forall_forall in *. intros x Hx. apply Hdisk.
    eapply page_members_incl; eauto. }
  rewrite (bind_step _ _ _ _ _ Hloop). unfold canvas_save. eauto.
Qed.

(** It raises IndexError when a page has none, the pages before it having
    theirs. *)
Lemma create_pdf_gap idl path dl w k :
  (k < count_distinct (map strftime_U dl))%nat ->
  (forall i, (i < k)%nat -> exists e, In e idl /\ week_index (snd e) = Z.of_nat i + 1) ->
  (forall e, In e idl -> week_index (snd e) <> Z.of_nat k + 1) ->
  Forall (on_disk (files w)) idl ->
  create_pdf (map fst idl) idl path dl w = (Raise IndexError, w).
Proof.
  intros Hk Hweeks Hgap Hdisk. unfold create_pdf.
  remember (count_distinct (map strftime_U dl)) as n.
  replace n with (k + S (n - S k))%nat by lia.
  rewrite seq_app. cbn [List.seq Nat.add].
  apply bind_raise.
  destruct (pages_loop_total (map fst idl) idl w k 0
              (emit (SetFont "Helvetica" 12) Canvas)) as (c' & Hloop).
  { intros i Hi. destruct (Hweeks i ltac:(lia)) as (e & Hin & Hw).
    destruct (page_members_total idl i e Hin (proj2 (in_week_true i e) Hw)) as (m & Hm).
    exists m. split; [exact Hm |].
    rewrite Forall_forall in *. intros x Hx. apply Hdisk.
    eapply page_members_incl; eauto. }
  rewrite for_each_app. rewrite (bind_step _ _ _ _ _ Hloop).
  cbn [for_each]. apply bind_raise.
  unfold page_one, lift. apply bind_raise.
  unfold page_members.
  change (fun e : entry => week_index (snd e) =? Z.of_nat k + 1) with (in_week k).
  replace (filter (in_week k) idl) with (@nil entry); [reflexivity |].
  symmetry. clear - Hgap. induction idl as [| e idl IH]; [reflexivity |].
  cbn. replace (in_week k e) with false
    by (symmetry; apply in_week_false, Hgap; left; reflexivity).
  apply IH. intros x Hx. apply Hgap. right. exact Hx.
Qed.

(** The first page without an entry. *)
Lemma first_gap idl k :
  (forall e : entry, In e idl -> week_index (snd e) <> Z.of_nat k + 1) ->
  exists k0, (k0 <= k)%nat
    /\ (forall e : entry, In e idl -> week_index (snd e) <> Z.of_nat k0 + 1)
    /\ (forall i, (i < k0)%nat ->
                  exists e : entry, In e idl /\ week_index (snd e) = Z.of_nat i + 1).
Proof.
  induction k as [k IH] using lt_wf_ind. intros Hgap.
  destruct (existsb (fun i => negb (existsb (in_week i) idl)) (List.seq 0 k)) eqn:E.
  - apply existsb_exists in E. destruct E as (i & Hi & Hno).
    apply in_seq in Hi. apply negb_true_iff in Hno.
    destruct (IH i ltac:(lia)) as (k0 & Hle & Hg & Hbefore).
    + intros e He. apply in_week_false.
      destruct (in_week i e) eqn:Ew; [| reflexivity].
      assert (existsb (in_week i) idl = true) by (apply existsb_exists; eauto).
      congruence.
    + exists k0. repeat split; auto. lia.
  - exists k. repeat split; auto.
    intros i Hi.
    assert (Hex : existsb (in_week i) idl = true).
    { destruct (existsb (in_week i) idl) eqn:Ei; [reflexivity |].
      assert (existsb (fun i => negb (existsb (in_week i) idl)) (List.seq 0 k) = true).
      { apply existsb_exists. exists i. split; [apply in_seq; lia |].
        rewrite Ei. reflexivity. }
      congruence. }
    apply existsb_exists in Hex. destruct Hex as (e & He & Hw).
    exists e. split; [exact He | apply in_week_true, Hw].
Qed.

(** ** The crop of one image and the order of the loop *)

(** The bounds of a slice whose ends are not negative are its ends, cut at
    the length of the axis. *)
Lemma slice_len_clamped n lo hi :
  0 <= n -> 0 <= lo -> 0 <= hi ->
  clamp_index n lo = Z.min lo n
  /\ clamp_index n hi = Z.min hi n
  /\ slice_len n lo hi = Z.max (Z.min hi n - Z.min lo n) 0.
Proof.
  intros Hn Hlo Hhi. unfold slice_len, clamp_index.
  replace (lo <? 0) with false by (symmetry; apply Z.ltb_ge; lia).
  replace (hi <? 0) with false by (symmetry; apply Z.ltb_ge; lia).
  auto.
Qed.

(** The end of an iteration of the loop whose image has a timestamp that is
    read and a terminator: the resize raises on an empty crop, and the
    resized crop is written otherwise. *)
Lemma crop_one_resize ocr drx erx path acc w img pos m end_ :
  lookup path (files w) = Some img ->
  Re.search drx (ocr img) = Some (pos, m) ->
  (m = EmptyString \/ exists d, parse_datetime m = Ok d) ->
  search_start erx (ocr img) = Ok end_ ->
  (is_empty (crop img (Z.of_nat pos) end_) = true ->
   crop_one ocr drx erx path acc w = (Raise CvError, w))
  /\ (is_empty (crop img (Z.of_nat pos) end_) = false ->
      exists acc',
        crop_one ocr drx erx path acc w
        = (Ok acc',
           mkworld (store path (Resized (crop img (Z.of_nat pos) end_) 700 300) (files w))
                   (output w))).
Proof.
  intros Hl Hs Hm He.
  assert (Hrun : exists acc',
            crop_one ocr drx erx path acc w
            = if is_empty (crop img (Z.of_nat pos) end_) then (Raise CvError, w)
              else (Ok acc',
                    mkworld (store path (Resized (crop img (Z.of_nat pos) end_) 700 300)
                                   (files w))
                            (output w))).
  { unfold crop_one, bind, cv2_imread, lift, cv2_imwrite, ret, cv2_resize.
    rewrite Hl.
    pose proof (findall_head drx (ocr img)) as Hh. rewrite Hs in Hh.
    cbn [option_map snd] in Hh.
    destruct (Re.findall drx (ocr img)) as [| m' ms]; [discriminate |].
    cbn [hd_error] in Hh. inversion Hh; subst m'.
    unfold search_start at 1. rewrite Hs, He.
    destruct m as [| c m].
    - exists acc. destruct (is_empty _); reflexivity.
    - destruct Hm as [Hm | (d & Hd)]; [discriminate |]. rewrite Hd.
      eexists. destruct (is_empty _); reflexivity. }
  destruct Hrun as (acc' & Hrun).
  split; intros Hem; rewrite Hem in Hrun; eauto.
Qed.

(** With a pattern that matches no empty text every iteration appends an
    entry: the list that the loop builds has the files in the order of the
    listing. *)
Lemma crop_loop_listed ocr drx erx listing : forall acc w acc' w',
  nullable drx = false ->
  for_each listing (crop_one ocr drx erx) acc w = (Ok acc', w') ->
  exists added, acc' = (acc ++ added)%list /\ map fst added = listing.
Proof.
  induction listing as [| x listing IH]; intros acc w acc' w' Hnn H.
  - cbn in H. inversion H; subst. exists []. rewrite app_nil_r. auto.
  - cbn [for_each] in H. apply bind_ok in H. destruct H as (acc1 & w1 & H1 & H2).
    apply crop_one_ok in H1.
    destruct H1 as (img & pos & m & end_ & _ & Hs & _ & _ & _ & Hm).
    destruct m as [| c m].
    + exfalso. unfold Re.search in Hs.
      eapply search_from_nonempty in Hs; [apply Hs; reflexivity | exact Hnn].
    + destruct Hm as (d & _ & ->).
      destruct (IH _ _ _ _ Hnn H2) as (added & -> & Hnames).
      exists ((x, d) :: added). split; [rewrite <- app_assoc; reflexivity |].
      cbn. rewrite Hnames. reflexivity.
Qed.

(* ================================================================== *)
(** * The claims *)

(** C1, as stated, fails: two receipts of 7 and 8 February 2023 have two
    week indexes (1 and 2) and one calendar week (["06"]), and [create_pdf]
    saves one page. *)
Lemma C1_counterexample :
  let idl := timeline_feb in
  let w := sample_images ["images/a.jpg"; "images/b.jpg"] in
  let doc := [[SetFont "Helvetica" 12; DrawString 275 800 "Week 1";
               DrawString 50 780 "February 07, 2023";
               DrawImage "images/b.jpg" 50 680 220 94]] in
  create_pdf (map fst idl) idl "Result.pdf" (map snd idl) w
    = (Ok tt, mkworld (files w) (Some doc))
  /\ List.length doc = 1%nat
  /\ map (fun e : entry => week_index (snd e)) idl = [1; 2]
  /\ count_week_indexes idl = 2%nat
  /\ map strftime_U (map snd idl) = ["06"; "06"]
  /\ count_distinct (map strftime_U (map snd idl)) = 1%nat
  /\ List.length doc <> count_week_indexes idl.
Proof.
  intros idl w doc. split; [vm_compute; reflexivity |].
  repeat split; try reflexivity. vm_compute. discriminate.
Qed.

(** C1, amended: when [create_pdf] completes on a timeline that is not
    empty, the number of pages of the document it saves is the number of
    distinct ["%U"] calendar weeks of the dates, and so it is not the number
    of distinct week indexes when the two numbers differ.  It completes,
    with that many pages, when every page number up to that number has an
    entry of its week index and the images are on disk. *)
Theorem C1_page_count_is_calendar_week_count il idl path dl w :
  dl <> [] ->
  (forall w',
     create_pdf il idl path dl w = (Ok tt, w') ->
     exists doc,
       output w' = Some doc
       /\ List.length doc = count_distinct (map strftime_U dl)
       /\ (count_week_indexes idl <> count_distinct (map strftime_U dl) ->
           List.length doc <> count_week_indexes idl))
  /\ (il = map fst idl ->
      (forall i, (i < count_distinct (map strftime_U dl))%nat ->
                 exists e, In e idl /\ week_index (snd e) = Z.of_nat i + 1) ->
      Forall (on_disk (files w)) idl ->
      exists doc,
        create_pdf il idl path dl w = (Ok tt, mkworld (files w) (Some doc))
        /\ List.length doc = count_distinct (map strftime_U dl)).
Proof.
  intros Hdl.
  assert (Hcount : forall w',
            create_pdf il idl path dl w = (Ok tt, w') ->
            exists doc, output w' = Some doc
                        /\ List.length doc = count_distinct (map strftime_U dl)).
  { intros w' H. apply create_pdf_ok in H. destruct H as (ms & HF & _ & Hout).
    pose proof (pages_length _ _ _ _ _ HF) as Hlen.
    assert (Hn : (1 <= count_distinct (map strftime_U dl))%nat).
    { apply count_distinct_nonempty. destruct dl; [congruence | discriminate]. }
    assert (Hms : ms <> []) by (destruct ms; [cbn in Hlen; lia | discriminate]).
    exists (document (files w) ms). split; [assumption |].
    rewrite length_document by assumption. assumption. }
  split.
  - intros w' H. destruct (Hcount w' H) as (doc & Hout & Hlen).
    exists doc. split; [assumption |]. split; [assumption |]. congruence.
  - intros -> Hweeks Hdisk.
    destruct (create_pdf_total idl path dl w Hweeks Hdisk) as (doc & Hrun).
    exists doc. split; [exact Hrun |].
    destruct (Hcount _ Hrun) as (doc' & Hout & Hlen).
    cbn [output] in Hout. congruence.
Qed.

Lemma C1_page_count_witness :
  let idl := timeline_feb in
  let w := sample_images ["images/a.jpg"; "images/b.jpg"] in
  let doc := [[SetFont "Helvetica" 12; DrawString 275 800 "Week 1";
               DrawString 50 780 "February 07, 2023";
               DrawImage "images/b.jpg" 50 680 220 94]] in
  map snd idl <> []
  /\ create_pdf (map fst idl) idl "Result.pdf" (map snd idl) w
     = (Ok tt, mkworld (files w) (Some doc))
  /\ exists doc',
       output (mkworld (files w) (Some doc)) = Some doc'
       /\ List.length doc' = count_distinct (map strftime_U (map snd idl))
       /\ (count_week_indexes idl <> count_distinct (map strftime_U (map snd idl)) ->
           List.length doc' <> count_week_indexes idl).
Proof.
  intros idl w doc.
  assert (Hdl : map snd idl <> []) by discriminate.
  assert (Hrun : create_pdf (map fst idl) idl "Result.pdf" (map snd idl) w
                 = (Ok tt, mkworld (files w) (Some doc)))
    by (vm_compute; reflexivity).
  split; [exact Hdl |]. split; [exact Hrun |].
  destruct (C1_page_count_is_calendar_week_count
              (map fst idl) idl "Result.pdf" (map snd idl) w Hdl) as (H & _).
  exact (H _ Hrun).
Defined.

(** C2, as stated, fails: with three receipts of one week the third label
    is drawn 130 units below the first, not 65. *)
Lemma C2_counterexample :
  let idl := timeline_three in
  let w := sample_images ["images/a.jpg"; "images/b.jpg"; "images/c.jpg"] in
  exists page c0 c1 c2,
    create_pdf (map fst idl) idl "Result.pdf" (map snd idl) w
      = (Ok tt, mkworld (files w) (Some [page]))
    /\ cells page = [c0; c1; c2]
    /\ (label_x c0, label_y c0) = (50, 780)
    /\ (label_x c1, label_y c1) = (350, 780)
    /\ (label_x c2, label_y c2) = (50, 650)
    /\ label_y c2 <> label_y c0 - 65.
Proof.
  do 4 eexists. split; [vm_compute; reflexivity |].
  split; [vm_compute; reflexivity |].
  repeat split; try reflexivity. vm_compute. discriminate.
Qed.

(** C2, amended: on every page of a saved document the member of index
    [idx] (from 0) has its label in the left column, at x = 50, when [idx] is
    even and in the right column, at x = 50 + 300, when it is odd; the label
    is at y = 780 - 130 * (idx div 2), that is 130 units lower per pair of
    members, and the image is drawn at the same x, 100 units below the
    label.  With three members the third is in the left column, 130 units
    below the top row. *)
Theorem C2_two_column_layout il idl path dl w w' :
  create_pdf il idl path dl w = (Ok tt, w') ->
  exists doc,
    output w' = Some doc
    /\ forall page idx c,
         In page doc ->
         nth_error (cells page) idx = Some c ->
         label_x c = 50 + 300 * (Z.of_nat idx mod 2)
         /\ label_y c = 780 - 130 * (Z.of_nat idx / 2)
         /\ image_x c = label_x c
         /\ image_y c = label_y c - 100.
Proof.
  intros H. apply create_pdf_ok in H. destruct H as (ms & _ & _ & Hdoc).
  exists (document (files w) ms). split; [assumption |].
  intros page idx c Hin Hc.
  destruct (document_cells _ _ _ _ _ Hin Hc) as (m & e & _ & _ & ->).
  apply cell_at_position.
Qed.

Lemma C2_two_column_layout_witness :
  let idl := timeline_three in
  let w := sample_images ["images/a.jpg"; "images/b.jpg"; "images/c.jpg"] in
  let page := [SetFont "Helvetica" 12; DrawString 275 800 "Week 1";
               DrawString 50 780 "February 05, 2023";
               DrawImage "images/a.jpg" 50 680 220 94;
               DrawString 350 780 "February 06, 2023";
               DrawImage "images/b.jpg" 350 680 220 94;
               DrawString 50 650 "February 07, 2023";
               DrawImage "images/c.jpg" 50 550 220 94] in
  create_pdf (map fst idl) idl "Result.pdf" (map snd idl) w
    = (Ok tt, mkworld (files w) (Some [page]))
  /\ exists doc,
       output (mkworld (files w) (Some [page])) = Some doc
       /\ forall page idx c,
            In page doc ->
            nth_error (cells page) idx = Some c ->
            label_x c = 50 + 300 * (Z.of_nat idx mod 2)
            /\ label_y c = 780 - 130 * (Z.of_nat idx / 2)
            /\ image_x c = label_x c
            /\ image_y c = label_y c - 100.
Proof.
  intros idl w page.
  assert (Hrun : create_pdf (map fst idl) idl "Result.pdf" (map snd idl) w
                 = (Ok tt, mkworld (files w) (Some [page])))
    by (vm_compute; reflexivity).
  split; [exact Hrun |].
  exact (C2_two_column_layout _ _ _ _ _ _ Hrun).
Defined.

(** C3: when the text has a timestamp at offset [s] and a terminator phrase
    at offset [e], both offsets are found, and the rows cropped are given by
    four ranges of [s], of which exactly one holds: [s < 5] gives
    [s : e + 900]; [10 < s < 45] gives [s + 600 : e + 1250]; [50 <= s] gives
    [s + 700 : e + 1200]; the rest, [5 <= s <= 10] or [45 <= s < 50], gives
    [s : e + 700].  Offset 4 is in the first range, 5, 10 and 49 are in the
    last, 11 is in the second and 50 in the third. *)
Theorem C3_crop_window_ranges text s m e m' img :
  Re.search date_time_regex text = Some (s, m) ->
  Re.search img_crop_end_regex text = Some (e, m') ->
  let start := Z.of_nat s in
  let end_ := Z.of_nat e in
  search_start date_time_regex text = Ok start
  /\ search_start img_crop_end_regex text = Ok end_
  /\ (start < 5 -> crop img start end_ = RowSlice img start (end_ + 900))
  /\ (10 < start < 45 -> crop img start end_ = RowSlice img (start + 600) (end_ + 1250))
  /\ (50 <= start -> crop img start end_ = RowSlice img (start + 700) (end_ + 1200))
  /\ (5 <= start <= 10 \/ 45 <= start < 50 ->
      crop img start end_ = RowSlice img start (end_ + 700))
  /\ (start < 5 /\ ~ 10 < start < 45 /\ ~ 50 <= start
               /\ ~ (5 <= start <= 10 \/ 45 <= start < 50)
      \/ ~ start < 5 /\ 10 < start < 45 /\ ~ 50 <= start
               /\ ~ (5 <= start <= 10 \/ 45 <= start < 50)
      \/ ~ start < 5 /\ ~ 10 < start < 45 /\ 50 <= start
               /\ ~ (5 <= start <= 10 \/ 45 <= start < 50)
      \/ ~ start < 5 /\ ~ 10 < start < 45 /\ ~ 50 <= start
               /\ (5 <= start <= 10 \/ 45 <= start < 50))
  /\ crop img 4 end_ = RowSlice img 4 (end_ + 900)
  /\ crop img 5 end_ = RowSlice img 5 (end_ + 700)
  /\ crop img 10 end_ = RowSlice img 10 (end_ + 700)
  /\ crop img 11 end_ = RowSlice img (11 + 600) (end_ + 1250)
  /\ crop img 49 end_ = RowSlice img 49 (end_ + 700)
  /\ crop img 50 end_ = RowSlice img (50 + 700) (end_ + 1200).
Proof.
  intros Hs He start end_.
  assert (Hpos : 0 <= start) by (unfold start; lia).
  unfold search_start. rewrite Hs, He. fold start end_.
  split; [reflexivity |]. split; [reflexivity |].
  unfold crop.
  repeat split; try reflexivity.
  - intros H. apply Z.ltb_lt in H. rewrite H. reflexivity.
  - intros [H1 H2].
    replace (start <? 5) with false by (symmetry; apply Z.ltb_ge; lia).
    replace (10 <? start) with true by (symmetry; apply Z.ltb_lt; lia).
    replace (start <? 45) with true by (symmetry; apply Z.ltb_lt; lia).
    reflexivity.
  - intros H.
    replace (start <? 5) with false by (symmetry; apply Z.ltb_ge; lia).
    replace (start <? 45) with false by (symmetry; apply Z.ltb_ge; lia).
    rewrite andb_false_r.
    replace (50 <=? start) with true by (symmetry; apply Z.leb_le; lia).
    reflexivity.
  - intros H.
    replace (start <? 5) with false by (symmetry; apply Z.ltb_ge; lia).
    replace (50 <=? start) with false by (symmetry; apply Z.leb_gt; lia).
    destruct H as [H | H].
    + replace (10 <? start) with false by (symmetry; apply Z.ltb_ge; lia).
      reflexivity.
    + replace (start <? 45) with false by (symmetry; apply Z.ltb_ge; lia).
      rewrite andb_false_r. reflexivity.
  - lia.
Qed.

Lemma C3_crop_window_ranges_witness :
  let text := sample_text 1 in
  let img := Scan 1 2200 1700 in
  Re.search date_time_regex text = Some (0%nat, "2/8/23, 9:15 AM")
  /\ Re.search img_crop_end_regex text = Some (21%nat, "Your ride")
  /\ search_start date_time_regex text = Ok 0
  /\ search_start img_crop_end_regex text = Ok 21
  /\ crop img 0 21 = RowSlice img 0 921.
Proof.
  intros text img.
  assert (Hs : Re.search date_time_regex text = Some (0%nat, "2/8/23, 9:15 AM"))
    by (vm_compute; reflexivity).
  assert (He : Re.search img_crop_end_regex text = Some (21%nat, "Your ride"))
    by (vm_compute; reflexivity).
  split; [exact Hs |]. split; [exact He |].
  destruct (C3_crop_window_ranges text _ _ _ _ img Hs He)
    as (H1 & H2 & H3 & _).
  split; [exact H1 |]. split; [exact H2 |].
  apply H3. reflexivity.
Defined.

(** C4: the timestamp is read by three formats, in this order: month, day
    and two-digit year with a 12-hour clock and AM or PM; day, month and
    two-digit year with a 12-hour clock and AM or PM; day, month and
    two-digit year with a 24-hour clock.  The first format that reads the
    text gives the result, and when none does the error is raised.  So
    "03/04/22, 1:00 PM" is 4 March, "13/04/22, 1:00 PM" is 13 April, and
    "31/01/22, 14:00" is rejected by the first two formats and read by the
    third; a four-digit year or an hour of 25 is read by none. *)
Theorem C4_three_formats_in_order :
  (forall s,
     (exists d, strptime s "%m/%d/%y, %I:%M %p" = Ok d /\ parse_datetime s = Ok d)
     \/ (strptime s "%m/%d/%y, %I:%M %p" = Raise ValueError
         /\ exists d, strptime s "%d/%m/%y, %I:%M %p" = Ok d /\ parse_datetime s = Ok d)
     \/ (strptime s "%m/%d/%y, %I:%M %p" = Raise ValueError
         /\ strptime s "%d/%m/%y, %I:%M %p" = Raise ValueError
         /\ parse_datetime s = strptime s "%d/%m/%y, %H:%M"))
  /\ strptime "03/04/22, 1:00 PM" "%m/%d/%y, %I:%M %p" = Ok (mkdt 2022 3 4 13 0 0)
  /\ parse_datetime "03/04/22, 1:00 PM" = Ok (mkdt 2022 3 4 13 0 0)
  /\ strptime "13/04/22, 1:00 PM" "%m/%d/%y, %I:%M %p" = Raise ValueError
  /\ strptime "13/04/22, 1:00 PM" "%d/%m/%y, %I:%M %p" = Ok (mkdt 2022 4 13 13 0 0)
  /\ parse_datetime "13/04/22, 1:00 PM" = Ok (mkdt 2022 4 13 13 0 0)
  /\ strptime "31/01/22, 14:00" "%m/%d/%y, %I:%M %p" = Raise ValueError
  /\ strptime "31/01/22, 14:00" "%d/%m/%y, %I:%M %p" = Raise ValueError
  /\ strptime "31/01/22, 14:00" "%d/%m/%y, %H:%M" = Ok (mkdt 2022 1 31 14 0 0)
  /\ parse_datetime "31/01/22, 14:00" = Ok (mkdt 2022 1 31 14 0 0)
  /\ parse_datetime "03/04/2022, 1:00 PM" = Raise ValueError
  /\ parse_datetime "13/13/22, 25:00" = Raise ValueError.
Proof.
  split.
  - intros s. unfold parse_datetime.
    destruct (strptime s "%m/%d/%y, %I:%M %p") as [d | e] eqn:E1.
    + left. exists d. auto.
    + right. apply strptime_raise in E1. subst e.
      destruct (strptime s "%d/%m/%y, %I:%M %p") as [d | e] eqn:E2.
      * left. split; [reflexivity |]. exists d. auto.
      * right. apply strptime_raise in E2. subst e. auto.
  - repeat split; vm_compute; reflexivity.
Qed.

(** C5: when the text of an image of the directory has no timestamp, or no
    terminator phrase, or a timestamp that none of the three formats reads,
    the crop step raises and so does the run.  No image is left out of a
    timeline that goes on without it: the loop has stopped at an image of
    the listing, nothing is saved at the output path, and every file but
    those of the images before that one, the offending image among them, is
    on disk as it was. *)
Theorem C5_offending_image_aborts_run pdf ocr w0 w path img :
  get_img_from_pdf pdf "images" "Shuffled_images.pdf" w0 = (Ok tt, w) ->
  lookup path (files w) = Some img ->
  (Re.search date_time_regex (ocr img) = None
   \/ Re.search img_crop_end_regex (ocr img) = None
   \/ exists pos m,
        Re.search date_time_regex (ocr img) = Some (pos, m)
        /\ strptime m "%m/%d/%y, %I:%M %p" = Raise ValueError
        /\ strptime m "%d/%m/%y, %I:%M %p" = Raise ValueError
        /\ strptime m "%d/%m/%y, %H:%M" = Raise ValueError) ->
  exists e w',
    crop_img_n_get_date ocr date_time_regex img_crop_end_regex w = (Raise e, w')
    /\ main_caller pdf ocr w0 = (Raise e, w')
    /\ output w' = output w0
    /\ lookup path (files w') = Some img
    /\ exists done x todo,
         map fst (files w) = (done ++ x :: todo)%list
         /\ forall p, ~ In p done -> lookup p (files w') = lookup p (files w).
Proof.
  intros Hpdf Hl Hbad.
  assert (Hoff : offending date_time_regex img_crop_end_regex (ocr img)).
  { destruct Hbad as [H | [H | (pos & m & Hs & H1 & H2 & H3)]].
    - left. exact H.
    - right. left. exact H.
    - right. right.
      pose proof (search_from_nonempty _ _ _ _ _ _ date_time_regex_not_nullable Hs)
        as Hne.
      destruct m as [| c m]; [congruence |]. exists pos, c, m. auto. }
  destruct (crop_loop_offending ocr _ _ path img (map fst (files w)) [] w
              (lookup_in_keys _ _ _ Hl) Hl Hoff) as (e & w' & Hrun & Hout & Hfile).
  exists e, w'.
  assert (Hcrop : crop_img_n_get_date ocr date_time_regex img_crop_end_regex w
                  = (Raise e, w')).
  { unfold crop_img_n_get_date. unfold bind at 1. unfold listdir.
    apply bind_raise. exact Hrun. }
  split; [exact Hcrop |].
  split.
  { unfold main_caller. rewrite (bind_step _ _ _ _ _ Hpdf).
    apply bind_raise. exact Hcrop. }
  split; [rewrite Hout; apply (get_img_from_pdf_output _ _ _ _ _ Hpdf) |].
  split; [exact Hfile |].
  destruct (crop_loop_stops ocr _ _ _ _ _ _ _ Hrun) as (done & x & todo & Hl' & _ & Hrest).
  exists done, x, todo. split; assumption.
Qed.

Lemma C5_offending_image_aborts_run_witness :
  let pdf := fun _ : string => [Scan 1 2200 1700; Scan 3 2200 1700; Scan 2 2200 1700] in
  let w0 := mkworld [] None in
  let w := mkworld [("images/trip_image_1.jpg", Scan 1 2200 1700);
                    ("images/trip_image_2.jpg", Scan 3 2200 1700);
                    ("images/trip_image_3.jpg", Scan 2 2200 1700)] None in
  get_img_from_pdf pdf "images" "Shuffled_images.pdf" w0 = (Ok tt, w)
  /\ lookup "images/trip_image_2.jpg" (files w) = Some (Scan 3 2200 1700)
  /\ Re.search date_time_regex (sample_ocr (Scan 3 2200 1700)) = None
  /\ exists e w',
       crop_img_n_get_date sample_ocr date_time_regex img_crop_end_regex w = (Raise e, w')
       /\ main_caller pdf sample_ocr w0 = (Raise e, w')
       /\ output w' = output w0
       /\ lookup "images/trip_image_2.jpg" (files w') = Some (Scan 3 2200 1700)
       /\ exists done x todo,
            map fst (files w) = (done ++ x :: todo)%list
            /\ forall p, ~ In p done -> lookup p (files w') = lookup p (files w).
Proof.
  intros pdf w0 w.
  assert (Hpdf : get_img_from_pdf pdf "images" "Shuffled_images.pdf" w0 = (Ok tt, w))
    by (vm_compute; reflexivity).
  assert (Hl : lookup "images/trip_image_2.jpg" (files w) = Some (Scan 3 2200 1700))
    by reflexivity.
  assert (Hs : Re.search date_time_regex (sample_ocr (Scan 3 2200 1700)) = None)
    by (vm_compute; reflexivity).
  split; [exact Hpdf |]. split; [exact Hl |]. split; [exact Hs |].
  exact (C5_offending_image_aborts_run pdf sample_ocr w0 w "images/trip_image_2.jpg" _
           Hpdf Hl (or_introl Hs)).
Defined.

(** C6: page [i + 1] of a saved document holds, in the order of the
    timeline, the run of the timeline that starts at its first entry of week
    index [i + 1] and ends at its last one: the timeline is [pre ++ m ++
    post], the cells of the page are those of [m], the first and the last
    entry of [m] have week index [i + 1], and no entry of [pre] or [post]
    has.  The week index of a day of month 1 or 7 is 1, of day 8 it is 2 and
    of day 31 it is 5. *)
Theorem C6_page_is_inclusive_slice idl path w w' :
  idl <> [] ->
  NoDup (map fst idl) ->
  create_pdf (map fst idl) idl path (map snd idl) w = (Ok tt, w') ->
  exists doc,
    output w' = Some doc
    /\ (forall i page,
          nth_error doc i = Some page ->
          exists pre m post x y,
            idl = (pre ++ m ++ post)%list
            /\ map (fun c => (image_file c, label c)) (cells page)
               = map (fun e : entry => (fst e, strftime_B_d_Y (snd e))) m
            /\ first m = Ok x /\ week_index (snd x) = Z.of_nat i + 1
            /\ final m = Ok y /\ week_index (snd y) = Z.of_nat i + 1
            /\ Forall (fun e : entry => week_index (snd e) <> Z.of_nat i + 1) pre
            /\ Forall (fun e : entry => week_index (snd e) <> Z.of_nat i + 1) post)
    /\ (forall date, day date = 1 -> week_index date = 1)
    /\ (forall date, day date = 7 -> week_index date = 1)
    /\ (forall date, day date = 8 -> week_index date = 2)
    /\ (forall date, day date = 31 -> week_index date = 5).
Proof.
  intros Hne Hnd H. apply create_pdf_ok in H. destruct H as (ms & HF & _ & Hout).
  exists (document (files w) ms). split; [assumption |].
  split; [| repeat split; intros date Hd; unfold week_index; rewrite Hd; reflexivity].
  intros i page Hpage.
  assert (Hms : ms <> []).
  { pose proof (pages_length _ _ _ _ _ HF) as Hlen.
    assert (1 <= count_distinct (map strftime_U (map snd idl)))%nat.
    { apply count_distinct_nonempty. destruct idl; [congruence | discriminate]. }
    destruct ms; [cbn in Hlen; lia | discriminate]. }
  apply document_page in Hpage; [| assumption].
  destruct Hpage as (m & Hm & Hcells).
  destruct (Forall2_nth_error _ _ _ _ _ HF Hm) as (i' & Hi' & Hpm & _).
  apply nth_error_seq_0 in Hi'. subst i'.
  destruct (page_members_run _ _ _ Hnd Hpm)
    as (pre & post & x & y & Hidl & Hx & Hwx & Hy & Hwy & Hpre & Hpost).
  exists pre, m, post, x, y. repeat split; auto.
  - rewrite Hcells. clear. generalize 0%nat.
    induction m as [| e m IH]; intros a; [reflexivity |].
    cbn [enumerate map fst snd]. rewrite IH. reflexivity.
  - apply in_week_true, Hwx.
  - apply in_week_true, Hwy.
  - eapply Forall_impl; [| exact Hpre]. intros e. apply in_week_false.
  - eapply Forall_impl; [| exact Hpost]. intros e. apply in_week_false.
Qed.

Lemma C6_page_is_inclusive_slice_witness :
  let idl := timeline_two_months in
  let w := sample_images ["images/a.jpg"; "images/b.jpg"; "images/c.jpg"] in
  let doc := [[SetFont "Helvetica" 12; DrawString 275 800 "Week 1";
               DrawString 50 780 "January 07, 2022";
               DrawImage "images/a.jpg" 50 680 220 94;
               DrawString 350 780 "January 08, 2022";
               DrawImage "images/b.jpg" 350 680 220 94;
               DrawString 50 650 "February 01, 2022";
               DrawImage "images/c.jpg" 50 550 220 94];
              [DrawString 275 800 "Week 2";
               DrawString 50 780 "January 08, 2022";
               DrawImage "images/b.jpg" 50 680 220 94]] in
  idl <> []
  /\ NoDup (map fst idl)
  /\ create_pdf (map fst idl) idl "Result.pdf" (map snd idl) w
     = (Ok tt, mkworld (files w) (Some doc))
  /\ exists doc',
       output (mkworld (files w) (Some doc)) = Some doc'
       /\ (forall i page,
             nth_error doc' i = Some page ->
             exists pre m post x y,
               idl = (pre ++ m ++ post)%list
               /\ map (fun c => (image_file c, label c)) (cells page)
                  = map (fun e : entry => (fst e, strftime_B_d_Y (snd e))) m
               /\ first m = Ok x /\ week_index (snd x) = Z.of_nat i + 1
               /\ final m = Ok y /\ week_index (snd y) = Z.of_nat i + 1
               /\ Forall (fun e : entry => week_index (snd e) <> Z.of_nat i + 1) pre
               /\ Forall (fun e : entry => week_index (snd e) <> Z.of_nat i + 1) post)
       /\ (forall date, day date = 1 -> week_index date = 1)
       /\ (forall date, day date = 7 -> week_index date = 1)
       /\ (forall date, day date = 8 -> week_index date = 2)
       /\ (forall date, day date = 31 -> week_index date = 5).
Proof.
  intros idl w doc.
  assert (Hne : idl <> []) by discriminate.
  assert (Hnd : NoDup (map fst idl)).
  { repeat constructor; cbn; intuition discriminate. }
  assert (Hrun : create_pdf (map fst idl) idl "Result.pdf" (map snd idl) w
                 = (Ok tt, mkworld (files w) (Some doc)))
    by (vm_compute; reflexivity).
  split; [exact Hne |]. split; [exact Hnd |]. split; [exact Hrun |].
  exact (C6_page_is_inclusive_slice idl "Result.pdf" w _ Hne Hnd Hrun).
Defined.

(** C7, as stated, fails: on a page of 600 rows whose timestamp is at
    offset 59 of the text, the rows asked for are [759 : 1280]; the slice
    is clamped to the 600 rows and is empty, [cv2.resize] raises on it, and
    the run stops. *)
Lemma C7_counterexample :
  let img := Scan 4 600 450 in
  let w := mkworld [("images/a.jpg", img)] None in
  search_start date_time_regex (sample_ocr img) = Ok 59
  /\ search_start img_crop_end_regex (sample_ocr img) = Ok 80
  /\ crop img 59 80 = RowSlice img 759 1280
  /\ shape (crop img 59 80) = (0, 450)
  /\ cv2_resize (crop img 59 80) (700, 300) = Raise CvError
  /\ crop_img_n_get_date sample_ocr date_time_regex img_crop_end_regex w
     = (Raise CvError, w).
Proof. repeat split; vm_compute; reflexivity. Qed.

(** C7, amended: the crop of an image of the directory is the slice of its
    rows from [lo] to [hi], the window that the offsets of the timestamp and
    of the terminator select; the offsets are positions in a text, so no
    bound is negative.  The slice does not raise: its bounds are cut at the
    number of rows of the image, the rows kept are those from [min lo rows]
    to [min hi rows], and the columns are kept.  When no row is left the
    resize raises and the iteration stops with the image as it was;
    otherwise the iteration writes the kept rows back rescaled to exactly
    700 by 300, whatever their number. *)
Theorem C7_crop_clamps_then_resizes ocr path acc w img pos m end_ :
  lookup path (files w) = Some img ->
  Re.search date_time_regex (ocr img) = Some (pos, m) ->
  (exists d, parse_datetime m = Ok d) ->
  search_start img_crop_end_regex (ocr img) = Ok end_ ->
  0 <= fst (shape img) ->
  0 < snd (shape img) ->
  let s := Z.of_nat pos in
  let rows := fst (shape img) in
  let lo := if s <? 5 then s
            else if (10 <? s) && (s <? 45) then s + 600
            else if 50 <=? s then s + 700 else s in
  let hi := if s <? 5 then end_ + 900
            else if (10 <? s) && (s <? 45) then end_ + 1250
            else if 50 <=? s then end_ + 1200 else end_ + 700 in
  crop img s end_ = RowSlice img lo hi
  /\ 0 <= lo /\ 0 <= hi
  /\ clamp_index rows lo = Z.min lo rows
  /\ clamp_index rows hi = Z.min hi rows
  /\ shape (crop img s end_) = (Z.max (Z.min hi rows - Z.min lo rows) 0, snd (shape img))
  /\ (Z.min hi rows <= Z.min lo rows ->
      crop_one ocr date_time_regex img_crop_end_regex path acc w = (Raise CvError, w))
  /\ (Z.min lo rows < Z.min hi rows ->
      exists acc',
        crop_one ocr date_time_regex img_crop_end_regex path acc w
        = (Ok acc',
           mkworld (store path (Resized (RowSlice img lo hi) 700 300) (files w))
                   (output w))
        /\ lookup path (store path (Resized (RowSlice img lo hi) 700 300) (files w))
           = Some (Resized (RowSlice img lo hi) 700 300)
        /\ shape (Resized (RowSlice img lo hi) 700 300) = (300, 700)).
Proof.
  intros Hl Hs Hd He Hrows Hcols s rows lo hi.
  assert (Hend : 0 <= end_).
  { unfold search_start in He.
    destruct (Re.search img_crop_end_regex (ocr img)) as [[p ?] |]; [| discriminate].
    inversion He. lia. }
  assert (Hpos : 0 <= s) by (unfold s; lia).
  assert (Hcrop : crop img s end_ = RowSlice img lo hi).
  { unfold crop, lo, hi.
    destruct (s <? 5); [reflexivity |].
    destruct ((10 <? s) && (s <? 45)); [reflexivity |].
    destruct (50 <=? s); reflexivity. }
  assert (Hlo : 0 <= lo).
  { unfold lo. destruct (s <? 5); [lia |].
    destruct ((10 <? s) && (s <? 45)); [lia |]. destruct (50 <=? s); lia. }
  assert (Hhi : 0 <= hi).
  { unfold hi. destruct (s <? 5); [lia |].
    destruct ((10 <? s) && (s <? 45)); [lia |]. destruct (50 <=? s); lia. }
  clearbody lo hi.
  destruct (slice_len_clamped rows lo hi Hrows Hlo Hhi) as (Hclo & Hchi & Hlen).
  assert (Hshape : shape (crop img s end_)
                   = (Z.max (Z.min hi rows - Z.min lo rows) 0, snd (shape img))).
  { rewrite Hcrop. cbn [shape]. fold rows. rewrite Hlen. reflexivity. }
  assert (Hempty : is_empty (crop img s end_)
                   = (Z.max (Z.min hi rows - Z.min lo rows) 0 <=? 0)).
  { unfold is_empty. rewrite Hshape. cbn [fst snd].
    replace (snd (shape img) <=? 0) with false by (symmetry; apply Z.leb_gt; lia).
    apply orb_false_r. }
  destruct (crop_one_resize ocr date_time_regex img_crop_end_regex path acc w img pos m
              end_ Hl Hs (or_intror Hd) He) as (Hraise & Hok).
  fold s in Hraise, Hok.
  repeat (split; [assumption |]). split.
  - intros Hnone. apply Hraise. rewrite Hempty. apply Z.leb_le. lia.
  - intros Hsome. destruct Hok as (acc' & Hrun).
    { rewrite Hempty. apply Z.leb_gt. lia. }
    rewrite Hcrop in Hrun. exists acc'. split; [exact Hrun |].
    split; [apply lookup_store_same | reflexivity].
Qed.

Lemma C7_crop_clamps_then_resizes_witness :
  let img := Scan 1 800 600 in
  let w := mkworld [("images/a.jpg", img)] None in
  lookup "images/a.jpg" (files w) = Some img
  /\ Re.search date_time_regex (sample_ocr img) = Some (0%nat, "2/8/23, 9:15 AM")
  /\ (exists d, parse_datetime "2/8/23, 9:15 AM" = Ok d)
  /\ search_start img_crop_end_regex (sample_ocr img) = Ok 21
  /\ crop img 0 21 = RowSlice img 0 921
  /\ clamp_index 800 921 = 800
  /\ shape (crop img 0 21) = (800, 600)
  /\ exists acc',
       crop_one sample_ocr date_time_regex img_crop_end_regex "images/a.jpg" [] w
       = (Ok acc',
          mkworld (store "images/a.jpg" (Resized (RowSlice img 0 921) 700 300) (files w))
                  (output w))
       /\ lookup "images/a.jpg"
                 (store "images/a.jpg" (Resized (RowSlice img 0 921) 700 300) (files w))
          = Some (Resized (RowSlice img 0 921) 700 300)
       /\ shape (Resized (RowSlice img 0 921) 700 300) = (300, 700).
Proof.
  intros img w.
  assert (Hl : lookup "images/a.jpg" (files w) = Some img) by reflexivity.
  assert (Hs : Re.search date_time_regex (sample_ocr img)
               = Some (0%nat, "2/8/23, 9:15 AM")) by (vm_compute; reflexivity).
  assert (Hd : exists d, parse_datetime "2/8/23, 9:15 AM" = Ok d)
    by (eexists; vm_compute; reflexivity).
  assert (He : search_start img_crop_end_regex (sample_ocr img) = Ok 21)
    by (vm_compute; reflexivity).
  assert (Hrows : 0 <= fst (shape img)) by (cbn; lia).
  assert (Hcols : 0 < snd (shape img)) by (cbn; lia).
  split; [exact Hl |]. split; [exact Hs |]. split; [exact Hd |]. split; [exact He |].
  destruct (C7_crop_clamps_then_resizes sample_ocr "images/a.jpg" [] w img 0%nat _ 21
              Hl Hs Hd He Hrows Hcols) as (Hc & _ & _ & _ & Hhi & Hsh & _ & Hok).
  split; [exact Hc |]. split; [exact Hhi |]. split; [exact Hsh |].
  apply Hok. cbn. lia.
Defined.

(** C8, as stated, fails: a receipt that the crop step has left on disk
    with the canonical size, 700 by 300, is drawn 220 wide and 94 high,
    the size of the PIL image once [thumbnail((220, 220))] has been applied
    to it, and not with the canonical size. *)
Lemma C8_counterexample :
  let w0 := sample_pages [("images/a.jpg", 1%N); ("images/b.jpg", 2%N)] in
  let idl := timeline_feb in
  let w1 := mkworld [("images/a.jpg", Resized (RowSlice (Scan 1 2200 1700) 0 921) 700 300);
                     ("images/b.jpg", Resized (RowSlice (Scan 2 2200 1700) 0 922) 700 300)]
                    None in
  let page := [SetFont "Helvetica" 12; DrawString 275 800 "Week 1";
               DrawString 50 780 "February 07, 2023";
               DrawImage "images/b.jpg" 50 680 220 94] in
  let c := mkcell "February 07, 2023" 50 780 "images/b.jpg" 50 680 220 94 in
  crop_img_n_get_date sample_ocr date_time_regex img_crop_end_regex w0
    = (Ok (idl, map fst idl, map snd idl), w1)
  /\ create_pdf (map fst idl) idl "Result.pdf" (map snd idl) w1
     = (Ok tt, mkworld (files w1) (Some [page]))
  /\ cells page = [c]
  /\ size_on_disk (files w1) (image_file c) = (700, 300)
  /\ (image_w c, image_h c) = (220, 94)
  /\ (image_w c, image_h c) <> (700, 300).
Proof.
  intros w0 idl w1 page c.
  split; [vm_compute; reflexivity |]. split; [vm_compute; reflexivity |].
  split; [reflexivity |]. split; [reflexivity |]. split; [reflexivity |].
  intros H. discriminate H.
Qed.

(** C8, amended: after the crop step every image of the timeline is on disk
    with the canonical size, 700 wide and 300 high.  Every cell of every page
    draws the file of an entry of the timeline with the size that PIL gives
    the image once [thumbnail((220, 220))] has been applied to it, which is
    220 by 94 for an image of the canonical size; its label is the date of
    the entry as month name, day and year, drawn at the position of the cell;
    the image is drawn at the same x, 100 units lower, so that its upper edge
    is below the label. *)
Theorem C8_cells_draw_labelled_thumbnails ocr w0 idl il dl w1 path w2 :
  crop_img_n_get_date ocr date_time_regex img_crop_end_regex w0 = (Ok (idl, il, dl), w1) ->
  create_pdf il idl path dl w1 = (Ok tt, w2) ->
  exists doc,
    output w2 = Some doc
    /\ forall page c,
         In page doc -> In c (cells page) ->
         size_on_disk (files w1) (image_file c) = (700, 300)
         /\ image_w c = width (thumbnail (220, 220) (mkpil (image_file c) 700 300))
         /\ image_h c = height (thumbnail (220, 220) (mkpil (image_file c) 700 300))
         /\ (image_w c, image_h c) = (220, 94)
         /\ (exists date, In (image_file c, date) idl /\ label c = strftime_B_d_Y date)
         /\ image_x c = label_x c
         /\ image_y c = label_y c - 100
         /\ image_y c + image_h c < label_y c.
Proof.
  intros Hcrop Hpdf.
  apply crop_img_n_get_date_ok in Hcrop.
  destruct Hcrop as (_ & _ & Hnorm & _).
  apply create_pdf_ok in Hpdf. destruct Hpdf as (ms & HF & _ & Hout).
  exists (document (files w1) ms). split; [assumption |].
  intros page c Hpage Hc.
  apply In_nth_error in Hc. destruct Hc as (idx & Hc).
  destruct (document_cells _ _ _ _ _ Hpage Hc) as (m & e & Hm & He & ->).
  apply In_nth_error in Hm. destruct Hm as (i & Hm).
  destruct (Forall2_nth_error _ _ _ _ _ HF Hm) as (i' & _ & Hpm & _).
  assert (Hin : In e idl).
  { eapply page_members_incl; [exact Hpm |]. eapply nth_error_In; eauto. }
  rewrite Forall_forall in Hnorm. specialize (Hnorm e Hin). unfold normalized in Hnorm.
  pose proof (cell_at_position (files w1) idx e) as (_ & _ & Hx & Hy).
  assert (Hsize : image_w (cell_at (files w1) idx e) = 220
                  /\ image_h (cell_at (files w1) idx e) = 94).
  { unfold cell_at. rewrite Hnorm. cbn [image_w image_h fst snd]. split; reflexivity. }
  destruct Hsize as (Hw & Hh).
  repeat split; auto.
  - rewrite Hw, Hh. reflexivity.
  - exists (snd e). destruct e as [p date]. split; [exact Hin | reflexivity].
  - rewrite Hh. lia.
Qed.

Lemma C8_cells_draw_labelled_thumbnails_witness :
  let w0 := sample_pages [("images/a.jpg", 1%N); ("images/b.jpg", 2%N)] in
  let idl := timeline_feb in
  let w1 := mkworld [("images/a.jpg", Resized (RowSlice (Scan 1 2200 1700) 0 921) 700 300);
                     ("images/b.jpg", Resized (RowSlice (Scan 2 2200 1700) 0 922) 700 300)]
                    None in
  let doc := [[SetFont "Helvetica" 12; DrawString 275 800 "Week 1";
               DrawString 50 780 "February 07, 2023";
               DrawImage "images/b.jpg" 50 680 220 94]] in
  crop_img_n_get_date sample_ocr date_time_regex img_crop_end_regex w0
    = (Ok (idl, map fst idl, map snd idl), w1)
  /\ create_pdf (map fst idl) idl "Result.pdf" (map snd idl) w1
     = (Ok tt, mkworld (files w1) (Some doc))
  /\ exists doc',
       output (mkworld (files w1) (Some doc)) = Some doc'
       /\ forall page c,
            In page doc' -> In c (cells page) ->
            size_on_disk (files w1) (image_file c) = (700, 300)
            /\ image_w c = width (thumbnail (220, 220) (mkpil (image_file c) 700 300))
            /\ image_h c = height (thumbnail (220, 220) (mkpil (image_file c) 700 300))
            /\ (image_w c, image_h c) = (220, 94)
            /\ (exists date, In (image_file c, date) idl /\ label c = strftime_B_d_Y date)
            /\ image_x c = label_x c
            /\ image_y c = label_y c - 100
            /\ image_y c + image_h c < label_y c.
Proof.
  intros w0 idl w1 doc.
  assert (Hcrop : crop_img_n_get_date sample_ocr date_time_regex img_crop_end_regex w0
                  = (Ok (idl, map fst idl, map snd idl), w1))
    by (vm_compute; reflexivity).
  assert (Hpdf : create_pdf (map fst idl) idl "Result.pdf" (map snd idl) w1
                 = (Ok tt, mkworld (files w1) (Some doc)))
    by (vm_compute; reflexivity).
  split; [exact Hcrop |]. split; [exact Hpdf |].
  exact (C8_cells_draw_labelled_thumbnails sample_ocr w0 idl _ _ w1 "Result.pdf" _
           Hcrop Hpdf).
Defined.

(** C9: the timeline that the crop step returns is the list of the entries
    that its loop has built, in the order in which the directory lists the
    files, sorted: it has the same entries, its timestamps are in ascending
    order, and the sort is stable, so that the entries of one timestamp are
    in the order of the listing.  Nothing but the timestamp is compared:
    these properties leave one result, whatever the names of the files.  The
    image list and the date list are read off the sorted timeline.  Files A,
    B and C listed in this order, A and B of timestamp T and C of an earlier
    one, give the timeline C, A, B. *)
Theorem C9_timeline_sort_is_stable ocr w idl il dl w' :
  crop_img_n_get_date ocr date_time_regex img_crop_end_regex w = (Ok (idl, il, dl), w') ->
  exists listed : list entry,
    map fst listed = map fst (files w)
    /\ Permutation idl listed
    /\ StronglySorted (fun a b : entry => dt_ltb (snd b) (snd a) = false) idl
    /\ (forall t, filter (fun e : entry => dt_eqb (snd e) t) idl
                  = filter (fun e : entry => dt_eqb (snd e) t) listed)
    /\ (forall l' : list entry,
          StronglySorted (fun a b : entry => dt_ltb (snd b) (snd a) = false) l' ->
          (forall t, filter (fun e : entry => dt_eqb (snd e) t) l'
                     = filter (fun e : entry => dt_eqb (snd e) t) listed) ->
          l' = idl)
    /\ il = map fst idl
    /\ dl = map snd idl
    /\ (forall (A B C : string) (T T' : datetime),
          listed = [(A, T); (B, T); (C, T')] ->
          dt_ltb T' T = true ->
          idl = [(C, T'); (A, T); (B, T)]).
Proof.
  intros H. unfold crop_img_n_get_date in H.
  apply bind_ok in H. destruct H as (listing & w0 & Hl & H).
  unfold listdir in Hl. inversion Hl; subst listing w0. clear Hl.
  apply bind_ok in H. destruct H as (acc & w1 & Hloop & H).
  unfold ret in H. inversion H; subst. clear H.
  destruct (crop_loop_listed _ _ _ _ _ _ _ _ date_time_regex_not_nullable Hloop)
    as (listed & -> & Hnames).
  cbn [app].
  assert (Hsorted : StronglySorted (ascending snd dt_ltb) (sort snd dt_ltb listed))
    by apply (sort_sorted snd dt_ltb dt_ltb_asym dt_le_trans).
  assert (Hstable : forall t,
            filter (fun e : entry => dt_eqb (snd e) t) (sort snd dt_ltb listed)
            = filter (fun e : entry => dt_eqb (snd e) t) listed)
    by (intros t; apply (sort_stable snd dt_ltb dt_eqb dt_lt_neq)).
  exists listed.
  split; [exact Hnames |].
  split; [apply sort_perm |].
  split; [exact Hsorted |].
  split; [exact Hstable |].
  split.
  { intros l' Hs Hf.
    apply (sorted_stable_unique snd dt_ltb dt_eqb dt_eqb_iff dt_ltb_total);
      [exact Hs | exact Hsorted |].
    intros t. rewrite Hstable. apply Hf. }
  split; [reflexivity |]. split; [reflexivity |].
  intros A B C T T' -> Hlt. cbn [sort fold_right insert snd].
  rewrite Hlt. cbn [insert snd]. rewrite Hlt, dt_ltb_irrefl. reflexivity.
Qed.

Lemma C9_timeline_sort_is_stable_witness :
  let w := sample_pages [("images/A.jpg", 1%N); ("images/B.jpg", 2%N);
                         ("images/C.jpg", 3%N)] in
  let T := mkdt 2023 2 7 22 0 0 in
  let T' := mkdt 2023 2 7 21 59 0 in
  let idl := [("images/C.jpg", T'); ("images/A.jpg", T); ("images/B.jpg", T)] in
  let r := crop_img_n_get_date tie_ocr date_time_regex img_crop_end_regex w in
  r = (Ok (idl, map fst idl, map snd idl), snd r)
  /\ dt_ltb T' T = true
  /\ exists listed : list entry,
       map fst listed = map fst (files w)
       /\ listed = [("images/A.jpg", T); ("images/B.jpg", T); ("images/C.jpg", T')]
       /\ Permutation idl listed
       /\ StronglySorted (fun a b : entry => dt_ltb (snd b) (snd a) = false) idl
       /\ (forall t, filter (fun e : entry => dt_eqb (snd e) t) idl
                     = filter (fun e : entry => dt_eqb (snd e) t) listed).
Proof.
  intros w T T' idl r.
  assert (Hrun : r = (Ok (idl, map fst idl, map snd idl), snd r))
    by (vm_compute; reflexivity).
  assert (Hlt : dt_ltb T' T = true) by reflexivity.
  split; [exact Hrun |]. split; [exact Hlt |].
  destruct (C9_timeline_sort_is_stable tie_ocr w idl _ _ (snd r) Hrun)
    as (listed & Hnames & Hperm & Hsorted & Hstable & _).
  exists listed. split; [exact Hnames |]. split; [| auto].
  (* the entries in the order of the listing: the names are those of the
     directory, and the dates are those of the timeline *)
  destruct listed as [| [a ta] [| [b tb] [| [c tc] [| ? ?]]]]; try discriminate Hnames.
  cbn in Hnames. inversion Hnames; subst a b c.
  pose proof (Permutation_in _ (Permutation_sym Hperm) (or_introl eq_refl)) as Ha.
  pose proof (Permutation_in _ (Permutation_sym Hperm) (or_intror (or_introl eq_refl)))
    as Hb.
  pose proof (Permutation_in _ (Permutation_sym Hperm)
                (or_intror (or_intror (or_introl eq_refl)))) as Hc.
  cbn in Ha, Hb, Hc.
  destruct Ha as [Ha | [Ha | [Ha | []]]]; try discriminate Ha.
  destruct Hb as [Hb | [Hb | [Hb | []]]]; try discriminate Hb.
  destruct Hc as [Hc | [Hc | [Hc | []]]]; try discriminate Hc.
  inversion Ha; inversion Hb; inversion Hc. reflexivity.
Defined.

(** C10: [create_pdf] raises IndexError, and saves nothing, on every
    timeline whose number of distinct calendar weeks reaches a page number
    [p] of which no entry has the week index: on the first such page
    [img_week_specific_list] is empty and its element 0 is asked for.  A
    receipt of 25 January and one of 1 February of the same year, whatever
    the year, make such a timeline, sorted and not empty: two calendar weeks
    and the week indexes 4 and 1, so that page 1 is drawn and page 2
    raises. *)
Theorem C10_empty_week_raises_IndexError :
  (forall idl path w p,
     (1 <= p <= count_distinct (map strftime_U (map snd idl)))%nat ->
     (forall e : entry, In e idl -> week_index (snd e) <> Z.of_nat p) ->
     Forall (on_disk (files w)) idl ->
     create_pdf (map fst idl) idl path (map snd idl) w = (Raise IndexError, w))
  /\ (forall y h1 mi1 s1 h2 mi2 s2 a b path w img,
        a <> b ->
        lookup b (files w) = Some img ->
        let d1 := mkdt y 1 25 h1 mi1 s1 in
        let d2 := mkdt y 2 1 h2 mi2 s2 in
        dt_ltb d1 d2 = true
        /\ count_distinct (map strftime_U [d1; d2]) = 2%nat
        /\ week_index d1 = 4 /\ week_index d2 = 1
        /\ page_members [a; b] [(a, d1); (b, d2)] 1 = Raise IndexError
        /\ create_pdf [a; b] [(a, d1); (b, d2)] path [d1; d2] w = (Raise IndexError, w)).
Proof.
  split.
  - intros idl path w p Hp Hgap Hdisk.
    destruct (first_gap idl (p - 1)) as (k & Hk & Hgap' & Hbefore).
    { intros e He. replace (Z.of_nat (p - 1) + 1) with (Z.of_nat p) by lia. auto. }
    apply create_pdf_gap with (k := k); auto. lia.
  - intros y h1 mi1 s1 h2 mi2 s2 a b path w img Hab Hb d1 d2.
    assert (Hn : count_distinct (map strftime_U [d1; d2]) = 2%nat).
    { unfold count_distinct. cbn [map nodup].
      destruct (in_dec string_dec (strftime_U d1) [strftime_U d2]) as [Hin | _].
      - exfalso. destruct Hin as [Heq | []].
        exact (strftime_U_feb1 y h1 mi1 s1 h2 mi2 s2 (eq_sym Heq)).
      - reflexivity. }
    assert (Hm1 : page_members [a; b] [(a, d1); (b, d2)] 1 = Raise IndexError)
      by reflexivity.
    assert (Hm0 : page_members [a; b] [(a, d1); (b, d2)] 0 = Ok [(b, d2)]).
    { unfold page_members. cbn [filter map first final snd fst].
      change (week_index d1 =? Z.of_nat 0 + 1) with false.
      change (week_index d2 =? Z.of_nat 0 + 1) with true.
      cbn [filter map first final snd fst index].
      apply String.eqb_neq in Hab. rewrite Hab, String.eqb_refl. reflexivity. }
    split.
    { unfold dt_ltb, dt_compare, d1, d2. cbn [fields year month day lex_compare].
      rewrite Z.compare_refl. reflexivity. }
    split; [exact Hn |]. split; [reflexivity |]. split; [reflexivity |].
    split; [exact Hm1 |].
    unfold create_pdf. rewrite Hn. cbn [List.seq for_each].
    set (c0 := emit (SetFont "Helvetica" 12) Canvas).
    assert (H0 : exists c1, page_one [a; b] [(a, d1); (b, d2)] 0 c0 w = (Ok c1, w)).
    { unfold page_one. unfold lift. rewrite Hm0.
      unfold bind at 1. cbn [List.length List.seq for_each].
      unfold bind at 1. rewrite draw_one_eq. cbn [nth_error fst]. rewrite Hb.
      eexists. reflexivity. }
    destruct H0 as (c1 & H0).
    assert (H1 : page_one [a; b] [(a, d1); (b, d2)] 1 c1 w = (Raise IndexError, w)).
    { unfold page_one, lift. rewrite Hm1. reflexivity. }
    apply bind_raise. rewrite (bind_step _ _ _ _ _ H0).
    apply bind_raise. exact H1.
Qed.

Lemma C10_empty_week_raises_IndexError_witness :
  let d1 := mkdt 2023 1 25 9 0 0 in
  let d2 := mkdt 2023 2 1 9 0 0 in
  let idl := [("images/a.jpg", d1); ("images/b.jpg", d2)] in
  let w := sample_images ["images/a.jpg"; "images/b.jpg"] in
  (1 <= 2 <= count_distinct (map strftime_U (map snd idl)))%nat
  /\ (forall e : entry, In e idl -> week_index (snd e) <> Z.of_nat 2)
  /\ Forall (on_disk (files w)) idl
  /\ "images/a.jpg" <> "images/b.jpg"
  /\ lookup "images/b.jpg" (files w) = Some (Resized (Scan 0 2200 1700) 700 300)
  /\ create_pdf (map fst idl) idl "Result.pdf" (map snd idl) w = (Raise IndexError, w)
  /\ dt_ltb d1 d2 = true
  /\ count_distinct (map strftime_U [d1; d2]) = 2%nat
  /\ week_index d1 = 4 /\ week_index d2 = 1.
Proof.
  intros d1 d2 idl w.
  assert (Hp : (1 <= 2 <= count_distinct (map strftime_U (map snd idl)))%nat)
    by (vm_compute; split; repeat constructor).
  assert (Hgap : forall e : entry, In e idl -> week_index (snd e) <> Z.of_nat 2).
  { intros e [<- | [<- | []]]; vm_compute; discriminate. }
  assert (Hdisk : Forall (on_disk (files w)) idl).
  { repeat constructor; unfold on_disk; vm_compute; discriminate. }
  assert (Hab : "images/a.jpg" <> "images/b.jpg") by discriminate.
  assert (Hb : lookup "images/b.jpg" (files w)
               = Some (Resized (Scan 0 2200 1700) 700 300)) by reflexivity.
  destruct C10_empty_week_raises_IndexError as (Hall & Hone).
  split; [exact Hp |]. split; [exact Hgap |]. split; [exact Hdisk |].
  split; [exact Hab |]. split; [exact Hb |].
  split; [exact (Hall idl "Result.pdf" w 2%nat Hp Hgap Hdisk) |].
  destruct (Hone 2023 9 0 0 9 0 0 _ _ "Result.pdf" w _ Hab Hb)
    as (H1 & H2 & H3 & H4 & _).
  repeat split; assumption.
Defined.

(* ================================================================== *)
(** * Further properties *)

(** ** [get_img_from_pdf] *)

Lemma str_inj a b : str a = str b -> a = b.
Proof.
  unfold str. intros H. apply DecimalZ.to_int_inj.
  assert (Hn : forall z, Z.to_int z <> Decimal.Pos Decimal.Nil
                         /\ Z.to_int z <> Decimal.Neg Decimal.Nil).
  { intros z. split; intros E; pose proof (f_equal Z.of_int E) as E0;
      rewrite DecimalZ.of_to in E0; cbn in E0; subst z; discriminate E. }
  assert (E : Some (Z.to_int a) = Some (Z.to_int b)).
  { rewrite <- (NilZero.isi (Z.to_int a)) by apply Hn.
    rewrite <- (NilZero.isi (Z.to_int b)) by apply Hn.
    rewrite H. reflexivity. }
  congruence.
Qed.

Lemma append_inj_l (p s t : string) : p ++ s = p ++ t -> s = t.
Proof. induction p as [| c p IH]; cbn; [auto | intros H; inversion H; auto]. Qed.

Lemma length_append (s t : string) :
  String.length (s ++ t) = (String.length s + String.length t)%nat.
Proof. induction s as [| c s IH]; cbn; [reflexivity | rewrite IH; reflexivity]. Qed.

Lemma append_inj_r (s t q : string) : s ++ q = t ++ q -> s = t.
Proof.
  revert t. induction s as [| c s IH]; intros [| d t] H; cbn in H.
  - reflexivity.
  - exfalso. apply (f_equal String.length) in H. cbn in H.
    rewrite length_append in H. lia.
  - exfalso. apply (f_equal String.length) in H. cbn in H.
    rewrite length_append in H. lia.
  - inversion H. f_equal. auto.
Qed.

Lemma page_path_inj dir j k : page_path dir j = page_path dir k -> j = k.
Proof.
  unfold page_path, path_join. intros H.
  apply append_inj_l in H. apply append_inj_l in H. apply append_inj_l in H.
  apply append_inj_r in H. apply str_inj in H. lia.
Qed.

Lemma store_fresh {V} k (v : V) l :
  ~ In k (map fst l) -> store k v l = (l ++ [(k, v)])%list.
Proof.
  induction l as [| [k' v'] l IH]; cbn; intros H; [reflexivity |].
  destruct (String.eqb k' k) eqn:E.
  - apply String.eqb_eq in E. tauto.
  - rewrite IH by tauto. reflexivity.
Qed.

Lemma store_keys {V} k (v : V) l :
  In k (map fst l) -> map fst (store k v l) = map fst l.
Proof.
  induction l as [| [k' v'] l IH]; cbn; intros H; [tauto |].
  destruct (String.eqb k' k) eqn:E; cbn.
  - apply String.eqb_eq in E. congruence.
  - f_equal. apply IH. destruct H as [-> | H]; [| exact H].
    rewrite String.eqb_refl in E. discriminate.
Qed.

Lemma store_in_keys {V} k q (v : V) l :
  In q (map fst (store k v l)) <-> q = k \/ In q (map fst l).
Proof.
  induction l as [| [k' v'] l IH]; cbn.
  - intuition congruence.
  - destruct (String.eqb k' k) eqn:E; cbn.
    + apply String.eqb_eq in E. subst k'. intuition congruence.
    + rewrite IH. intuition congruence.
Qed.

Lemma store_nodup {V} k (v : V) l :
  NoDup (map fst l) -> NoDup (map fst (store k v l)).
Proof.
  induction l as [| [k' v'] l IH]; cbn; intros H.
  - constructor; [intros [] | constructor].
  - inversion H as [| ? ? Hnin Hnd]; subst.
    destruct (String.eqb k' k) eqn:E; cbn.
    + apply String.eqb_eq in E. subst k'. constructor; assumption.
    + constructor; [| apply IH; exact Hnd].
      rewrite store_in_keys. intros [-> | Hin]; [| tauto].
      rewrite String.eqb_refl in E. discriminate.
Qed.

Lemma in_keys_lookup {V} k (l : list (string * V)) :
  In k (map fst l) -> exists v, lookup k l = Some v.
Proof.
  induction l as [| [k' v'] l IH]; cbn; [intros [] |].
  destruct (String.eqb k' k) eqn:E; [eauto |].
  intros [-> | H]; [rewrite String.eqb_refl in E; discriminate | auto].
Qed.

(** The loop of [get_img_from_pdf] from page [a] on. *)
Lemma save_loop dir l : forall a w,
  exists w',
    for_each (enumerate a l)
      (fun (ii : nat * raster) (_ : unit) =>
         let (idx, image) := ii in
         image_save (path_join dir ("trip_image_" ++ str (Z.of_nat idx + 1) ++ ".jpg"))
                    image)
      tt w = (Ok tt, w')
    /\ output w' = output w
    /\ (forall k page, nth_error l k = Some page ->
                       lookup (page_path dir (a + k)) (files w') = Some page)
    /\ (forall q, (forall k, (k < List.length l)%nat -> q <> page_path dir (a + k)) ->
                  lookup q (files w') = lookup q (files w))
    /\ ((forall k, (k < List.length l)%nat ->
                   ~ In (page_path dir (a + k)) (map fst (files w))) ->
        files w' = (files w
                    ++ map (fun ii : nat * raster => (page_path dir (fst ii), snd ii))
                           (enumerate a l))%list)
    /\ (NoDup (map fst (files w)) -> NoDup (map fst (files w')))
    /\ (forall q, In q (map fst (files w'))
                  <-> In q (map fst (files w))
                      \/ exists k, (k < List.length l)%nat /\ q = page_path dir (a + k)).
Proof.
  induction l as [| x l IH]; intros a w.
  - exists w. cbn. repeat split; auto.
    + intros [| k] page H; discriminate.
    + intros _. rewrite app_nil_r. reflexivity.
    + intros [H | (k & Hk & _)]; [exact H | lia].
  - cbn [enumerate for_each]. unfold bind at 1. unfold image_save at 1.
    fold (page_path dir a).
    set (w1 := mkworld (store (page_path dir a) x (files w)) (output w)).
    destruct (IH (S a) w1) as (w' & Hrun & Hout & Hget & Hkeep & Hfresh & Hnodup & Hkeys).
    exists w'. split; [exact Hrun |]. split; [rewrite Hout; reflexivity |].
    split; [| split; [| split; [| split]]].
    + intros [| k] page Hk; cbn in Hk.
      * inversion Hk; subst page. rewrite Hkeep.
        -- unfold w1. cbn [files]. rewrite Nat.add_0_r. apply lookup_store_same.
        -- intros k _ E. rewrite Nat.add_0_r in E. apply page_path_inj in E. lia.
      * replace (a + S k)%nat with (S a + k)%nat by lia. apply Hget. exact Hk.
    + intros q Hq. rewrite Hkeep.
      * unfold w1. cbn [files]. apply lookup_store_other.
        specialize (Hq 0%nat ltac:(cbn; lia)). rewrite Nat.add_0_r in Hq. exact Hq.
      * intros k Hk. replace (S a + k)%nat with (a + S k)%nat by lia.
        apply Hq. cbn. lia.
    + intros Hnew. rewrite Hfresh.
      * unfold w1. cbn [files map fst snd].
        rewrite store_fresh.
        -- rewrite <- app_assoc. reflexivity.
        -- specialize (Hnew 0%nat ltac:(cbn; lia)). rewrite Nat.add_0_r in Hnew. exact Hnew.
      * intros k Hk. unfold w1. cbn [files].
        rewrite store_fresh.
        -- rewrite map_app. cbn [map fst]. intros Hin. apply in_app_or in Hin.
           destruct Hin as [Hin | [E | []]].
           ++ apply (Hnew (S k)); [cbn; lia |].
              replace (a + S k)%nat with (S a + k)%nat by lia. exact Hin.
           ++ apply page_path_inj in E. lia.
        -- specialize (Hnew 0%nat ltac:(cbn; lia)). rewrite Nat.add_0_r in Hnew. exact Hnew.
    + intros Hnd. apply Hnodup. unfold w1. cbn [files]. apply store_nodup. exact Hnd.
    + intros q. rewrite Hkeys. unfold w1. cbn [files List.length].
      rewrite store_in_keys. split.
      * intros [[-> | H] | (k & Hk & ->)].
        -- right. exists 0%nat. split; [lia |]. rewrite Nat.add_0_r. reflexivity.
        -- left. exact H.
        -- right. exists (S k). split; [lia |]. f_equal. lia.
      * intros [H | (k & Hk & ->)]; [left; right; exact H |].
        destruct k as [| k].
        -- left. left. rewrite Nat.add_0_r. reflexivity.
        -- right. exists k. split; [lia |]. f_equal. lia.
Qed.

(** X1: when [get_img_from_pdf] completes, page [k] of the PDF (from 0) is
    the file [trip_image_<k+1>.jpg] of the images directory, a file of any
    other name is as it was before, and no output file is written. *)
Theorem X1_pages_saved_under_their_numbers pdf dir path w w' :
  get_img_from_pdf pdf dir path w = (Ok tt, w') ->
  output w' = output w
  /\ (forall k page, nth_error (pdf path) k = Some page ->
                     lookup (page_path dir k) (files w') = Some page)
  /\ (forall q, (forall k, (k < List.length (pdf path))%nat -> q <> page_path dir k) ->
                lookup q (files w') = lookup q (files w)).
Proof.
  intros H.
  destruct (save_loop dir (pdf path) 0%nat w) as (w1 & Hrun & Hout & Hget & Hkeep & _ & _ & _).
  change (get_img_from_pdf pdf dir path w = (Ok tt, w1)) in Hrun.
  rewrite Hrun in H. inversion H; subst w1. auto.
Qed.

Lemma X1_pages_saved_under_their_numbers_witness :
  let pdf := fun _ : string => [Scan 1 2200 1700; Scan 2 2200 1700] in
  let w := mkworld [("images/old.jpg", Scan 4 2200 1700)] None in
  let w' := mkworld [("images/old.jpg", Scan 4 2200 1700);
                     ("images/trip_image_1.jpg", Scan 1 2200 1700);
                     ("images/trip_image_2.jpg", Scan 2 2200 1700)] None in
  get_img_from_pdf pdf "images" "Shuffled_images.pdf" w = (Ok tt, w')
  /\ output w' = output w
  /\ (forall k page, nth_error (pdf "Shuffled_images.pdf") k = Some page ->
                     lookup (page_path "images" k) (files w') = Some page)
  /\ (forall q, (forall k, (k < List.length (pdf "Shuffled_images.pdf"))%nat ->
                           q <> page_path "images" k) ->
                lookup q (files w') = lookup q (files w)).
Proof.
  intros pdf w w'.
  assert (Hrun : get_img_from_pdf pdf "images" "Shuffled_images.pdf" w = (Ok tt, w'))
    by (vm_compute; reflexivity).
  split; [exact Hrun |].
  exact (X1_pages_saved_under_their_numbers pdf "images" "Shuffled_images.pdf" w w' Hrun).
Defined.

(** X2: in an empty images directory [get_img_from_pdf] leaves one file for
    each page of the PDF, in the order of the pages, and no two of them have
    the same path. *)
Theorem X2_empty_directory_holds_the_pages pdf dir path out :
  let saved_files := map (fun ii : nat * raster => (page_path dir (fst ii), snd ii))
                         (enumerate 0 (pdf path)) in
  get_img_from_pdf pdf dir path (mkworld [] out) = (Ok tt, mkworld saved_files out)
  /\ map snd saved_files = pdf path
  /\ NoDup (map fst saved_files).
Proof.
  intros saved_files.
  destruct (save_loop dir (pdf path) 0%nat (mkworld [] out))
    as (w' & Hrun & Hout & _ & _ & Hfiles & _ & _).
  cbn [files output] in *. specialize (Hfiles (fun _ _ H => H)).
  split; [| split].
  - unfold get_img_from_pdf. rewrite Hrun. destruct w' as [f o]. cbn in *. subst. reflexivity.
  - unfold saved_files. rewrite map_map. cbn [snd]. clear.
    generalize 0%nat. induction (pdf path) as [| x l IH]; intros a; cbn; [reflexivity |].
    rewrite IH. reflexivity.
  - unfold saved_files. rewrite map_map. cbn [fst]. clear.
    assert (H : forall l a, NoDup (map (fun ii : nat * raster => page_path dir (fst ii))
                                       (enumerate a l))
                            /\ forall p, In p (map (fun ii : nat * raster => page_path dir (fst ii))
                                                   (enumerate a l)) ->
                                         exists k, (a <= k)%nat /\ p = page_path dir k).
    { induction l as [| x l IH]; intros a; cbn [enumerate map fst].
      - split; [constructor | intros p []].
      - destruct (IH (S a)) as (Hnd & Hin). split.
        + constructor; [| exact Hnd]. intros Hp. apply Hin in Hp.
          destruct Hp as (k & Hk & E). apply page_path_inj in E. lia.
        + intros p [<- | Hp]; [exists a; split; [lia | reflexivity] |].
          apply Hin in Hp. destruct Hp as (k & Hk & E). exists k. split; [lia | exact E]. }
    apply H.
Qed.

(** ** The crop step *)

Section CropComplete.
Variable ocr : raster -> string.
Variables drx erx : Re.regex.
Hypothesis drx_consumes : nullable drx = false.

Lemma crop_one_appends path acc w acc' w' :
  crop_one ocr drx erx path acc w = (Ok acc', w') ->
  exists img d,
    lookup path (files w) = Some img
    /\ acc' = (acc ++ [(path, d)])%list
    /\ exists out, cropped_from ocr drx erx img out d
                   /\ w' = mkworld (store path out (files w)) (output w).
Proof.
  intros H. apply crop_one_ok in H.
  destruct H as (img & pos & m & end_ & Hl & Hs & He & _ & Hw & Hm).
  destruct m as [| c m].
  - exfalso. unfold Re.search in Hs.
    eapply search_from_nonempty in Hs; [apply Hs; reflexivity | exact drx_consumes].
  - destruct Hm as (d & Hd & ->). exists img, d. repeat split; auto.
    eexists. split; [| exact Hw]. exists pos, (String c m), end_. auto.
Qed.

Lemma crop_loop_complete listing : forall acc w acc' w',
  for_each listing (crop_one ocr drx erx) acc w = (Ok acc', w') ->
  NoDup listing ->
  exists added,
    acc' = (acc ++ added)%list
    /\ map fst added = listing
    /\ map fst (files w') = map fst (files w)
    /\ (forall p, ~ In p listing -> lookup p (files w') = lookup p (files w))
    /\ forall p d, In (p, d) added ->
         exists img out, lookup p (files w) = Some img
                         /\ lookup p (files w') = Some out
                         /\ cropped_from ocr drx erx img out d.
Proof.
  induction listing as [| x listing IH]; intros acc w acc' w' H Hnd.
  - cbn in H. inversion H; subst. exists []. rewrite app_nil_r.
    repeat split; auto. intros p d [].
  - cbn [for_each] in H. apply bind_ok in H. destruct H as (acc1 & w1 & H1 & H2).
    apply crop_one_appends in H1.
    destruct H1 as (img & d & Hl & -> & out & Hc & ->).
    inversion Hnd as [| ? ? Hx Hnd']; subst.
    apply IH in H2; [| exact Hnd'].
    destruct H2 as (added & -> & Hkeys & Hfs & Hother & Hadded). cbn [files] in *.
    exists ((x, d) :: added). split; [rewrite <- app_assoc; reflexivity |].
    split; [cbn; rewrite Hkeys; reflexivity |].
    split; [rewrite Hfs; apply store_keys; eapply lookup_in_keys; eauto |].
    split.
    + intros p Hp. rewrite Hother by (intros Hin; apply Hp; right; exact Hin).
      apply lookup_store_other. intros ->. apply Hp. left. reflexivity.
    + intros p d' [E | Hin].
      * inversion E; subst p d'. exists img, out. split; [exact Hl |]. split; [| exact Hc].
        rewrite Hother by exact Hx. apply lookup_store_same.
      * destruct (Hadded p d' Hin) as (img' & out' & Hl' & Hl'' & Hc').
        exists img', out'. split; [| split; assumption].
        rewrite lookup_store_other in Hl'; [exact Hl' |].
        intros ->. apply Hx. rewrite <- Hkeys.
        change x with (fst (x, d')). apply in_map. exact Hin.
Qed.
End CropComplete.

(** What the crop step does to a directory when it completes. *)
Lemma crop_step_complete ocr drx erx w idl il dl w' :
  nullable drx = false ->
  NoDup (map fst (files w)) ->
  crop_img_n_get_date ocr drx erx w = (Ok (idl, il, dl), w') ->
  Permutation il (map fst (files w))
  /\ map fst (files w') = map fst (files w)
  /\ forall p d, In (p, d) idl ->
       exists img out, lookup p (files w) = Some img
                       /\ lookup p (files w') = Some out
                       /\ cropped_from ocr drx erx img out d.
Proof.
  intros Hnn Hnd H. unfold crop_img_n_get_date in H.
  apply bind_ok in H. destruct H as (listing & w0 & Hl & H).
  unfold listdir in Hl. inversion Hl; subst listing w0. clear Hl.
  apply bind_ok in H. destruct H as (acc & w1 & Hloop & H).
  unfold ret in H. inversion H; subst. clear H.
  apply crop_loop_complete in Hloop; [| exact Hnn | exact Hnd].
  destruct Hloop as (added & -> & Hkeys & Hfs & _ & Hadded). cbn [app] in *.
  split; [| split].
  - rewrite <- Hkeys. apply Permutation_map, sort_perm.
  - exact Hfs.
  - intros p d Hin.
    assert (Hin' : In (p, d) added).
    { eapply Permutation_in; [apply (sort_perm snd dt_ltb) | exact Hin]. }
    destruct (Hadded p d Hin') as (img & out & H1 & H2 & H3).
    exists img, out. auto.
Qed.



(** ** How [create_pdf] ends *)

Lemma draw_loop_raise l2 : forall l1 c w e w',
  for_each (List.seq (List.length l1) (List.length l2)) (draw_one (l1 ++ l2)) c w
    = (Raise e, w') ->
  w' = w /\ e = FileNotFoundError
  /\ exists x, In x l2 /\ lookup (fst x) (files w) = None.
Proof.
  induction l2 as [| x l2 IH]; intros l1 c w e w' H.
  - cbn in H. discriminate.
  - cbn [List.length List.seq for_each] in H. unfold bind in H.
    rewrite draw_one_eq in H.
    rewrite nth_error_app2, Nat.sub_diag in H by lia. cbn [nth_error] in H.
    destruct (lookup (fst x) (files w)) eqn:Hl.
    + replace (l1 ++ x :: l2)%list with ((l1 ++ [x]) ++ l2)%list in H
        by (rewrite <- app_assoc; reflexivity).
      replace (S (List.length l1)) with (List.length (l1 ++ [x])) in H
        by (rewrite length_app; cbn; lia).
      apply IH in H. destruct H as (-> & -> & y & Hy & Hn).
      repeat split; auto. exists y. split; [right; exact Hy | exact Hn].
    + inversion H; subst. repeat split; auto. exists x. split; [left; reflexivity | exact Hl].
Qed.

Lemma page_one_raise il idl i c w e w' :
  page_one il idl i c w = (Raise e, w') ->
  w' = w
  /\ (page_members il idl i = Raise e
      \/ exists m x, page_members il idl i = Ok m /\ e = FileNotFoundError
                     /\ In x m /\ lookup (fst x) (files w) = None).
Proof.
  unfold page_one, lift. unfold bind at 1.
  destruct (page_members il idl i) as [m | e0].
  - intros H. apply (draw_loop_raise m []) in H. destruct H as (-> & -> & x & Hx & Hn).
    split; [reflexivity |]. right. exists m, x. auto.
  - intros H. inversion H; subst. auto.
Qed.

Lemma filter_none {A} (p : A -> bool) l :
  (forall x, In x l -> p x = false) -> filter p l = [].
Proof.
  induction l as [| x l IH]; intros H; [reflexivity |]. cbn.
  rewrite (H x) by (left; reflexivity). apply IH. intros y Hy. apply H. right. exact Hy.
Qed.

(** Without an entry of week index [i + 1], page [i + 1] raises IndexError,
    whatever the list of names is. *)
Lemma page_members_empty il idl i :
  (forall x, In x idl -> in_week i x = false) ->
  page_members il idl i = Raise IndexError.
Proof.
  intros Hnone. unfold page_members.
  change (fun e : entry => week_index (snd e) =? Z.of_nat i + 1) with (in_week i).
  rewrite (filter_none _ _ Hnone). reflexivity.
Qed.

(** A page whose members cannot be found has no entry of its week index:
    the names of the timeline are all in the list of names. *)
Lemma page_members_raise idl i e :
  page_members (map fst idl) idl i = Raise e ->
  e = IndexError /\ forall x, In x idl -> in_week i x = false.
Proof.
  intros H.
  assert (Hnone : forall x, In x idl -> in_week i x = false).
  { intros x Hx. destruct (in_week i x) eqn:Hw; [| reflexivity].
    destruct (page_members_total idl i x Hx Hw) as (m & Hm). congruence. }
  split; [| exact Hnone].
  rewrite (page_members_empty _ _ _ Hnone) in H. congruence.
Qed.

Lemma pages_loop_raise il idl k : forall a c w e w',
  for_each (List.seq a k) (page_one il idl) c w = (Raise e, w') ->
  w' = w
  /\ exists i, (a <= i < a + k)%nat
       /\ (page_members il idl i = Raise e
           \/ exists m x, page_members il idl i = Ok m /\ e = FileNotFoundError
                          /\ In x m /\ lookup (fst x) (files w) = None).
Proof.
  induction k as [| k IH]; intros a c w e w' H.
  - cbn in H. discriminate.
  - cbn [List.seq for_each] in H. unfold bind in H.
    destruct (page_one il idl a c w) as [[c1 | e1] w1] eqn:E.
    + apply page_one_ok in E. destruct E as (m & _ & _ & -> & _).
      apply IH in H. destruct H as (-> & i & Hi & Hwhy).
      split; [reflexivity |]. exists i. split; [lia | exact Hwhy].
    + inversion H; subst. apply page_one_raise in E. destruct E as (-> & Hwhy).
      split; [reflexivity |]. exists a. split; [lia | exact Hwhy].
Qed.

Lemma create_pdf_raise il idl path dl w e w' :
  create_pdf il idl path dl w = (Raise e, w') ->
  w' = w
  /\ exists i, (i < count_distinct (map strftime_U dl))%nat
       /\ (page_members il idl i = Raise e
           \/ exists m x, page_members il idl i = Ok m /\ e = FileNotFoundError
                          /\ In x m /\ lookup (fst x) (files w) = None).
Proof.
  unfold create_pdf. unfold bind at 1.
  destruct (for_each _ _ _ w) as [[c1 | e1] w1] eqn:E.
  - unfold canvas_save. discriminate.
  - intros H. inversion H; subst. apply pages_loop_raise in E.
    destruct E as (-> & i & Hi & Hwhy). split; [reflexivity |].
    exists i. split; [lia | exact Hwhy].
Qed.

(** X4: [create_pdf], called as [main_caller] calls it, never writes,
    replaces or removes a file of the images directory.  It ends in one of
    three ways: it saves a document; or it raises IndexError, and then some
    page up to the number of calendar weeks has no entry of its week index;
    or it raises FileNotFoundError, and then an image of the timeline is not
    in the directory.  When it raises, no output file has been written. *)
Theorem X4_create_pdf_outcomes idl path dl w r w' :
  create_pdf (map fst idl) idl path dl w = (r, w') ->
  files w' = files w
  /\ match r with
     | Ok _ => exists doc, output w' = Some doc
     | Raise e =>
         w' = w
         /\ ((e = IndexError
              /\ exists i, (i < count_distinct (map strftime_U dl))%nat
                   /\ forall x, In x idl -> week_index (snd x) <> Z.of_nat i + 1)
             \/ (e = FileNotFoundError
                 /\ exists x, In x idl /\ lookup (fst x) (files w) = None))
     end.
Proof.
  intros H. destruct r as [[] | e].
  - apply create_pdf_ok in H. destruct H as (ms & _ & Hf & Hout). eauto.
  - apply create_pdf_raise in H. destruct H as (-> & i & Hi & Hwhy).
    split; [reflexivity |]. split; [reflexivity |].
    destruct Hwhy as [Hm | (m & x & Hm & -> & Hx & Hn)].
    + apply page_members_raise in Hm. destruct Hm as (-> & Hnone).
      left. split; [reflexivity |]. exists i. split; [exact Hi |].
      intros x Hx. apply in_week_false, Hnone, Hx.
    + right. split; [reflexivity |]. exists x. split; [| exact Hn].
      eapply page_members_incl; eauto.
Qed.

Lemma X4_create_pdf_outcomes_witness :
  let w := sample_images ["images/a.jpg"] in
  create_pdf (map fst timeline_feb) timeline_feb "Result.pdf" (map snd timeline_feb) w
    = (Raise FileNotFoundError, w)
  /\ files w = files w
  /\ w = w
  /\ ((FileNotFoundError = IndexError
       /\ exists i, (i < count_distinct (map strftime_U (map snd timeline_feb)))%nat
            /\ forall x, In x timeline_feb -> week_index (snd x) <> Z.of_nat i + 1)
      \/ (FileNotFoundError = FileNotFoundError
          /\ exists x, In x timeline_feb /\ lookup (fst x) (files w) = None)).
Proof.
  intros w.
  assert (Hrun : create_pdf (map fst timeline_feb) timeline_feb "Result.pdf"
                            (map snd timeline_feb) w = (Raise FileNotFoundError, w))
    by (vm_compute; reflexivity).
  split; [exact Hrun |].
  exact (X4_create_pdf_outcomes timeline_feb "Result.pdf" (map snd timeline_feb) w _ _ Hrun).
Defined.

(** ** What is on the pages *)

(** The operations of the pages of a saved document, one by one. *)
Lemma document_nth fs ms i page :
  ms <> [] ->
  nth_error (document fs ms) i = Some page ->
  exists m, nth_error ms i = Some m
    /\ page = ((match i with O => [SetFont "Helvetica" 12] | S _ => [] end)
               ++ page_body fs i m)%list.
Proof.
  destruct ms as [| m0 ms]; [congruence |]. intros _.
  unfold document. destruct i as [| i]; cbn [nth_error].
  - intros H. inversion H; subst. exists m0. split; reflexivity.
  - rewrite nth_error_map, nth_error_enumerate.
    destruct (nth_error ms i) as [m |]; [| discriminate].
    cbn. intros H. inversion H; subst. exists m. split; reflexivity.
Qed.

(** A page of the document that [create_pdf] saves: the only page of a
    document without weeks holds the font and nothing else, and any other
    page is the page of its members. *)
Lemma saved_page il idl path dl w w' doc i page :
  create_pdf il idl path dl w = (Ok tt, w') ->
  output w' = Some doc ->
  nth_error doc i = Some page ->
  (count_distinct (map strftime_U dl) = 0%nat /\ i = 0%nat
   /\ page = [SetFont "Helvetica" 12])
  \/ ((i < count_distinct (map strftime_U dl))%nat
      /\ exists m, page_members il idl i = Ok m
           /\ Forall (on_disk (files w)) m
           /\ page = ((match i with O => [SetFont "Helvetica" 12] | S _ => [] end)
                      ++ page_body (files w) i m)%list).
Proof.
  intros H Hout Hpage. apply create_pdf_ok in H. destruct H as (ms & HF & _ & Hout').
  rewrite Hout in Hout'. inversion Hout'; subst doc. clear Hout'.
  pose proof (pages_length _ _ _ _ _ HF) as Hlen.
  destruct ms as [| m0 ms'] eqn:Hms.
  - left. cbn in Hlen. split; [auto |].
    cbn in Hpage. destruct i as [| [| i]]; cbn in Hpage; try discriminate.
    inversion Hpage. auto.
  - right. rewrite <- Hms in *.
    apply document_nth in Hpage; [| congruence]. destruct Hpage as (m & Hm & ->).
    destruct (Forall2_nth_error _ _ _ _ _ HF Hm) as (i' & Hi' & Hpm & Hall).
    apply nth_error_seq_0 in Hi'. subst i'.
    split.
    + rewrite <- Hlen. apply nth_error_Some. congruence.
    + exists m. auto.
Qed.

(** The members of a page hold every entry of its week index. *)
Lemma page_members_complete idl i m x :
  NoDup (map fst idl) ->
  page_members (map fst idl) idl i = Ok m ->
  In x idl -> in_week i x = true -> In x m.
Proof.
  intros Hnd Hm Hx Hw.
  destruct (page_members_run _ _ _ Hnd Hm)
    as (pre & post & _ & _ & Hidl & _ & _ & _ & _ & Hpre & Hpost).
  rewrite Hidl in Hx. rewrite Forall_forall in Hpre, Hpost.
  apply in_app_or in Hx. destruct Hx as [Hx | Hx].
  - specialize (Hpre x Hx). congruence.
  - apply in_app_or in Hx. destruct Hx as [Hx | Hx]; [exact Hx |].
    specialize (Hpost x Hx). congruence.
Qed.

(** X5: the image of an entry whose week index is at most the number of
    calendar weeks is opened: when it is not in the directory, and every
    page has an entry, [create_pdf] raises FileNotFoundError and saves
    nothing. *)
Theorem X5_missing_image_raises idl path dl w x i :
  NoDup (map fst idl) ->
  (forall j, (j < count_distinct (map strftime_U dl))%nat ->
             exists e, In e idl /\ week_index (snd e) = Z.of_nat j + 1) ->
  In x idl ->
  week_index (snd x) = Z.of_nat i + 1 ->
  (i < count_distinct (map strftime_U dl))%nat ->
  lookup (fst x) (files w) = None ->
  create_pdf (map fst idl) idl path dl w = (Raise FileNotFoundError, w).
Proof.
  intros Hnd Hweeks Hx Hw Hi Hmiss.
  destruct (create_pdf (map fst idl) idl path dl w) as [[[] | e] w'] eqn:E.
  - exfalso. apply create_pdf_ok in E. destruct E as (ms & HF & _ & _).
    assert (Hm : exists m, nth_error ms i = Some m).
    { destruct (nth_error ms i) eqn:Hn; [eauto |].
      apply nth_error_None in Hn. rewrite (pages_length _ _ _ _ _ HF) in Hn. lia. }
    destruct Hm as (m & Hm).
    destruct (Forall2_nth_error _ _ _ _ _ HF Hm) as (i' & Hi' & Hpm & Hall).
    apply nth_error_seq_0 in Hi'. subst i'.
    assert (Hin : In x m).
    { eapply page_members_complete; eauto. apply in_week_true. exact Hw. }
    rewrite Forall_forall in Hall. apply (Hall x Hin). exact Hmiss.
  - apply create_pdf_raise in E. destruct E as (-> & j & Hj & Hwhy).
    destruct Hwhy as [Hm | (m & y & _ & -> & _)]; [| reflexivity].
    exfalso. apply page_members_raise in Hm. destruct Hm as (_ & Hnone).
    destruct (Hweeks j Hj) as (e' & He' & Hw').
    apply in_week_true in Hw'. rewrite (Hnone e' He') in Hw'. discriminate.
Qed.

Lemma X5_missing_image_raises_witness :
  let w := sample_images ["images/a.jpg"] in
  let x := ("images/b.jpg", mkdt 2023 2 7 22 0 0) in
  NoDup (map fst timeline_feb)
  /\ In x timeline_feb
  /\ week_index (snd x) = Z.of_nat 0 + 1
  /\ lookup (fst x) (files w) = None
  /\ create_pdf (map fst timeline_feb) timeline_feb "Result.pdf" (map snd timeline_feb) w
     = (Raise FileNotFoundError, w).
Proof.
  intros w x.
  assert (Hnd : NoDup (map fst timeline_feb)).
  { repeat constructor; cbn; intuition discriminate. }
  assert (Hx : In x timeline_feb) by (left; reflexivity).
  assert (Hw : week_index (snd x) = Z.of_nat 0 + 1) by reflexivity.
  assert (Hmiss : lookup (fst x) (files w) = None) by reflexivity.
  assert (Hn : count_distinct (map strftime_U (map snd timeline_feb)) = 1%nat)
    by (vm_compute; reflexivity).
  split; [exact Hnd |]. split; [exact Hx |]. split; [exact Hw |]. split; [exact Hmiss |].
  assert (Hweeks : forall j, (j < count_distinct (map strftime_U (map snd timeline_feb)))%nat ->
                             exists e, In e timeline_feb /\ week_index (snd e) = Z.of_nat j + 1).
  { rewrite Hn. intros j Hj. exists x. split; [exact Hx |].
    replace j with 0%nat by lia. exact Hw. }
  assert (Hi : (0 < count_distinct (map strftime_U (map snd timeline_feb)))%nat)
    by (rewrite Hn; lia).
  exact (X5_missing_image_raises timeline_feb "Result.pdf" (map snd timeline_feb) w x 0
           Hnd Hweeks Hx Hw Hi Hmiss).
Defined.

(** X6: in a saved document every entry whose week index is at most the
    number of pages is drawn on the page of its week index, with its file
    and the label of its date. *)
Theorem X6_entries_are_on_the_page_of_their_week idl path dl w w' x i :
  NoDup (map fst idl) ->
  create_pdf (map fst idl) idl path dl w = (Ok tt, w') ->
  In x idl ->
  week_index (snd x) = Z.of_nat i + 1 ->
  (i < count_distinct (map strftime_U dl))%nat ->
  exists doc page c,
    output w' = Some doc
    /\ nth_error doc i = Some page
    /\ In c (cells page)
    /\ image_file c = fst x
    /\ label c = strftime_B_d_Y (snd x).
Proof.
  intros Hnd H Hx Hw Hi.
  apply create_pdf_ok in H. destruct H as (ms & HF & _ & Hout).
  pose proof (pages_length _ _ _ _ _ HF) as Hlen.
  assert (Hm : exists m, nth_error ms i = Some m).
  { destruct (nth_error ms i) eqn:Hn; [eauto |].
    apply nth_error_None in Hn. lia. }
  destruct Hm as (m & Hm).
  destruct (Forall2_nth_error _ _ _ _ _ HF Hm) as (i' & Hi' & Hpm & Hall).
  apply nth_error_seq_0 in Hi'. subst i'.
  assert (Hin : In x m).
  { eapply page_members_complete; eauto. apply in_week_true. exact Hw. }
  assert (Hms : ms <> []) by (intros ->; destruct i; discriminate).
  assert (Hp : exists page, nth_error (document (files w) ms) i = Some page).
  { destruct (nth_error (document (files w) ms) i) eqn:Hn; [eauto |].
    apply nth_error_None in Hn. rewrite length_document in Hn by exact Hms. lia. }
  destruct Hp as (page & Hp).
  destruct (document_page _ _ _ _ Hms Hp) as (m' & Hm' & Hcells).
  rewrite Hm in Hm'. inversion Hm'; subst m'.
  apply In_nth_error in Hin. destruct Hin as (idx & Hidx).
  exists (document (files w) ms), page, (cell_at (files w) idx x).
  split; [exact Hout |]. split; [exact Hp |]. split; [| split; reflexivity].
  rewrite Hcells. apply in_map_iff. exists (idx, x). split; [reflexivity |].
  apply nth_error_In with (n := idx). rewrite nth_error_enumerate.
  unfold entry in *. rewrite Hidx. reflexivity.
Qed.

Lemma X6_entries_are_on_the_page_of_their_week_witness :
  let w := sample_images ["images/a.jpg"; "images/b.jpg"] in
  let x := ("images/b.jpg", mkdt 2023 2 7 22 0 0) in
  let doc := [[SetFont "Helvetica" 12; DrawString 275 800 "Week 1";
               DrawString 50 780 "February 07, 2023";
               DrawImage "images/b.jpg" 50 680 220 94]] in
  NoDup (map fst timeline_feb)
  /\ create_pdf (map fst timeline_feb) timeline_feb "Result.pdf" (map snd timeline_feb) w
     = (Ok tt, mkworld (files w) (Some doc))
  /\ In x timeline_feb
  /\ week_index (snd x) = Z.of_nat 0 + 1
  /\ exists doc' page c,
       output (mkworld (files w) (Some doc)) = Some doc'
       /\ nth_error doc' 0 = Some page
       /\ In c (cells page)
       /\ image_file c = fst x
       /\ label c = strftime_B_d_Y (snd x).
Proof.
  intros w x doc.
  assert (Hnd : NoDup (map fst timeline_feb)).
  { repeat constructor; cbn; intuition discriminate. }
  assert (Hrun : create_pdf (map fst timeline_feb) timeline_feb "Result.pdf"
                            (map snd timeline_feb) w
                 = (Ok tt, mkworld (files w) (Some doc)))
    by (vm_compute; reflexivity).
  assert (Hx : In x timeline_feb) by (left; reflexivity).
  assert (Hw : week_index (snd x) = Z.of_nat 0 + 1) by reflexivity.
  assert (Hn : (0 < count_distinct (map strftime_U (map snd timeline_feb)))%nat)
    by (vm_compute; lia).
  split; [exact Hnd |]. split; [exact Hrun |]. split; [exact Hx |]. split; [exact Hw |].
  exact (X6_entries_are_on_the_page_of_their_week timeline_feb "Result.pdf" _ w _ x 0
           Hnd Hrun Hx Hw Hn).
Defined.

(** ** The timeline of one month *)

Lemma sorted_app_inv {A} (R : A -> A -> Prop) l1 : forall l2,
  StronglySorted R (l1 ++ l2) ->
  StronglySorted R l1 /\ StronglySorted R l2.
Proof.
  induction l1 as [| x l1 IH]; intros l2 H.
  - split; [constructor | exact H].
  - cbn in H. inversion H as [| ? ? Hs Hall]; subst.
    destruct (IH _ Hs) as (H1 & H2). split; [| exact H2].
    constructor; [exact H1 |].
    rewrite Forall_app in Hall. tauto.
Qed.

Lemma sorted_first {A} (R : A -> A -> Prop) m x z :
  StronglySorted R m -> first m = Ok x -> In z m -> z = x \/ R x z.
Proof.
  intros Hs Hx Hz. destruct m as [| a m]; [discriminate |].
  cbn in Hx. inversion Hx; subst a.
  inversion Hs as [| ? ? _ Hall]; subst. rewrite Forall_forall in Hall.
  destruct Hz as [<- | Hz]; auto.
Qed.

Lemma sorted_final {A} (R : A -> A -> Prop) m : forall y z,
  StronglySorted R m -> final m = Ok y -> In z m -> z = y \/ R z y.
Proof.
  induction m as [| a m IH]; intros y z Hs Hy Hz; [destruct Hz |].
  inversion Hs as [| ? ? Hs' Hall]; subst. rewrite Forall_forall in Hall.
  destruct m as [| b m].
  - cbn in Hy. inversion Hy; subst. destruct Hz as [<- | []]. auto.
  - rewrite final_cons in Hy by discriminate.
    destruct Hz as [<- | Hz].
    + right. apply Hall. destruct (final_in (b :: m)) as (y' & Hy' & Hin); [discriminate |].
      congruence.
    + eapply IH; eauto.
Qed.

Lemma filter_all {A} (p : A -> bool) l :
  (forall x, In x l -> p x = true) -> filter p l = l.
Proof.
  induction l as [| x l IH]; intros H; [reflexivity |]. cbn.
  rewrite (H x) by (left; reflexivity). f_equal. apply IH.
  intros y Hy. apply H. right. exact Hy.
Qed.

(** On a timeline whose week indexes do not decrease, the members of a page
    are the entries of its week index and no other. *)
Lemma page_members_filter idl i m :
  NoDup (map fst idl) ->
  StronglySorted (fun a b : entry => week_index (snd a) <= week_index (snd b)) idl ->
  page_members (map fst idl) idl i = Ok m ->
  m = filter (in_week i) idl.
Proof.
  intros Hnd Hs Hm.
  destruct (page_members_run _ _ _ Hnd Hm)
    as (pre & post & x & y & Hidl & Hx & Hwx & Hy & Hwy & Hpre & Hpost).
  rewrite Hidl in *. rewrite !filter_app.
  rewrite Forall_forall in Hpre, Hpost.
  rewrite (filter_none _ _ Hpre), (filter_none _ _ Hpost), app_nil_r. cbn [app].
  symmetry. apply filter_all. intros z Hz.
  apply sorted_app_inv in Hs. destruct Hs as (_ & Hs).
  apply sorted_app_inv in Hs. destruct Hs as (Hs & _).
  apply in_week_true in Hwx. apply in_week_true in Hwy. apply in_week_true.
  destruct (sorted_first _ _ _ _ Hs Hx Hz) as [-> | H1]; [exact Hwx |].
  destruct (sorted_final _ _ _ _ Hs Hy Hz) as [-> | H2]; [exact Hwy |].
  lia.
Qed.

(** Sorted by date within one month, the days do not decrease. *)
Lemma month_sorted_by_week idl y mo :
  StronglySorted (ascending snd dt_ltb) idl ->
  (forall x : entry, In x idl -> year (snd x) = y /\ month (snd x) = mo) ->
  StronglySorted (fun a b : entry => week_index (snd a) <= week_index (snd b)) idl.
Proof.
  intros Hs. induction Hs as [| a l Hs IH Hall]; intros Hym; [constructor |].
  constructor.
  - apply IH. intros x Hx. apply Hym. right. exact Hx.
  - rewrite Forall_forall in *. intros b Hb. specialize (Hall b Hb).
    destruct (Hym a (or_introl eq_refl)) as (Hya & Hma).
    destruct (Hym b (or_intror Hb)) as (Hyb & Hmb).
    unfold ascending, dt_ltb, dt_compare, fields in Hall.
    cbn [lex_compare] in Hall. rewrite Hya, Hyb, Hma, Hmb in Hall.
    rewrite !Z.compare_refl in Hall.
    assert (Hd : day (snd a) <= day (snd b)).
    { destruct (day (snd b) ?= day (snd a)) eqn:E.
      - apply Z.compare_eq in E. lia.
      - discriminate.
      - apply Z.compare_gt_iff in E. lia. }
    unfold week_index.
    pose proof (Z.div_le_mono (day (snd a) - 1) (day (snd b) - 1) 7 ltac:(lia) ltac:(lia)).
    lia.
Qed.

Lemma NoDup_fst_inj (l : list entry) a b :
  NoDup (map fst l) -> In a l -> In b l -> fst a = fst b -> a = b.
Proof.
  induction l as [| e l IH]; intros Hnd Ha Hb Hab; [destruct Ha |].
  cbn in Hnd. inversion Hnd as [| ? ? Hnin Hnd']; subst.
  destruct Ha as [-> | Ha], Hb as [-> | Hb]; auto.
  - exfalso. apply Hnin. rewrite Hab. apply in_map. exact Hb.
  - exfalso. apply Hnin. rewrite <- Hab. apply in_map. exact Ha.
Qed.

Lemma cells_labels fs m : forall a,
  map (fun c => (image_file c, label c))
      (map (fun ie : nat * entry => cell_at fs (fst ie) (snd ie)) (enumerate a m))
  = map (fun e : entry => (fst e, strftime_B_d_Y (snd e))) m.
Proof.
  induction m as [| e m IH]; intros a; [reflexivity |].
  cbn [enumerate map fst snd]. rewrite IH. reflexivity.
Qed.

(** X7: for a timeline of one month, sorted by date as the crop step leaves
    it, each page of a saved document holds the entries of its week index,
    all of them and no other, in the order of the timeline.  An entry whose
    week index is above the number of calendar weeks is on no page: it is
    left out without an error. *)
Theorem X7_one_month_pages_are_the_weeks idl path w w' y mo :
  NoDup (map fst idl) ->
  StronglySorted (ascending snd dt_ltb) idl ->
  (forall x : entry, In x idl -> year (snd x) = y /\ month (snd x) = mo) ->
  create_pdf (map fst idl) idl path (map snd idl) w = (Ok tt, w') ->
  exists doc,
    output w' = Some doc
    /\ (forall i page,
          nth_error doc i = Some page ->
          map (fun c => (image_file c, label c)) (cells page)
          = map (fun e : entry => (fst e, strftime_B_d_Y (snd e)))
                (filter (in_week i) idl))
    /\ (forall x page c,
          In x idl ->
          Z.of_nat (count_distinct (map strftime_U (map snd idl))) < week_index (snd x) ->
          In page doc -> In c (cells page) -> image_file c <> fst x).
Proof.
  intros Hnd Hs Hym H.
  pose proof (month_sorted_by_week _ _ _ Hs Hym) as Hmono.
  pose proof H as Hok. apply create_pdf_ok in Hok. destruct Hok as (ms & _ & _ & Hout).
  exists (document (files w) ms). split; [exact Hout |].
  assert (Hpages : forall i page,
            nth_error (document (files w) ms) i = Some page ->
            (i < Nat.max 1 (count_distinct (map strftime_U (map snd idl))))%nat
            /\ cells page
               = map (fun ie : nat * entry => cell_at (files w) (fst ie) (snd ie))
                     (enumerate 0 (filter (in_week i) idl))).
  { intros i page Hpage.
    destruct (saved_page _ _ _ _ _ _ _ _ _ H Hout Hpage)
      as [(Hn & -> & ->) | (Hi & m & Hm & _ & ->)].
    - split; [lia |]. destruct idl as [| e idl']; [reflexivity |].
      exfalso. assert (1 <= count_distinct (map strftime_U (map snd (e :: idl'))))%nat
        by (apply count_distinct_nonempty; discriminate). lia.
    - split; [lia |].
      rewrite <- (page_members_filter _ _ _ Hnd Hmono Hm).
      rewrite <- cells_page_body with (i := i). destruct i; reflexivity. }
  split.
  - intros i page Hpage. destruct (Hpages i page Hpage) as (_ & ->).
    apply cells_labels.
  - intros x page c Hx Hlate Hpage Hc Hfile.
    apply In_nth_error in Hpage. destruct Hpage as (i & Hpage).
    destruct (Hpages i page Hpage) as (Hi & Hcells).
    rewrite Hcells in Hc. apply in_map_iff in Hc. destruct Hc as ((idx & e) & <- & He).
    cbn [fst snd] in *.
    assert (Hin : In e (filter (in_week i) idl)).
    { clear - He. revert He. generalize 0%nat.
      induction (filter (in_week i) idl) as [| z l IH]; intros a H; [destruct H |].
      cbn in H. destruct H as [H | H]; [inversion H; left; reflexivity |].
      right. eapply IH; eauto. }
    apply filter_In in Hin. destruct Hin as (Hin & Hw).
    assert (e = x) by (eapply NoDup_fst_inj; eauto). subst e.
    apply in_week_true in Hw.
    assert (1 <= count_distinct (map strftime_U (map snd idl)))%nat.
    { apply count_distinct_nonempty. destruct idl; [destruct Hx | discriminate]. }
    lia.
Qed.

Lemma X7_one_month_pages_are_the_weeks_witness :
  let w := sample_images ["images/a.jpg"; "images/b.jpg"] in
  let doc := [[SetFont "Helvetica" 12; DrawString 275 800 "Week 1";
               DrawString 50 780 "February 07, 2023";
               DrawImage "images/b.jpg" 50 680 220 94]] in
  NoDup (map fst timeline_feb)
  /\ StronglySorted (ascending snd dt_ltb) timeline_feb
  /\ (forall x : entry, In x timeline_feb -> year (snd x) = 2023 /\ month (snd x) = 2)
  /\ create_pdf (map fst timeline_feb) timeline_feb "Result.pdf" (map snd timeline_feb) w
     = (Ok tt, mkworld (files w) (Some doc))
  /\ exists doc',
       output (mkworld (files w) (Some doc)) = Some doc'
       /\ (forall i page,
             nth_error doc' i = Some page ->
             map (fun c => (image_file c, label c)) (cells page)
             = map (fun e : entry => (fst e, strftime_B_d_Y (snd e)))
                   (filter (in_week i) timeline_feb))
       /\ (forall x page c,
             In x timeline_feb ->
             Z.of_nat (count_distinct (map strftime_U (map snd timeline_feb)))
               < week_index (snd x) ->
             In page doc' -> In c (cells page) -> image_file c <> fst x).
Proof.
  intros w doc.
  assert (Hnd : NoDup (map fst timeline_feb)).
  { repeat constructor; cbn; intuition discriminate. }
  assert (Hs : StronglySorted (ascending snd dt_ltb) timeline_feb).
  { repeat constructor. }
  assert (Hym : forall x : entry, In x timeline_feb ->
                                  year (snd x) = 2023 /\ month (snd x) = 2).
  { intros x [<- | [<- | []]]; split; reflexivity. }
  assert (Hrun : create_pdf (map fst timeline_feb) timeline_feb "Result.pdf"
                            (map snd timeline_feb) w
                 = (Ok tt, mkworld (files w) (Some doc)))
    by (vm_compute; reflexivity).
  split; [exact Hnd |]. split; [exact Hs |]. split; [exact Hym |]. split; [exact Hrun |].
  exact (X7_one_month_pages_are_the_weeks timeline_feb "Result.pdf" w _ 2023 2
           Hnd Hs Hym Hrun).
Defined.

(** ** The layout of a page *)

Lemma flat_map_cells fs m : forall a,
  flat_map (fun ie : nat * entry => cell_code (cell_at fs (fst ie) (snd ie))) (enumerate a m)
  = flat_map cell_code
      (map (fun ie : nat * entry => cell_at fs (fst ie) (snd ie)) (enumerate a m)).
Proof.
  induction m as [| e m IH]; intros a; [reflexivity |].
  cbn [enumerate flat_map map]. rewrite IH. reflexivity.
Qed.

(** X8: a saved document of a timeline without dates is one page on which
    nothing is drawn.  Otherwise page [k] starts with the heading "Week k"
    at (275, 800), which the setting of the font precedes on the first page
    only, and the rest of the page is its cells, a label and then an image
    each: nothing else is drawn. *)
Theorem X8_pages_are_heading_and_cells il idl path dl w w' :
  create_pdf il idl path dl w = (Ok tt, w') ->
  exists doc,
    output w' = Some doc
    /\ (dl = [] -> doc = [[SetFont "Helvetica" 12]])
    /\ (dl <> [] ->
        forall i page,
          nth_error doc i = Some page ->
          page = ((match i with O => [SetFont "Helvetica" 12] | S _ => [] end)
                  ++ DrawString 275 800 ("Week " ++ str (Z.of_nat i + 1))
                  :: flat_map cell_code (cells page))%list).
Proof.
  intros H. pose proof H as Hok. apply create_pdf_ok in Hok.
  destruct Hok as (ms & HF & _ & Hout).
  exists (document (files w) ms). split; [exact Hout |]. split.
  - intros ->. cbn in HF. inversion HF; subst. reflexivity.
  - intros Hdl i page Hpage.
    assert (Hn : (1 <= count_distinct (map strftime_U dl))%nat).
    { apply count_distinct_nonempty. destruct dl; [congruence | discriminate]. }
    destruct (saved_page _ _ _ _ _ _ _ _ _ H Hout Hpage)
      as [(Hz & _) | (_ & m & _ & _ & ->)]; [lia |].
    assert (Hc : cells ((match i with O => [SetFont "Helvetica" 12] | S _ => [] end)
                        ++ page_body (files w) i m)
                 = map (fun ie : nat * entry => cell_at (files w) (fst ie) (snd ie))
                       (enumerate 0 m)).
    { rewrite <- cells_page_body with (i := i). destruct i; reflexivity. }
    rewrite Hc. unfold page_body, heading. rewrite flat_map_cells. reflexivity.
Qed.

Lemma X8_pages_are_heading_and_cells_witness :
  let w := sample_images ["images/a.jpg"; "images/b.jpg"] in
  let doc := [[SetFont "Helvetica" 12; DrawString 275 800 "Week 1";
               DrawString 50 780 "February 07, 2023";
               DrawImage "images/b.jpg" 50 680 220 94]] in
  create_pdf (map fst timeline_feb) timeline_feb "Result.pdf" (map snd timeline_feb) w
    = (Ok tt, mkworld (files w) (Some doc))
  /\ exists doc',
       output (mkworld (files w) (Some doc)) = Some doc'
       /\ (map snd timeline_feb = [] -> doc' = [[SetFont "Helvetica" 12]])
       /\ (map snd timeline_feb <> [] ->
           forall i page,
             nth_error doc' i = Some page ->
             page = ((match i with O => [SetFont "Helvetica" 12] | S _ => [] end)
                     ++ DrawString 275 800 ("Week " ++ str (Z.of_nat i + 1))
                     :: flat_map cell_code (cells page))%list).
Proof.
  intros w doc.
  assert (Hrun : create_pdf (map fst timeline_feb) timeline_feb "Result.pdf"
                            (map snd timeline_feb) w
                 = (Ok tt, mkworld (files w) (Some doc)))
    by (vm_compute; reflexivity).
  split; [exact Hrun |].
  exact (X8_pages_are_heading_and_cells _ _ _ _ _ _ Hrun).
Defined.

(** X9: a week is never broken over two pages.  In a saved document the
    cells of a page are the members of the page, all of them and in their
    order, however many they are; the image of member [idx] is drawn with
    its lower edge at [680 - 130 * (idx / 2)], so that the first twelve
    images of a week are above the lower edge of the page and the thirteenth
    and every later one is drawn below it, on the same page. *)
Theorem X9_thirteenth_image_leaves_the_page il idl path dl w w' :
  dl <> [] ->
  create_pdf il idl path dl w = (Ok tt, w') ->
  exists doc,
    output w' = Some doc
    /\ List.length doc = count_distinct (map strftime_U dl)
    /\ forall i page,
         nth_error doc i = Some page ->
         exists m,
           page_members il idl i = Ok m
           /\ List.length (cells page) = List.length m
           /\ forall idx e,
                nth_error m idx = Some e ->
                exists c,
                  nth_error (cells page) idx = Some c
                  /\ image_file c = fst e
                  /\ image_y c = 680 - 130 * (Z.of_nat idx / 2)
                  /\ (0 <= image_y c <-> (idx < 12)%nat).
Proof.
  intros Hdl H. pose proof H as Hok. apply create_pdf_ok in Hok.
  destruct Hok as (ms & HF & _ & Hout).
  assert (Hn : (1 <= count_distinct (map strftime_U dl))%nat).
  { apply count_distinct_nonempty. destruct dl; [congruence | discriminate]. }
  pose proof (pages_length _ _ _ _ _ HF) as Hlen.
  assert (Hms : ms <> []) by (destruct ms; [cbn in Hlen; lia | discriminate]).
  exists (document (files w) ms). split; [exact Hout |].
  split; [rewrite length_document by exact Hms; exact Hlen |].
  intros i page Hpage.
  destruct (saved_page _ _ _ _ _ _ _ _ _ H Hout Hpage)
    as [(Hz & _) | (_ & m & Hm & _ & ->)]; [lia |].
  assert (Hc : cells ((match i with O => [SetFont "Helvetica" 12] | S _ => [] end)
                      ++ page_body (files w) i m)
               = map (fun ie : nat * entry => cell_at (files w) (fst ie) (snd ie))
                     (enumerate 0 m)).
  { rewrite <- cells_page_body with (i := i). destruct i; reflexivity. }
  exists m. split; [exact Hm |]. rewrite Hc.
  split; [rewrite length_map, length_enumerate; reflexivity |].
  intros idx e He. exists (cell_at (files w) idx e).
  split.
  { rewrite nth_error_map, nth_error_enumerate. unfold entry in *. rewrite He.
    reflexivity. }
  split; [reflexivity |].
  pose proof (cell_at_position (files w) idx e) as (_ & Hy & _ & Hiy).
  assert (Himg : image_y (cell_at (files w) idx e) = 680 - 130 * (Z.of_nat idx / 2)) by lia.
  split; [exact Himg |]. rewrite Himg.
  pose proof (Z.div_mod (Z.of_nat idx) 2 ltac:(lia)).
  pose proof (Z.mod_pos_bound (Z.of_nat idx) 2 ltac:(lia)).
  split; intros Hb; lia.
Qed.

Lemma X9_thirteenth_image_leaves_the_page_witness :
  let idl := timeline_thirteen in
  let w := sample_images (map fst idl) in
  let doc := document (files w) [idl] in
  map snd idl <> []
  /\ create_pdf (map fst idl) idl "Result.pdf" (map snd idl) w
     = (Ok tt, mkworld (files w) (Some doc))
  /\ List.length doc = 1%nat
  /\ exists page m c,
       nth_error doc 0 = Some page
       /\ page_members (map fst idl) idl 0 = Ok m
       /\ List.length m = 13%nat
       /\ List.length (cells page) = List.length m
       /\ nth_error (cells page) 12 = Some c
       /\ image_file c = "images/13.jpg"
       /\ image_y c = -100
       /\ ~ 0 <= image_y c.
Proof.
  intros idl w doc.
  assert (Hdl : map snd idl <> []) by (vm_compute; discriminate).
  assert (Hrun : create_pdf (map fst idl) idl "Result.pdf" (map snd idl) w
                 = (Ok tt, mkworld (files w) (Some doc)))
    by (vm_compute; reflexivity).
  split; [exact Hdl |]. split; [exact Hrun |].
  destruct (X9_thirteenth_image_leaves_the_page (map fst idl) idl "Result.pdf"
              (map snd idl) w _ Hdl Hrun) as (doc' & Hout & Hlen & Hpages).
  cbn [output] in Hout. inversion Hout; subst doc'.
  split; [rewrite Hlen; vm_compute; reflexivity |].
  assert (Hp : exists page, nth_error doc 0 = Some page) by (eexists; reflexivity).
  destruct Hp as (page & Hp).
  destruct (Hpages 0%nat page Hp) as (m & Hm & Hcells & Hmembers).
  assert (Hm' : page_members (map fst idl) idl 0 = Ok idl) by (vm_compute; reflexivity).
  rewrite Hm' in Hm. inversion Hm; subst m.
  assert (He : nth_error idl 12 = Some ("images/13.jpg", mkdt 2023 2 5 20 0 0))
    by (vm_compute; reflexivity).
  destruct (Hmembers 12%nat _ He) as (c & Hc & Hfile & Hy & Hiff).
  exists page, idl, c.
  split; [exact Hp |]. split; [exact Hm' |]. split; [reflexivity |].
  split; [exact Hcells |]. split; [exact Hc |]. split; [exact Hfile |].
  split; [exact Hy |]. rewrite Hy. cbn. lia.
Defined.

(** X10: the images of two cells of a page never overlap when the files
    have the canonical size, as the crop step leaves them: they are 220 wide
    and 94 high, the two columns are 300 apart and the rows 130. *)
Theorem X10_images_do_not_overlap ocr w0 idl il dl w1 path w2 :
  crop_img_n_get_date ocr date_time_regex img_crop_end_regex w0 = (Ok (idl, il, dl), w1) ->
  create_pdf il idl path dl w1 = (Ok tt, w2) ->
  exists doc,
    output w2 = Some doc
    /\ forall page i j a b,
         In page doc ->
         nth_error (cells page) i = Some a ->
         nth_error (cells page) j = Some b ->
         i <> j ->
         image_x a + image_w a <= image_x b
         \/ image_x b + image_w b <= image_x a
         \/ image_y a + image_h a <= image_y b
         \/ image_y b + image_h b <= image_y a.
Proof.
  intros Hcrop Hpdf.
  apply crop_img_n_get_date_ok in Hcrop.
  destruct Hcrop as (_ & _ & Hnorm & _).
  apply create_pdf_ok in Hpdf. destruct Hpdf as (ms & HF & _ & Hout).
  exists (document (files w1) ms). split; [assumption |].
  assert (Hcell : forall page idx c,
            In page (document (files w1) ms) ->
            nth_error (cells page) idx = Some c ->
            image_w c = 220 /\ image_h c = 94
            /\ image_x c = 50 + 300 * (Z.of_nat idx mod 2)
            /\ image_y c = 680 - 130 * (Z.of_nat idx / 2)).
  { intros page idx c Hpage Hc.
    destruct (document_cells _ _ _ _ _ Hpage Hc) as (m & e & Hm & He & ->).
    apply In_nth_error in Hm. destruct Hm as (i & Hm).
    destruct (Forall2_nth_error _ _ _ _ _ HF Hm) as (i' & _ & Hpm & _).
    assert (Hin : In e idl).
    { eapply page_members_incl; [exact Hpm |]. eapply nth_error_In; eauto. }
    rewrite Forall_forall in Hnorm. specialize (Hnorm e Hin). unfold normalized in Hnorm.
    pose proof (cell_at_position (files w1) idx e) as (Hlx & Hly & Hx & Hy).
    split; [| split; [| split; lia]];
      unfold cell_at; rewrite Hnorm; reflexivity. }
  intros page i j a b Hpage Ha Hb Hij.
  destruct (Hcell _ _ _ Hpage Ha) as (Hwa & Hha & Hxa & Hya).
  destruct (Hcell _ _ _ Hpage Hb) as (Hwb & Hhb & Hxb & Hyb).
  rewrite Hwa, Hha, Hxa, Hya, Hwb, Hhb, Hxb, Hyb.
  pose proof (Z.div_mod (Z.of_nat i) 2 ltac:(lia)).
  pose proof (Z.div_mod (Z.of_nat j) 2 ltac:(lia)).
  pose proof (Z.mod_pos_bound (Z.of_nat i) 2 ltac:(lia)).
  pose proof (Z.mod_pos_bound (Z.of_nat j) 2 ltac:(lia)).
  lia.
Qed.

Lemma X10_images_do_not_overlap_witness :
  let w0 := sample_pages [("images/A.jpg", 1%N); ("images/B.jpg", 2%N);
                          ("images/C.jpg", 3%N)] in
  let T := mkdt 2023 2 7 22 0 0 in
  let T' := mkdt 2023 2 7 21 59 0 in
  let idl := [("images/C.jpg", T'); ("images/A.jpg", T); ("images/B.jpg", T)] in
  let r := crop_img_n_get_date tie_ocr date_time_regex img_crop_end_regex w0 in
  let q := create_pdf (map fst idl) idl "Result.pdf" (map snd idl) (snd r) in
  r = (Ok (idl, map fst idl, map snd idl), snd r)
  /\ q = (Ok tt, snd q)
  /\ exists doc,
       output (snd q) = Some doc
       /\ (forall page i j a b,
             In page doc ->
             nth_error (cells page) i = Some a ->
             nth_error (cells page) j = Some b ->
             i <> j ->
             image_x a + image_w a <= image_x b
             \/ image_x b + image_w b <= image_x a
             \/ image_y a + image_h a <= image_y b
             \/ image_y b + image_h b <= image_y a)
       /\ exists page a b c,
            In page doc
            /\ cells page = [a; b; c]
            /\ (image_x a, image_y a, image_w a, image_h a) = (50, 680, 220, 94)
            /\ (image_x b, image_y b, image_w b, image_h b) = (350, 680, 220, 94)
            /\ (image_x c, image_y c, image_w c, image_h c) = (50, 550, 220, 94).
Proof.
  intros w0 T T' idl r q.
  assert (Hcrop : r = (Ok (idl, map fst idl, map snd idl), snd r))
    by (vm_compute; reflexivity).
  assert (Hpdf : q = (Ok tt, snd q)) by (vm_compute; reflexivity).
  split; [exact Hcrop |]. split; [exact Hpdf |].
  destruct (X10_images_do_not_overlap tie_ocr w0 idl _ _ (snd r) "Result.pdf" (snd q)
              Hcrop Hpdf) as (doc & Hout & Hno).
  exists doc. split; [exact Hout |]. split; [exact Hno |].
  assert (Hdoc : output (snd q)
                 = Some [[SetFont "Helvetica" 12; DrawString 275 800 "Week 1";
                          DrawString 50 780 "February 07, 2023";
                          DrawImage "images/C.jpg" 50 680 220 94;
                          DrawString 350 780 "February 07, 2023";
                          DrawImage "images/A.jpg" 350 680 220 94;
                          DrawString 50 650 "February 07, 2023";
                          DrawImage "images/B.jpg" 50 550 220 94]])
    by (vm_compute; reflexivity).
  rewrite Hdoc in Hout. inversion Hout; subst doc.
  eexists. eexists. eexists. eexists.
  split; [left; reflexivity |]. split; [reflexivity |].
  split; [reflexivity |]. split; reflexivity.
Defined.

(** ** When the crop is empty *)

(** X11: which receipts stop the run at the resize.  For an image with
    columns, a timestamp at offset [s] and a terminator at offset [e] of the
    text, the crop is empty, and [cv2.resize] raises, exactly when the image
    has no row at the first row asked for, which is [s], [s + 600] for
    [10 < s < 45] and [s + 700] for [50 <= s], or when, in that last case,
    the terminator comes 500 or more characters before the timestamp. *)
Theorem X11_resize_raises_on_short_images img s e :
  0 <= s -> 0 <= e -> 0 <= fst (shape img) -> 0 < snd (shape img) ->
  ((s <= 10 \/ 45 <= s < 50) ->
   (cv2_resize (crop img s e) (700, 300) = Raise CvError <-> fst (shape img) <= s))
  /\ (10 < s < 45 ->
      (cv2_resize (crop img s e) (700, 300) = Raise CvError
       <-> fst (shape img) <= s + 600))
  /\ (50 <= s ->
      (cv2_resize (crop img s e) (700, 300) = Raise CvError
       <-> fst (shape img) <= s + 700 \/ e + 500 <= s)).
Proof.
  intros Hs He Hrows Hcols.
  assert (Hraise : forall r, cv2_resize r (700, 300) = Raise CvError <-> is_empty r = true).
  { intros r. unfold cv2_resize. destruct (is_empty r); split; congruence. }
  assert (Hslice : forall lo hi, 0 <= lo -> 0 <= hi ->
            (is_empty (RowSlice img lo hi) = true <-> fst (shape img) <= lo \/ hi <= lo)).
  { intros lo hi Hlo Hhi. unfold is_empty. cbn [shape fst snd].
    rewrite orb_true_iff, !Z.leb_le. unfold slice_len, clamp_index.
    destruct (hi <? 0) eqn:E1; [apply Z.ltb_lt in E1; lia |].
    destruct (lo <? 0) eqn:E2; [apply Z.ltb_lt in E2; lia |].
    lia. }
  split; [| split]; intros Hb; rewrite Hraise; unfold crop.
  - destruct (s <? 5) eqn:E1.
    + rewrite Hslice by lia. apply Z.ltb_lt in E1. lia.
    + apply Z.ltb_ge in E1.
      replace ((10 <? s) && (s <? 45)) with false
        by (symmetry; apply andb_false_iff; rewrite !Z.ltb_ge; lia).
      replace (50 <=? s) with false by (symmetry; apply Z.leb_gt; lia).
      rewrite Hslice by lia. lia.
  - replace (s <? 5) with false by (symmetry; apply Z.ltb_ge; lia).
    replace ((10 <? s) && (s <? 45)) with true
      by (symmetry; apply andb_true_iff; rewrite !Z.ltb_lt; lia).
    rewrite Hslice by lia. lia.
  - replace (s <? 5) with false by (symmetry; apply Z.ltb_ge; lia).
    replace ((10 <? s) && (s <? 45)) with false
      by (symmetry; apply andb_false_iff; rewrite !Z.ltb_ge; lia).
    replace (50 <=? s) with true by (symmetry; apply Z.leb_le; lia).
    rewrite Hslice by lia. lia.
Qed.

Lemma X11_resize_raises_on_short_images_witness :
  let img := Scan 4 600 450 in
  0 <= 59 /\ 0 <= 80 /\ 0 <= fst (shape img) /\ 0 < snd (shape img)
  /\ (cv2_resize (crop img 59 80) (700, 300) = Raise CvError
      <-> fst (shape img) <= 59 + 700 \/ 80 + 500 <= 59).
Proof.
  intros img.
  assert (Hs : 0 <= 59) by lia.
  assert (He : 0 <= 80) by lia.
  assert (Hrows : 0 <= fst (shape img)) by (cbn; lia).
  assert (Hcols : 0 < snd (shape img)) by (cbn; lia).
  split; [exact Hs |]. split; [exact He |]. split; [exact Hrows |]. split; [exact Hcols |].
  exact (proj2 (proj2 (X11_resize_raises_on_short_images img 59 80 Hs He Hrows Hcols))
           ltac:(lia)).
Defined.

(** ** More than five calendar weeks *)

Lemma days_in_month_le y m : days_in_month y m <= 31.
Proof.
  unfold days_in_month. destruct ((m =? 2) && is_leap y); [lia |].
  unfold DAYS_IN_MONTH. generalize (Z.to_nat m). intros n.
  do 13 (destruct n as [| n]; [cbn; lia |]).
  cbn. destruct n; lia.
Qed.

Lemma strptime_day s fmt dt : strptime s fmt = Ok dt -> day dt <= 31.
Proof.
  unfold strptime.
  destruct (pattern false fmt) as [r |]; [| discriminate].
  destruct (Re.match_here true r None s) as [[[p rest] env] |]; [| discriminate].
  destruct rest; [| discriminate].
  destruct (group_int "d" 1 env <=? days_in_month (year_of env) (group_int "m" 1 env))
    eqn:E; [| discriminate].
  intros H. inversion H; subst. cbn [day]. apply Z.leb_le in E.
  pose proof (days_in_month_le (year_of env) (group_int "m" 1 env)). lia.
Qed.

Lemma parse_datetime_day s dt : parse_datetime s = Ok dt -> day dt <= 31.
Proof.
  unfold parse_datetime.
  destruct (strptime s "%m/%d/%y, %I:%M %p") eqn:E1.
  - intros H. inversion H; subst. eapply strptime_day; eauto.
  - destruct (strptime s "%d/%m/%y, %I:%M %p") eqn:E2.
    + intros H. inversion H; subst. eapply strptime_day; eauto.
    + apply strptime_day.
Qed.

Section CropDays.
Variable ocr : raster -> string.
Variables drx erx : Re.regex.

Lemma crop_loop_days listing : forall acc w acc' w',
  for_each listing (crop_one ocr drx erx) acc w = (Ok acc', w') ->
  Forall (fun e : entry => day (snd e) <= 31) acc ->
  Forall (fun e : entry => day (snd e) <= 31) acc'.
Proof.
  induction listing as [| x listing IH]; intros acc w acc' w' H Hacc.
  - cbn in H. inversion H; subst. exact Hacc.
  - cbn [for_each] in H. apply bind_ok in H. destruct H as (acc1 & w1 & H1 & H2).
    apply crop_one_ok in H1.
    destruct H1 as (img & pos & m & end_ & _ & _ & _ & _ & _ & Hm).
    apply IH in H2; [exact H2 |].
    destruct m as [| c m]; [subst acc1; exact Hacc |].
    destruct Hm as (dt & Hdt & ->). apply Forall_app. split; [exact Hacc |].
    constructor; [| constructor]. cbn [snd]. eapply parse_datetime_day; eauto.
Qed.

Lemma crop_img_n_get_date_days w idl il dl w' :
  crop_img_n_get_date ocr drx erx w = (Ok (idl, il, dl), w') ->
  Forall (fun e : entry => day (snd e) <= 31) idl.
Proof.
  unfold crop_img_n_get_date. intros H.
  apply bind_ok in H. destruct H as (listing & w0 & Hl & H).
  unfold listdir in Hl. inversion Hl; subst listing w0. clear Hl.
  apply bind_ok in H. destruct H as (acc & w1 & Hloop & H).
  unfold ret in H. inversion H; subst. clear H.
  apply crop_loop_days in Hloop; [| constructor].
  eapply Permutation_Forall; [| exact Hloop].
  apply Permutation_sym, (sort_perm snd dt_ltb).
Qed.
End CropDays.

Lemma normalized_on_disk fs (e : entry) : normalized fs (fst e) -> on_disk fs e.
Proof.
  unfold normalized, on_disk, size_on_disk.
  destruct (lookup (fst e) fs); [discriminate | intros H; inversion H].
Qed.

(** X12: receipts of more than five calendar weeks are never made into a
    document.  A day of the month is at most 31, so that no entry has a week
    index above 5, while [create_pdf] asks for a page for each calendar
    week: after a crop step that completed, it raises IndexError and saves
    nothing. *)
Theorem X12_more_than_five_weeks_raise ocr drx erx w0 idl il dl w1 path :
  crop_img_n_get_date ocr drx erx w0 = (Ok (idl, il, dl), w1) ->
  (5 < count_distinct (map strftime_U dl))%nat ->
  create_pdf il idl path dl w1 = (Raise IndexError, w1).
Proof.
  intros Hcrop Hn.
  pose proof (crop_img_n_get_date_days _ _ _ _ _ _ _ _ Hcrop) as Hdays.
  apply crop_img_n_get_date_ok in Hcrop.
  destruct Hcrop as (-> & -> & Hnorm & _).
  assert (Hdisk : Forall (on_disk (files w1)) idl).
  { eapply Forall_impl; [| exact Hnorm]. intros e. apply normalized_on_disk. }
  assert (Hgap : forall e : entry, In e idl -> week_index (snd e) <> Z.of_nat 5 + 1).
  { rewrite Forall_forall in Hdays. intros e He. specialize (Hdays e He).
    unfold week_index.
    assert ((day (snd e) - 1) / 7 < 5) by (apply Z.div_lt_upper_bound; lia).
    lia. }
  destruct (first_gap idl 5 Hgap) as (k & Hk & Hgap' & Hbefore).
  apply create_pdf_gap with (k := k); auto. lia.
Qed.

Lemma X12_more_than_five_weeks_raise_witness :
  let r := crop_img_n_get_date weekly_ocr date_time_regex img_crop_end_regex weekly_pages in
  let idl := timeline_six_weeks in
  r = (Ok (idl, map fst idl, map snd idl), snd r)
  /\ (5 < count_distinct (map strftime_U (map snd idl)))%nat
  /\ create_pdf (map fst idl) idl "Result.pdf" (map snd idl) (snd r)
     = (Raise IndexError, snd r).
Proof.
  intros r idl.
  assert (Hcrop : r = (Ok (idl, map fst idl, map snd idl), snd r))
    by (vm_compute; reflexivity).
  assert (Hn : (5 < count_distinct (map strftime_U (map snd idl)))%nat)
    by (vm_compute; lia).
  split; [exact Hcrop |]. split; [exact Hn |].
  exact (X12_more_than_five_weeks_raise weekly_ocr date_time_regex img_crop_end_regex
           weekly_pages idl _ _ (snd r) "Result.pdf" Hcrop Hn).
Defined.

(** ** The whole run *)

Lemma parse_datetime_raise s e : parse_datetime s = Raise e -> e = ValueError.
Proof.
  unfold parse_datetime.
  destruct (strptime s "%m/%d/%y, %I:%M %p"); [discriminate |].
  destruct (strptime s "%d/%m/%y, %I:%M %p"); [discriminate |].
  apply strptime_raise.
Qed.

Section CropRaises.
Variable ocr : raster -> string.
Variables drx erx : Re.regex.

Lemma crop_one_raise_kind path acc w e w' :
  crop_one ocr drx erx path acc w = (Raise e, w') ->
  e = CvError \/ e = AttributeError \/ e = ValueError.
Proof.
  unfold crop_one, bind, cv2_imread, lift, cv2_imwrite, ret, cv2_resize.
  destruct (lookup path (files w)) as [img |]; [| intros H; inversion H; auto].
  destruct (Re.findall drx (ocr img)) as [| [| c m] ms];
    try (destruct (parse_datetime (String c m)) eqn:Ep;
         [| apply parse_datetime_raise in Ep]);
    unfold search_start;
    destruct (Re.search drx (ocr img)) as [[? ?] |];
    destruct (Re.search erx (ocr img)) as [[? ?] |];
    try destruct (is_empty _);
    intros H; inversion H; subst; auto.
Qed.

Lemma crop_loop_raise listing : forall acc w e w',
  for_each listing (crop_one ocr drx erx) acc w = (Raise e, w') ->
  map fst (files w') = map fst (files w)
  /\ output w' = output w
  /\ (e = CvError \/ e = AttributeError \/ e = ValueError).
Proof.
  induction listing as [| x listing IH]; intros acc w e w' H.
  - cbn in H. discriminate.
  - cbn [for_each] in H. unfold bind in H.
    destruct (crop_one ocr drx erx x acc w) as [[acc1 | e1] w1] eqn:E.
    + apply crop_one_ok in E.
      destruct E as (img & pos & m & end_ & Hl & _ & _ & _ & -> & _).
      apply IH in H. destruct H as (Hk & Ho & He). cbn [files output] in *.
      rewrite Hk. split; [| auto].
      apply store_keys. eapply lookup_in_keys; eauto.
    + inversion H; subst. pose proof (crop_one_raise_kind _ _ _ _ _ E) as He.
      apply crop_one_raise in E. subst. auto.
Qed.

Lemma crop_img_n_get_date_raise w e w' :
  crop_img_n_get_date ocr drx erx w = (Raise e, w') ->
  map fst (files w') = map fst (files w)
  /\ output w' = output w
  /\ (e = CvError \/ e = AttributeError \/ e = ValueError).
Proof.
  unfold crop_img_n_get_date, listdir. unfold bind at 1. unfold bind at 1.
  destruct (for_each _ _ _ w) as [[acc | e1] w1] eqn:E; [discriminate |].
  intros H. inversion H; subst. eapply crop_loop_raise; eauto.
Qed.
End CropRaises.

Lemma crop_loop_keys ocr drx erx listing : forall acc w acc' w',
  for_each listing (crop_one ocr drx erx) acc w = (Ok acc', w') ->
  map fst (files w') = map fst (files w).
Proof.
  induction listing as [| x listing IH]; intros acc w acc' w' H.
  - cbn in H. inversion H; subst. reflexivity.
  - cbn [for_each] in H. apply bind_ok in H. destruct H as (acc1 & w1 & H1 & H2).
    apply crop_one_ok in H1.
    destruct H1 as (img & pos & m & end_ & Hl & _ & _ & _ & -> & _).
    apply IH in H2. rewrite H2. cbn [files].
    apply store_keys. eapply lookup_in_keys; eauto.
Qed.

Lemma crop_img_n_get_date_keys ocr drx erx w r w' :
  crop_img_n_get_date ocr drx erx w = (Ok r, w') ->
  map fst (files w') = map fst (files w).
Proof.
  unfold crop_img_n_get_date. intros H.
  apply bind_ok in H. destruct H as (listing & w0 & Hl & H).
  unfold listdir in Hl. inversion Hl; subst listing w0. clear Hl.
  apply bind_ok in H. destruct H as (acc & w1 & Hloop & H).
  unfold ret in H. inversion H; subst. clear H.
  eapply crop_loop_keys; eauto.
Qed.

(** The steps of [main_caller], one after the other. *)
Lemma main_caller_steps pdf ocr w r w' :
  main_caller pdf ocr w = (r, w') ->
  exists w1,
    get_img_from_pdf pdf "images" "Shuffled_images.pdf" w = (Ok tt, w1)
    /\ ((exists e, r = Raise e
                   /\ crop_img_n_get_date ocr date_time_regex img_crop_end_regex w1
                      = (Raise e, w'))
        \/ exists idl il dl w2,
             crop_img_n_get_date ocr date_time_regex img_crop_end_regex w1
               = (Ok (idl, il, dl), w2)
             /\ ((exists e, r = Raise e
                            /\ create_pdf il idl "Result.pdf" dl w2 = (Raise e, w'))
                 \/ exists w3, r = Ok tt
                               /\ create_pdf il idl "Result.pdf" dl w2 = (Ok tt, w3)
                               /\ w' = mkworld [] (output w3))).
Proof.
  destruct (save_loop "images" (pdf "Shuffled_images.pdf") 0%nat w) as (w1 & Hget & _).
  change (get_img_from_pdf pdf "images" "Shuffled_images.pdf" w = (Ok tt, w1)) in Hget.
  unfold main_caller. rewrite (bind_step _ _ _ _ _ Hget).
  intros H. exists w1. split; [exact Hget |].
  unfold bind at 1 in H.
  destruct (crop_img_n_get_date ocr date_time_regex img_crop_end_regex w1)
    as [[[[idl il] dl] | e] w2] eqn:Ec.
  - right. exists idl, il, dl, w2. split; [reflexivity |].
    unfold bind at 1 in H.
    destruct (create_pdf il idl "Result.pdf" dl w2) as [[[] | e] w3] eqn:Ep.
    + right. exists w3. unfold rmtree in H. inversion H; subst. auto.
    + left. exists e. inversion H; subst. auto.
  - left. exists e. inversion H; subst. auto.
Qed.



(** X14: when [main_caller] raises after the pages of the input have been
    saved, no output file has been written and the images directory is not
    removed: it holds the files it held before the run and the pages of the
    input, cropped or not.  When the crop step had completed, the error is
    that of [create_pdf], and it is IndexError, for a page without entry,
    and never FileNotFoundError: the crop step leaves every image of the
    timeline on disk. *)
Theorem X14_failed_run_keeps_the_directory pdf ocr w w1 e w' :
  get_img_from_pdf pdf "images" "Shuffled_images.pdf" w = (Ok tt, w1) ->
  main_caller pdf ocr w = (Raise e, w') ->
  output w' = output w
  /\ (forall q, In q (map fst (files w'))
                <-> In q (map fst (files w))
                    \/ exists k, (k < List.length (pdf "Shuffled_images.pdf"))%nat
                                 /\ q = page_path "images" k)
  /\ (forall idl il dl w2,
        crop_img_n_get_date ocr date_time_regex img_crop_end_regex w1
          = (Ok (idl, il, dl), w2) ->
        create_pdf il idl "Result.pdf" dl w2 = (Raise e, w2)
        /\ w' = w2
        /\ e = IndexError
        /\ exists i, (i < count_distinct (map strftime_U dl))%nat
             /\ forall x, In x idl -> week_index (snd x) <> Z.of_nat i + 1).
Proof.
  intros Hget H.
  destruct (save_loop "images" (pdf "Shuffled_images.pdf") 0%nat w)
    as (w1' & Hget' & Hout1 & _ & _ & _ & _ & Hkeys).
  change (get_img_from_pdf pdf "images" "Shuffled_images.pdf" w = (Ok tt, w1')) in Hget'.
  rewrite Hget in Hget'. inversion Hget'; subst w1'. clear Hget'.
  apply main_caller_steps in H. destruct H as (w1' & Hget' & H).
  rewrite Hget in Hget'. inversion Hget'; subst w1'. clear Hget'.
  destruct H as [(e' & He & Hcrop) | (idl & il & dl & w2 & Hcrop & H)].
  - inversion He; subst e'. pose proof Hcrop as Hraise.
    apply crop_img_n_get_date_raise in Hraise.
    destruct Hraise as (Hk & Ho & _).
    split; [congruence |]. split; [intros q; rewrite Hk; apply Hkeys |].
    intros idl il dl w2 Hok. rewrite Hok in Hcrop. discriminate.
  - destruct H as [(e' & He & Hpdf) | (w3 & He & _)]; [| discriminate].
    inversion He; subst e'.
    pose proof (crop_img_n_get_date_keys _ _ _ _ _ _ Hcrop) as Hk.
    pose proof Hcrop as Hok. apply crop_img_n_get_date_ok in Hok.
    destruct Hok as (-> & -> & Hnorm & _ & _ & Ho).
    pose proof Hpdf as Hwhy. apply create_pdf_raise in Hwhy.
    destruct Hwhy as (-> & i & Hi & Hwhy).
    split; [congruence |]. split; [intros q; rewrite Hk; apply Hkeys |].
    intros idl' il' dl' w2' Hok. rewrite Hok in Hcrop.
    inversion Hcrop; subst idl' il' dl' w2'.
    split; [exact Hpdf |]. split; [reflexivity |].
    destruct Hwhy as [Hm | (m & x & Hm & _ & Hx & Hnone)].
    + apply page_members_raise in Hm. destruct Hm as (-> & Hnone).
      split; [reflexivity |]. exists i. split; [exact Hi |].
      intros x Hx. apply in_week_false, Hnone, Hx.
    + exfalso. rewrite Forall_forall in Hnorm.
      apply (normalized_on_disk (files w2) x); [| exact Hnone].
      apply Hnorm. eapply page_members_incl; eauto.
Qed.

Lemma X14_failed_run_keeps_the_directory_witness :
  let pdf := fun _ : string => [Scan 1 2200 1700] in
  let w := mkworld [] None in
  let w1 := mkworld [("images/trip_image_1.jpg", Scan 1 2200 1700)] None in
  let w' := mkworld [("images/trip_image_1.jpg",
                      Resized (RowSlice (Scan 1 2200 1700) 0 921) 700 300)] None in
  let idl := [("images/trip_image_1.jpg", mkdt 2023 2 8 9 15 0)] in
  get_img_from_pdf pdf "images" "Shuffled_images.pdf" w = (Ok tt, w1)
  /\ main_caller pdf sample_ocr w = (Raise IndexError, w')
  /\ crop_img_n_get_date sample_ocr date_time_regex img_crop_end_regex w1
     = (Ok (idl, map fst idl, map snd idl), w')
  /\ output w' = output w
  /\ (forall q, In q (map fst (files w'))
                <-> In q (map fst (files w))
                    \/ exists k, (k < List.length (pdf "Shuffled_images.pdf"))%nat
                                 /\ q = page_path "images" k)
  /\ create_pdf (map fst idl) idl "Result.pdf" (map snd idl) w' = (Raise IndexError, w')
  /\ exists i, (i < count_distinct (map strftime_U (map snd idl)))%nat
       /\ forall x, In x idl -> week_index (snd x) <> Z.of_nat i + 1.
Proof.
  intros pdf w w1 w' idl.
  assert (Hget : get_img_from_pdf pdf "images" "Shuffled_images.pdf" w = (Ok tt, w1))
    by (vm_compute; reflexivity).
  assert (Hrun : main_caller pdf sample_ocr w = (Raise IndexError, w'))
    by (vm_compute; reflexivity).
  assert (Hcrop : crop_img_n_get_date sample_ocr date_time_regex img_crop_end_regex w1
                  = (Ok (idl, map fst idl, map snd idl), w'))
    by (vm_compute; reflexivity).
  split; [exact Hget |]. split; [exact Hrun |]. split; [exact Hcrop |].
  destruct (X14_failed_run_keeps_the_directory pdf sample_ocr w w1 _ _ Hget Hrun)
    as (Hout & Hkeys & Hpdf).
  split; [exact Hout |]. split; [exact Hkeys |].
  destruct (Hpdf _ _ _ _ Hcrop) as (Hraise & _ & _ & Hgap).
  split; [exact Hraise | exact Hgap].
Defined.

(** X15: an input without pages is no error: with an empty images directory
    [main_caller] completes and the output file is a document of one page on
    which nothing is drawn. *)
Theorem X15_empty_input_gives_a_blank_page pdf ocr out :
  pdf "Shuffled_images.pdf" = [] ->
  main_caller pdf ocr (mkworld [] out)
  = (Ok tt, mkworld [] (Some [[SetFont "Helvetica" 12]])).
Proof.
  intros Hpdf. unfold main_caller, get_img_from_pdf. rewrite Hpdf. reflexivity.
Qed.

Lemma X15_empty_input_gives_a_blank_page_witness :
  let pdf := fun _ : string => @nil raster in
  pdf "Shuffled_images.pdf" = []
  /\ main_caller pdf sample_ocr (mkworld [] None)
     = (Ok tt, mkworld [] (Some [[SetFont "Helvetica" 12]])).
Proof.
  intros pdf.
  assert (Hpdf : pdf "Shuffled_images.pdf" = []) by reflexivity.
  split; [exact Hpdf |].
  exact (X15_empty_input_gives_a_blank_page pdf sample_ocr None Hpdf).
Defined.

(** ** When the crop step completes *)

Section CropTotal.
Variable ocr : raster -> string.
Variables drx erx : Re.regex.

Lemma crop_one_total path acc w img :
  lookup path (files w) = Some img ->
  croppable ocr drx erx img ->
  exists acc' out,
    crop_one ocr drx erx path acc w
    = (Ok acc', mkworld (store path out (files w)) (output w)).
Proof.
  intros Hl (pos & m & end_ & Hs & Hm & He & Hne).
  unfold crop_one, bind, cv2_imread, lift, cv2_imwrite, ret, cv2_resize.
  rewrite Hl.
  pose proof (findall_head drx (ocr img)) as Hh. rewrite Hs in Hh.
  cbn [option_map snd] in Hh.
  destruct (Re.findall drx (ocr img)) as [| m' ms]; [discriminate |].
  cbn [hd_error] in Hh. inversion Hh; subst m'.
  unfold search_start at 1. rewrite Hs, He, Hne.
  destruct m as [| c m].
  - eauto.
  - destruct Hm as [Hm | (d & Hd)]; [discriminate |]. rewrite Hd. eauto.
Qed.

Lemma crop_one_croppable path acc w acc' w' :
  crop_one ocr drx erx path acc w = (Ok acc', w') ->
  exists img out,
    lookup path (files w) = Some img
    /\ croppable ocr drx erx img
    /\ w' = mkworld (store path out (files w)) (output w).
Proof.
  intros H. apply crop_one_ok in H.
  destruct H as (img & pos & m & end_ & Hl & Hs & He & Hne & -> & Hm).
  exists img. eexists. split; [exact Hl |]. split; [| reflexivity].
  exists pos, m, end_. repeat split; auto.
  destruct m as [| c m]; [left; reflexivity |].
  destruct Hm as (d & Hd & _). right. eauto.
Qed.

Lemma crop_loop_iff listing : forall acc w,
  NoDup listing ->
  ((exists acc' w', for_each listing (crop_one ocr drx erx) acc w = (Ok acc', w'))
   <-> forall p, In p listing ->
         exists img, lookup p (files w) = Some img /\ croppable ocr drx erx img).
Proof.
  induction listing as [| x listing IH]; intros acc w Hnd.
  - split; [intros _ p [] | intros _; exists acc, w; reflexivity].
  - inversion Hnd as [| ? ? Hx Hnd']; subst.
    assert (Hsame : forall out p, In p listing ->
              lookup p (store x out (files w)) = lookup p (files w)).
    { intros out p Hp. apply lookup_store_other. intros ->. tauto. }
    cbn [for_each]. split.
    + intros (acc' & w' & H). apply bind_ok in H. destruct H as (acc1 & w1 & H1 & H2).
      apply crop_one_croppable in H1. destruct H1 as (img & out & Hl & Hc & ->).
      intros p [<- | Hp]; [eauto |].
      assert (Hrest : exists acc' w',
                for_each listing (crop_one ocr drx erx) acc1
                         (mkworld (store x out (files w)) (output w)) = (Ok acc', w'))
        by eauto.
      pose proof (proj1 (IH _ _ Hnd') Hrest p Hp) as Hrest'.
      clear Hrest. rename Hrest' into Hrest.
      cbn [files] in Hrest. rewrite Hsame in Hrest by exact Hp. exact Hrest.
    + intros Hall. destruct (Hall x (or_introl eq_refl)) as (img & Hl & Hc).
      destruct (crop_one_total x acc w img Hl Hc) as (acc1 & out & H1).
      rewrite (bind_step _ _ _ _ _ H1). apply (proj2 (IH _ _ Hnd')).
      intros p Hp. cbn [files]. rewrite Hsame by exact Hp.
      apply Hall. right. exact Hp.
Qed.
End CropTotal.

(** A crop step that completes has found every file croppable. *)
Lemma crop_step_croppable ocr drx erx w r w' p img :
  NoDup (map fst (files w)) ->
  crop_img_n_get_date ocr drx erx w = (Ok r, w') ->
  lookup p (files w) = Some img ->
  croppable ocr drx erx img.
Proof.
  intros Hnd H Hp. unfold crop_img_n_get_date in H.
  apply bind_ok in H. destruct H as (listing & w0 & Hl & H).
  unfold listdir in Hl. inversion Hl; subst listing w0. clear Hl.
  apply bind_ok in H. destruct H as (acc & w1 & Hrun & _).
  destruct (proj1 (crop_loop_iff ocr drx erx (map fst (files w)) [] w Hnd)
              (ex_intro _ acc (ex_intro _ w1 Hrun)) p (lookup_in_keys _ _ _ Hp))
    as (img' & Hp' & Hc).
  congruence.
Qed.

(** The crop step completes on a directory of croppable files. *)
Lemma crop_step_total ocr drx erx w :
  NoDup (map fst (files w)) ->
  (forall p img, lookup p (files w) = Some img -> croppable ocr drx erx img) ->
  exists r w', crop_img_n_get_date ocr drx erx w = (Ok r, w').
Proof.
  intros Hnd Hall.
  destruct (proj2 (crop_loop_iff ocr drx erx (map fst (files w)) [] w Hnd))
    as (acc & w1 & Hrun).
  { intros p Hp. destruct (in_keys_lookup _ _ Hp) as (img & Hl). eauto. }
  unfold crop_img_n_get_date, listdir. unfold bind at 1.
  rewrite (bind_step _ _ _ _ _ Hrun). unfold ret. eauto.
Qed.

(** X16: the crop step completes exactly when every file of the directory
    can be cropped: its text has a timestamp that one of the three formats
    reads and a terminator phrase, and its crop window is not empty. *)
Theorem X16_crop_step_completes_iff ocr drx erx w :
  NoDup (map fst (files w)) ->
  ((exists r w', crop_img_n_get_date ocr drx erx w = (Ok r, w'))
   <-> forall p img, lookup p (files w) = Some img -> croppable ocr drx erx img).
Proof.
  intros Hnd. split.
  - intros (r & w' & H) p img Hp. eapply crop_step_croppable; eauto.
  - apply crop_step_total. exact Hnd.
Qed.

Lemma X16_crop_step_completes_iff_witness :
  let w := sample_pages [("images/a.jpg", 1%N); ("images/b.jpg", 2%N)] in
  NoDup (map fst (files w))
  /\ ((exists r w', crop_img_n_get_date sample_ocr date_time_regex img_crop_end_regex w
                    = (Ok r, w'))
      <-> forall p img, lookup p (files w) = Some img ->
                        croppable sample_ocr date_time_regex img_crop_end_regex img).
Proof.
  intros w.
  assert (Hnd : NoDup (map fst (files w))).
  { cbn. repeat constructor; cbn; intuition discriminate. }
  split; [exact Hnd |].
  exact (X16_crop_step_completes_iff sample_ocr date_time_regex img_crop_end_regex w Hnd).
Defined.

(** ** The order of the listing *)

Lemma perm_lookup {V} (l1 l2 : list (string * V)) p :
  NoDup (map fst l1) -> Permutation l1 l2 -> lookup p l1 = lookup p l2.
Proof.
  intros Hnd Hp. induction Hp as [| [k v] l1 l2 Hp IH | [k1 v1] [k2 v2] l | l1 l2 l3 H1 IH1 H2 IH2].
  - reflexivity.
  - cbn. inversion Hnd; subst. rewrite IH by assumption. reflexivity.
  - cbn. destruct (String.eqb k1 p) eqn:E1, (String.eqb k2 p) eqn:E2; try reflexivity.
    apply String.eqb_eq in E1, E2. subst. cbn in Hnd.
    inversion Hnd as [| ? ? Hnin _]; subst. exfalso. apply Hnin. left. reflexivity.
  - rewrite IH1 by assumption. apply IH2.
    eapply Permutation_NoDup; [apply Permutation_map; exact H1 | exact Hnd].
Qed.

Lemma lookup_not_in_keys {V} k (l : list (string * V)) :
  ~ In k (map fst l) -> lookup k l = None.
Proof.
  intros H. destruct (lookup k l) eqn:E; [| reflexivity].
  exfalso. apply H. eapply lookup_in_keys; eauto.
Qed.

Lemma cropped_from_unique ocr drx erx img out d out' d' :
  cropped_from ocr drx erx img out d ->
  cropped_from ocr drx erx img out' d' ->
  out = out' /\ d = d'.
Proof.
  intros (pos & m & end_ & Hs & He & Hd & ->) (pos' & m' & end_' & Hs' & He' & Hd' & ->).
  rewrite Hs in Hs'. inversion Hs'; subst. split; congruence.
Qed.

Lemma perm_filter {A} (p : A -> bool) l1 l2 :
  Permutation l1 l2 -> Permutation (filter p l1) (filter p l2).
Proof.
  intros H. induction H as [| x l1 l2 H IH | x y l | l1 l2 l3 H1 IH1 H2 IH2]; cbn.
  - constructor.
  - destruct (p x); [constructor |]; exact IH.
  - destruct (p x), (p y); try apply Permutation_refl. constructor.
  - eapply perm_trans; eauto.
Qed.

(** Among entries of distinct timestamps a timestamp selects one entry at
    most. *)
Lemma filter_key_short (l : list entry) k :
  NoDup (map snd l) ->
  (List.length (filter (fun e : entry => dt_eqb (snd e) k) l) <= 1)%nat.
Proof.
  induction l as [| e l IH]; intros Hnd; [cbn; lia |].
  cbn in Hnd. inversion Hnd as [| ? ? Hnin Hnd']; subst. cbn [filter].
  destruct (dt_eqb (snd e) k) eqn:E; [| auto].
  apply dt_eqb_eq in E. subst k.
  rewrite filter_none; [cbn; lia |].
  intros x Hx. destruct (dt_eqb (snd x) (snd e)) eqn:Ex; [| reflexivity].
  apply dt_eqb_eq in Ex. exfalso. apply Hnin. rewrite <- Ex. apply in_map. exact Hx.
Qed.

Lemma sorted_perm_unique (l1 l2 : list entry) :
  NoDup (map snd l1) ->
  Permutation l1 l2 ->
  StronglySorted (ascending snd dt_ltb) l1 ->
  StronglySorted (ascending snd dt_ltb) l2 ->
  l1 = l2.
Proof.
  intros Hnd Hp S1 S2.
  apply (sorted_stable_unique snd dt_ltb dt_eqb dt_eqb_iff dt_ltb_total); auto.
  intros k.
  pose proof (perm_filter (fun e : entry => dt_eqb (snd e) k) _ _ Hp) as Hf.
  pose proof (filter_key_short l1 k Hnd) as Hlen.
  unfold entry in *.
  destruct (filter (fun e : string * datetime => dt_eqb (snd e) k) l1) as [| x [| y t]].
  - apply Permutation_nil in Hf. symmetry. exact Hf.
  - apply Permutation_length_1_inv in Hf. symmetry. exact Hf.
  - cbn in Hlen. lia.
Qed.

Lemma cell_at_agree fs1 fs2 idx e :
  (forall p, lookup p fs1 = lookup p fs2) -> cell_at fs1 idx e = cell_at fs2 idx e.
Proof. intros H. unfold cell_at, size_on_disk. rewrite H. reflexivity. Qed.

(** A loop whose body leaves two worlds as they are, with one result, does
    so too. *)
Lemma for_each_agree {A S} (body : A -> S -> M S) w1 w2 :
  (forall x s, exists r, body x s w1 = (r, w1) /\ body x s w2 = (r, w2)) ->
  forall l s, exists r, for_each l body s w1 = (r, w1) /\ for_each l body s w2 = (r, w2).
Proof.
  intros H. induction l as [| x l IH]; intros s.
  - exists (Ok s). split; reflexivity.
  - cbn [for_each]. unfold bind. destruct (H x s) as (r & -> & ->).
    destruct r as [s' | e]; [apply IH | eauto].
Qed.

(** [create_pdf] reads the directory through the files of the timeline only:
    two directories that hold the same files give one result. *)
Lemma create_pdf_agree il idl path dl w1 w2 :
  (forall p, lookup p (files w1) = lookup p (files w2)) ->
  fst (create_pdf il idl path dl w1) = fst (create_pdf il idl path dl w2)
  /\ (fst (create_pdf il idl path dl w1) = Ok tt ->
      output (snd (create_pdf il idl path dl w1))
      = output (snd (create_pdf il idl path dl w2))).
Proof.
  intros Hag.
  assert (Hdraw : forall l idx c,
            exists r, draw_one l idx c w1 = (r, w1) /\ draw_one l idx c w2 = (r, w2)).
  { intros l idx c. rewrite !draw_one_eq.
    destruct (nth_error l idx) as [e |]; [| eauto].
    rewrite <- Hag. rewrite (cell_at_agree _ _ idx e Hag).
    destruct (lookup (fst e) (files w1)); eauto. }
  assert (Hpage : forall i c,
            exists r, page_one il idl i c w1 = (r, w1) /\ page_one il idl i c w2 = (r, w2)).
  { intros i c. unfold page_one, lift. unfold bind.
    destruct (page_members il idl i) as [m | e]; [| eauto].
    apply for_each_agree. intros x s. apply Hdraw. }
  unfold create_pdf. unfold bind.
  destruct (for_each_agree _ w1 w2 Hpage
              (List.seq 0 (count_distinct (map strftime_U dl)))
              (emit (SetFont "Helvetica" 12) Canvas)) as (r & -> & ->).
  destruct r as [c | e]; cbn; [auto |].
  split; [reflexivity | discriminate].
Qed.

(** X17: the order in which the system lists the images directory does not
    matter when no two receipts have the same timestamp: two directories
    with the same files in another order give the same timeline, the same
    cropped files and the same outcome of [create_pdf], document
    included. *)
Theorem X17_listing_order_is_irrelevant ocr drx erx wa wb idl il dl wa' path :
  nullable drx = false ->
  NoDup (map fst (files wa)) ->
  Permutation (files wa) (files wb) ->
  crop_img_n_get_date ocr drx erx wa = (Ok (idl, il, dl), wa') ->
  NoDup dl ->
  exists wb',
    crop_img_n_get_date ocr drx erx wb = (Ok (idl, il, dl), wb')
    /\ (forall p, lookup p (files wb') = lookup p (files wa'))
    /\ fst (create_pdf il idl path dl wb') = fst (create_pdf il idl path dl wa')
    /\ (fst (create_pdf il idl path dl wb') = Ok tt ->
        output (snd (create_pdf il idl path dl wb'))
        = output (snd (create_pdf il idl path dl wa'))).
Proof.
  intros Hnn Hnda Hperm Hcropa Hdistinct.
  assert (Hndb : NoDup (map fst (files wb))).
  { eapply Permutation_NoDup; [apply Permutation_map; exact Hperm | exact Hnda]. }
  assert (Hlook : forall p, lookup p (files wa) = lookup p (files wb)).
  { intros p. apply perm_lookup; assumption. }
  (* the crop step completes on the other listing *)
  assert (Hrunb : exists r wb', crop_img_n_get_date ocr drx erx wb = (Ok r, wb')).
  { apply crop_step_total; [exact Hndb |].
    intros p img Hp. rewrite <- Hlook in Hp.
    exact (crop_step_croppable ocr drx erx wa _ wa' p img Hnda Hcropa Hp). }
  destruct Hrunb as ([[idlb ilb] dlb] & wb' & Hcropb).
  exists wb'.
  pose proof (crop_step_complete _ _ _ _ _ _ _ _ Hnn Hnda Hcropa) as (Hpa & Hka & Hea).
  pose proof (crop_step_complete _ _ _ _ _ _ _ _ Hnn Hndb Hcropb) as (Hpb & Hkb & Heb).
  pose proof (crop_img_n_get_date_ok _ _ _ _ _ _ _ _ Hcropa)
    as (Hila & Hdla & _ & Hsa & Hnia & _).
  pose proof (crop_img_n_get_date_ok _ _ _ _ _ _ _ _ Hcropb)
    as (Hilb & Hdlb & _ & Hsb & Hnib & _).
  subst il dl ilb dlb.
  assert (Hsub : forall (l1 l2 : list entry) (w1 w1' w2 w2' : world),
            (forall p, lookup p (files w1) = lookup p (files w2)) ->
            Permutation (map fst l2) (map fst (files w2)) ->
            (forall p d, In (p, d) l1 ->
               exists img out, lookup p (files w1) = Some img
                               /\ lookup p (files w1') = Some out
                               /\ cropped_from ocr drx erx img out d) ->
            (forall p d, In (p, d) l2 ->
               exists img out, lookup p (files w2) = Some img
                               /\ lookup p (files w2') = Some out
                               /\ cropped_from ocr drx erx img out d) ->
            forall e, In e l1 ->
              In e l2 /\ lookup (fst e) (files w1') = lookup (fst e) (files w2')).
  { intros l1 l2 w1 w1' w2 w2' Hl Hp2 H1 H2 [p d] Hin.
    destruct (H1 p d Hin) as (img & out & Hi & Ho & Hc).
    assert (Hk : In p (map fst l2)).
    { eapply Permutation_in; [apply Permutation_sym; exact Hp2 |].
      rewrite Hl in Hi. eapply lookup_in_keys; eauto. }
    apply in_map_iff in Hk. destruct Hk as ([p' d'] & Hp' & Hin'). cbn in Hp'. subst p'.
    destruct (H2 p d' Hin') as (img' & out' & Hi' & Ho' & Hc').
    rewrite Hl, Hi' in Hi. inversion Hi; subst img'.
    destruct (cropped_from_unique _ _ _ _ _ _ _ _ Hc Hc') as (-> & ->).
    cbn [fst]. split; [exact Hin' | congruence]. }
  assert (Hab : forall e, In e idl ->
            In e idlb /\ lookup (fst e) (files wa') = lookup (fst e) (files wb')).
  { apply (Hsub idl idlb wa wa' wb wb'); auto. }
  assert (Hba : forall e, In e idlb ->
            In e idl /\ lookup (fst e) (files wb') = lookup (fst e) (files wa')).
  { apply (Hsub idlb idl wb wb' wa wa'); auto. }
  assert (Hnda' : NoDup idl) by (eapply NoDup_map_inv; exact Hdistinct).
  assert (Hndb' : NoDup idlb) by (eapply NoDup_map_inv; apply Hnib, Hndb).
  assert (Hpi : Permutation idl idlb).
  { apply NoDup_Permutation; auto. intros e. split; intros He.
    - apply Hab, He.
    - apply Hba, He. }
  assert (Heq : idl = idlb) by (apply sorted_perm_unique; auto).
  subst idlb.
  assert (Hfiles : forall p, lookup p (files wb') = lookup p (files wa')).
  { intros p. destruct (in_dec string_dec p (map fst idl)) as [Hin | Hnin].
    - apply in_map_iff in Hin. destruct Hin as (e & <- & He). apply Hba, He.
    - rewrite !lookup_not_in_keys; auto.
      + rewrite Hka. intros Hk. apply Hnin.
        eapply Permutation_in; [apply Permutation_sym; exact Hpa | exact Hk].
      + rewrite Hkb. intros Hk. apply Hnin.
        eapply Permutation_in; [apply Permutation_sym; exact Hpb | exact Hk]. }
  split; [exact Hcropb |]. split; [exact Hfiles |].
  apply create_pdf_agree. exact Hfiles.
Qed.

Lemma X17_listing_order_is_irrelevant_witness :
  let wa := sample_pages [("images/a.jpg", 1%N); ("images/b.jpg", 2%N)] in
  let wb := sample_pages [("images/b.jpg", 2%N); ("images/a.jpg", 1%N)] in
  let wa' := mkworld [("images/a.jpg", Resized (RowSlice (Scan 1 2200 1700) 0 921) 700 300);
                      ("images/b.jpg", Resized (RowSlice (Scan 2 2200 1700) 0 922) 700 300)]
                     None in
  let idl := timeline_feb in
  nullable date_time_regex = false
  /\ NoDup (map fst (files wa))
  /\ Permutation (files wa) (files wb)
  /\ crop_img_n_get_date sample_ocr date_time_regex img_crop_end_regex wa
     = (Ok (idl, map fst idl, map snd idl), wa')
  /\ NoDup (map snd idl)
  /\ exists wb',
       crop_img_n_get_date sample_ocr date_time_regex img_crop_end_regex wb
       = (Ok (idl, map fst idl, map snd idl), wb')
       /\ (forall p, lookup p (files wb') = lookup p (files wa'))
       /\ fst (create_pdf (map fst idl) idl "Result.pdf" (map snd idl) wb')
          = fst (create_pdf (map fst idl) idl "Result.pdf" (map snd idl) wa')
       /\ (fst (create_pdf (map fst idl) idl "Result.pdf" (map snd idl) wb') = Ok tt ->
           output (snd (create_pdf (map fst idl) idl "Result.pdf" (map snd idl) wb'))
           = output (snd (create_pdf (map fst idl) idl "Result.pdf" (map snd idl) wa'))).
Proof.
  intros wa wb wa' idl.
  assert (Hnn : nullable date_time_regex = false) by reflexivity.
  assert (Hnd : NoDup (map fst (files wa))).
  { cbn. repeat constructor; cbn; intuition discriminate. }
  assert (Hperm : Permutation (files wa) (files wb)) by apply perm_swap.
  assert (Hrun : crop_img_n_get_date sample_ocr date_time_regex img_crop_end_regex wa
                 = (Ok (idl, map fst idl, map snd idl), wa'))
    by (vm_compute; reflexivity).
  assert (Hdl : NoDup (map snd idl)).
  { cbn. repeat constructor; cbn; intuition discriminate. }
  split; [exact Hnn |]. split; [exact Hnd |]. split; [exact Hperm |].
  split; [exact Hrun |]. split; [exact Hdl |].
  exact (X17_listing_order_is_irrelevant sample_ocr date_time_regex img_crop_end_regex
           wa wb idl _ _ wa' "Result.pdf" Hnn Hnd Hperm Hrun Hdl).
Defined.
